(** * VoVNet backbone (vovnet39.py): shape-level and dataflow-level model

    The Python module builds a convolutional backbone out of [torch.nn]
    layers.  The embedding below follows the file top to bottom:

    - Python exceptions are values of [exn]; fallible code lives in [result].
    - Tensors are symbolic terms: every tensor carries its [torch.Size] and
      records the operation and the operands that produced it.  Parameter
      values (the weights) are left abstract: a layer's parameters are
      identified by the key under which the layer is registered.
    - A forward pass runs against a [Memory].  [heap_memory] has Python's
      reference semantics: tensors live in cells, [nn.ReLU(inplace=True)]
      overwrites a cell.  [value_memory] is the semantics without aliasing,
      used to say what a forward pass computes.
    - [nn.BatchNorm2d] keeps its running statistics and its [training] flag;
      a forward pass returns the updated module next to its result. *)

From Stdlib Require Import Ascii ZArith Lia.
From stdpp Require Import base numbers list strings pretty.

Open Scope string_scope.
Open Scope list_scope.
Open Scope Z_scope.

(* [lia] reasons about quotients by constants. *)
Ltac Zify.zify_post_hook ::= Z.to_euclidean_division_equations.

(** ** Exceptions and fallible computations *)

(** Reasons for which [torch] raises a [RuntimeError] in the operations
    used by the backbone. *)
Inductive runtime_error : Type :=
  | NegativeDimension                         (* torch.empty with a negative size *)
  | ExpectedBatchedInput                      (* a (C, H, W) or (N, C, H, W) tensor was expected *)
  | NegativePadding                           (* conv2d: negative padding is not supported *)
  | NonPositiveStride                         (* conv2d: non-positive stride is not supported *)
  | WeightBelowGroups (groups got : Z)        (* conv2d: weight has fewer than groups filters *)
  | InputChannelMismatch (expected got : Z)   (* conv2d: weight vs. input channels *)
  | KernelExceedsInput                        (* conv2d: padded input smaller than kernel *)
  | ZeroChannelInput                          (* conv2d: no input channel, but an output to fill *)
  | EmptyInput                                (* conv2d: only zero batch or zero channels may be empty *)
  | PoolOutputTooSmall                        (* max_pool2d: computed output size < 1 *)
  | RunningStatsMismatch (expected got : Z)   (* batch_norm: num_features vs. channels *)
  | CatEmptyList                              (* torch.cat: expected a non-empty list of tensors *)
  | CatZeroDim                                (* torch.cat: zero-dimensional tensor *)
  | CatDimsMismatch                           (* torch.cat: numbers of dimensions differ *)
  | CatSizesMismatch                          (* torch.cat: sizes differ outside dim 1 *)
  | AddNotBroadcastable (a b : list Z)        (* a + b: size of a must match size of b *)
  | ShapesCannotBeMultiplied.                 (* linear: last extent vs. in_features *)

Inductive value_error : Type :=
  | GroupsNotPositive
  | ChannelsNotDivisibleByGroups
  | Expected4DInput                           (* BatchNorm2d._check_input_dim *)
  | SingleValuePerChannel.                    (* "Expected more than 1 value per channel when training" *)

Inductive exn : Type :=
  | NameError (name : string)
  | KeyError (key : string)
  | IndexError
  | AttributeError (name : string)
  | ValueError (why : value_error)
  | RuntimeError (why : runtime_error)
  | DanglingReference (address : nat).   (* model only: no Python program holds one *)

Inductive result (A : Type) : Type :=
  | Ok (a : A)
  | Raise (e : exn).
Arguments Ok {A} a.
Arguments Raise {A} e.

Definition rbind {A B : Type} (r : result A) (k : A → result B) : result B :=
  match r with
  | Ok a => k a
  | Raise e => Raise e
  end.

Notation "'let?' x ':=' c 'in' k" := (rbind c (λ x, k))
  (at level 10, x name, c at level 100, k at level 200).
Notation "'let?' ' p ':=' c 'in' k" := (rbind c (λ p, k))
  (at level 10, p pattern, c at level 100, k at level 200).

(** [exec S A]: a computation over a store of type [S] that may raise. *)
Definition exec (S A : Type) : Type := S → result (A * S).

Definition eret {S A : Type} (a : A) : exec S A := λ s, Ok (a, s).
Definition eraise {S A : Type} (e : exn) : exec S A := λ _, Raise e.
Definition ebind {S A B : Type} (c : exec S A) (k : A → exec S B) : exec S B :=
  λ s, match c s with
       | Ok (a, s') => k a s'
       | Raise e => Raise e
       end.
Definition lift {S A : Type} (r : result A) : exec S A :=
  λ s, match r with
       | Ok a => Ok (a, s)
       | Raise e => Raise e
       end.

Notation "'let*' x ':=' c 'in' k" := (ebind c (λ x, k))
  (at level 10, x name, c at level 100, k at level 200).
Notation "'let*' ' p ':=' c 'in' k" := (ebind c (λ p, k))
  (at level 10, p pattern, c at level 100, k at level 200).

(** ** Python containers *)

(** [l[i]] for a non-negative index. *)
Definition getitem {A : Type} (l : list A) (i : nat) : result A :=
  match l !! i with
  | Some a => Ok a
  | None => Raise IndexError
  end.

(** [l[-1]]. *)
Definition getlast {A : Type} (l : list A) : result A :=
  match last l with
  | Some a => Ok a
  | None => Raise IndexError
  end.

(** [l[:-1]]. *)
Definition droplast {A : Type} (l : list A) : list A := removelast l.

(** [d[k] = v] on an insertion-ordered dictionary ([dict], [OrderedDict],
    [Module._modules]): an existing key keeps its position. *)
Fixpoint setitem {A : Type} (k : string) (v : A) (d : list (string * A))
  : list (string * A) :=
  match d with
  | [] => [(k, v)]
  | (k', v') :: d' =>
      if decide (k' = k) then (k, v) :: d' else (k', v') :: setitem k v d'
  end.

(** [d[k]]. *)
Fixpoint lookup_key {A : Type} (k : string) (d : list (string * A)) : option A :=
  match d with
  | [] => None
  | (k', v) :: d' => if decide (k' = k) then Some v else lookup_key k d'
  end.

(** [OrderedDict(pairs)]. *)
Definition OrderedDict {A : Type} (pairs : list (string * A)) : list (string * A) :=
  foldl (λ d kv, setitem kv.1 kv.2 d) [] pairs.

(** ['.' in name]. *)
Fixpoint has_dot (s : string) : bool :=
  match s with
  | EmptyString => false
  | String c s' => if decide (c = "."%char) then true else has_dot s'
  end.

(** [Module.add_module(name, module)] on the ordered child table.  torch
    rejects a name that contains a dot and the empty name.  (It also
    rejects a name that is already an attribute of the parent without being
    a child; none of the names used by this file is an attribute of
    [nn.Sequential], [nn.Module] or [Backbone].) *)
Definition add_module {A : Type} (name : string) (m : A) (children : list (string * A))
  : result (list (string * A)) :=
  if has_dot name then Raise (KeyError name)
  else if decide (name = "") then Raise (KeyError name)
  else Ok (setitem name m children).

(** [nn.Sequential(OrderedDict(pairs))]: every entry is added in order. *)
Definition Sequential_of {A : Type} (pairs : list (string * A)) : result (list (string * A)) :=
  foldl (λ acc kv, let? children := acc in add_module kv.1 kv.2 children)
        (Ok []) (OrderedDict pairs).

(** ** torch: sizes and layer objects *)

Definition shape : Type := list Z.

(** [nn.Conv2d(..., bias=False)], dilation 1. *)
Record Conv2d : Type := mkConv2d {
  in_channels : Z;
  out_channels : Z;
  kernel_size : Z;
  stride : Z;
  padding : Z;
  groups : Z
}.

(** The constructor validates [groups] and allocates a weight of size
    (out_channels, in_channels // groups, k, k). *)
Definition nn_Conv2d (in_ch out_ch k s p g : Z) : result Conv2d :=
  if decide (g ≤ 0) then Raise (ValueError GroupsNotPositive)
  else if decide (in_ch `mod` g ≠ 0) then Raise (ValueError ChannelsNotDivisibleByGroups)
  else if decide (out_ch `mod` g ≠ 0) then Raise (ValueError ChannelsNotDivisibleByGroups)
  else if decide (out_ch < 0 ∨ in_ch `div` g < 0 ∨ k < 0)
       then Raise (RuntimeError NegativeDimension)
  else Ok (mkConv2d in_ch out_ch k s p g).

(** Output extent of a convolution window along one axis. *)
Definition conv_out (i k s p : Z) : Z := (i + 2 * p - (k - 1) - 1) `div` s + 1.

(** [F.conv2d] on a batch of size (n, ch, h, w), with the checks of
    torch's [check_shape_forward] in their order: padding, stride, number
    of filters against [groups], input channels against the weight, padded
    extents against the kernel.  An input without elements is served only
    when the batch is empty: with no input channel there is nothing to
    fill the output from, and an empty image is refused. *)
Definition conv2d_batched (c : Conv2d) (n ch h w : Z) : result shape :=
  if decide (padding c < 0) then Raise (RuntimeError NegativePadding)
  else if decide (stride c ≤ 0) then Raise (RuntimeError NonPositiveStride)
  else if decide (out_channels c < groups c)
  then Raise (RuntimeError (WeightBelowGroups (groups c) (out_channels c)))
  else if decide (ch ≠ in_channels c)
  then Raise (RuntimeError (InputChannelMismatch (in_channels c) ch))
  else if decide (h + 2 * padding c < kernel_size c ∨ w + 2 * padding c < kernel_size c)
  then Raise (RuntimeError KernelExceedsInput)
  else if decide (n ≠ 0 ∧ ch = 0) then Raise (RuntimeError ZeroChannelInput)
  else if decide (n ≠ 0 ∧ (h = 0 ∨ w = 0)) then Raise (RuntimeError EmptyInput)
  else Ok [n; out_channels c;
           conv_out h (kernel_size c) (stride c) (padding c);
           conv_out w (kernel_size c) (stride c) (padding c)].

(** [F.conv2d]: a 3-D input is one image without the batch dimension; it
    is run as a batch of one and the batch dimension is dropped again. *)
Definition conv2d_size (c : Conv2d) (sz : shape) : result shape :=
  match sz with
  | [n; ch; h; w] => conv2d_batched c n ch h w
  | [ch; h; w] => let? r := conv2d_batched c 1 ch h w in Ok (drop 1 r)
  | _ => Raise (RuntimeError ExpectedBatchedInput)
  end.

(** [nn.MaxPool2d(kernel_size, stride, ceil_mode)], padding 0, dilation 1. *)
Record MaxPool2d : Type := mkMaxPool2d {
  pool_kernel_size : Z;
  pool_stride : Z;
  ceil_mode : bool
}.

(** [pooling_output_shape]: in ceil mode the quotient is rounded up and the
    last window must still start inside the input. *)
Definition pool_out (i k s : Z) (ceil : bool) : Z :=
  let o := (i - (k - 1) - 1 + (if ceil then s - 1 else 0)) `div` s + 1 in
  if ceil && bool_decide (i ≤ (o - 1) * s) then o - 1 else o.

(** The shape check of [F.max_pool2d] on maps of size (ch, h, w): a map
    without channels or with an empty image is refused, then an output
    extent below 1. *)
Definition max_pool2d_planes (p : MaxPool2d) (ch h w : Z) : result shape :=
  let oh := pool_out h (pool_kernel_size p) (pool_stride p) (ceil_mode p) in
  let ow := pool_out w (pool_kernel_size p) (pool_stride p) (ceil_mode p) in
  if decide (ch = 0 ∨ h = 0 ∨ w = 0) then Raise (RuntimeError ExpectedBatchedInput)
  else if decide (oh < 1 ∨ ow < 1) then Raise (RuntimeError PoolOutputTooSmall)
  else Ok [ch; oh; ow].

(** [F.max_pool2d]: a batch (n, ch, h, w), where the batch may be empty, or
    one image (ch, h, w). *)
Definition max_pool2d_size (p : MaxPool2d) (sz : shape) : result shape :=
  match sz with
  | [n; ch; h; w] => let? r := max_pool2d_planes p ch h w in Ok (n :: r)
  | [ch; h; w] => max_pool2d_planes p ch h w
  | _ => Raise (RuntimeError ExpectedBatchedInput)
  end.

(** The tensors after the first one of size [n :: c :: t] in
    [torch.cat(tensors, dim=1)], from left to right: each must have as many
    dimensions and the same extents outside dimension 1; the extents in
    dimension 1 add up. *)
Fixpoint cat_channels (n : Z) (t : list Z) (c : Z) (rest : list shape) : result Z :=
  match rest with
  | [] => Ok c
  | s :: rest' =>
      match s with
      | n' :: c' :: t' =>
          if decide (length t' ≠ length t) then Raise (RuntimeError CatDimsMismatch)
          else if decide (n' = n ∧ t' = t) then cat_channels n t (c + c') rest'
          else Raise (RuntimeError CatSizesMismatch)
      | _ => Raise (RuntimeError CatDimsMismatch)
      end
  end.

(** [torch.cat(tensors, dim=1)].  A tensor without dimensions is refused.
    A tensor of size (0,) is skipped, as torch has done since the time
    when these were its only empty tensors.  Dimension 1 must exist in the
    first tensor that is not skipped, and the later ones must agree with
    it outside that dimension. *)
Definition cat_size (szs : list shape) : result shape :=
  if decide (szs = []) then Raise (RuntimeError CatEmptyList)
  else if decide ([] ∈ szs) then Raise (RuntimeError CatZeroDim)
  else match filter (λ s, s ≠ [0]) szs with
       | [] => Ok [0]
       | (n :: c :: t) :: rest => let? c' := cat_channels n t c rest in Ok (n :: c' :: t)
       | _ :: _ => Raise IndexError
       end.

(** Broadcasting of [a + b]: sizes are aligned at the last dimension; two
    extents are compatible when they are equal or one of them is 1. *)
Fixpoint broadcast_rev (a b : list Z) : option (list Z) :=
  match a, b with
  | [], _ => Some b
  | _, [] => Some a
  | x :: a', y :: b' =>
      if decide (x = y) then cons x <$> broadcast_rev a' b'
      else if decide (x = 1) then cons y <$> broadcast_rev a' b'
      else if decide (y = 1) then cons x <$> broadcast_rev a' b'
      else None
  end.

Definition add_size (a b : shape) : result shape :=
  match broadcast_rev (rev a) (rev b) with
  | Some r => Ok (rev r)
  | None => Raise (RuntimeError (AddNotBroadcastable a b))
  end.

(** ** Symbolic tensors *)

#[local] Set Warnings "-register-all".
Inductive tensor : Type :=
  | TData (sz : shape) (id : string)
  | TConv2d (sz : shape) (key : string) (c : Conv2d) (x : tensor)
  | TBatchNorm (sz : shape) (key : string) (features : Z)
               (stats : option (list tensor)) (x : tensor)
  | TReLU (x : tensor)
  | TMaxPool (sz : shape) (p : MaxPool2d) (x : tensor)
  | TCat (sz : shape) (xs : list tensor)
  | TAdd (sz : shape) (a b : tensor)
  | TLinear (sz : shape) (key : string) (x : tensor).

(** [x.size()]. *)
Fixpoint size (t : tensor) : shape :=
  match t with
  | TData sz _ | TConv2d sz _ _ _ | TBatchNorm sz _ _ _ _
  | TMaxPool sz _ _ | TCat sz _ | TAdd sz _ _ | TLinear sz _ _ => sz
  | TReLU x => size x
  end.

(** Channel count and spatial extent of a batched feature map. *)
Definition channels (t : tensor) : option Z := size t !! 1%nat.

(** [nn.BatchNorm2d(num_features)].  [running] stands for the buffers
    [running_mean], [running_var] and [num_batches_tracked]: the batches
    seen so far in training mode. *)
Record BatchNorm2d : Type := mkBatchNorm2d {
  num_features : Z;
  training : bool;
  running : list tensor
}.

Definition nn_BatchNorm2d (n : Z) : result BatchNorm2d :=
  if decide (n < 0) then Raise (RuntimeError NegativeDimension)
  else Ok (mkBatchNorm2d n true []).

Definition batch_norm_size (b : BatchNorm2d) (sz : shape) : result shape :=
  match sz with
  | [n; ch; h; w] =>
      if training b && bool_decide (n * h * w = 1)
      then Raise (ValueError SingleValuePerChannel)
      else if decide (ch ≠ num_features b)
      then Raise (RuntimeError (RunningStatsMismatch (num_features b) ch))
      else Ok sz
  | _ => Raise (ValueError Expected4DInput)
  end.

(** [nn.Linear(in_features, out_features)]. *)
Record Linear : Type := mkLinear {
  in_features : Z;
  out_features : Z
}.

Definition nn_Linear (i o : Z) : result Linear :=
  if decide (i < 0 ∨ o < 0) then Raise (RuntimeError NegativeDimension)
  else Ok (mkLinear i o).

Definition linear_size (l : Linear) (sz : shape) : result shape :=
  match rev sz with
  | last :: front =>
      if decide (last = in_features l) then Ok (rev (out_features l :: front))
      else Raise (RuntimeError ShapesCannotBeMultiplied)
  | [] => Raise (RuntimeError ShapesCannotBeMultiplied)
  end.

(** The leaves found in the [nn.Sequential] containers of this file. *)
Inductive Layer : Type :=
  | L_Conv2d (c : Conv2d)
  | L_BatchNorm2d (b : BatchNorm2d)
  | L_ReLU (inplace : bool).

Definition Sequential : Type := list (string * Layer).

(** ** Memory models *)

Class Memory : Type := {
  ref : Type;
  mem : Type;
  new : tensor → exec mem ref;              (* a fresh tensor object *)
  read : ref → exec mem tensor;
  write : ref → tensor → exec mem ref       (* overwrite in place *)
}.

(** Reference semantics: a store of cells addressed by position. *)
Definition heap : Type := list tensor.

Definition heap_new (v : tensor) : exec heap nat :=
  λ h, Ok (length h, h ++ [v]).
Definition heap_read (l : nat) : exec heap tensor :=
  λ h, match h !! l with
       | Some v => Ok (v, h)
       | None => Raise (DanglingReference l)
       end.
Definition heap_write (l : nat) (v : tensor) : exec heap nat :=
  λ h, match h !! l with
       | Some _ => Ok (l, <[l := v]> h)
       | None => Raise (DanglingReference l)
       end.

Definition heap_memory : Memory :=
  {| ref := nat; mem := heap; new := heap_new; read := heap_read; write := heap_write |}.

(** Value semantics: a reference is the tensor itself, nothing is shared. *)
Definition value_memory : Memory :=
  {| ref := tensor; mem := unit;
     new := λ v, eret v; read := λ v, eret v; write := λ _ v, eret v |}.

(** ** torch: forward passes of the layers *)

Fixpoint read_all `{Memory} (xs : list ref) : exec mem (list tensor) :=
  match xs with
  | [] => eret []
  | x :: rest =>
      let* v := read x in
      let* vs := read_all rest in
      eret (v :: vs)
  end.

Section layers.
Context `{Memory}.

Definition Conv2d_forward (key : string) (c : Conv2d) (x : ref) : exec mem ref :=
  let* v := read x in
  let* sz := lift (conv2d_size c (size v)) in
  new (TConv2d sz key c v).

(** In training mode the batch statistics normalise the input and the
    running statistics absorb the batch; in evaluation mode the running
    statistics normalise the input and stay as they are. *)
Definition BatchNorm2d_forward (key : string) (b : BatchNorm2d) (x : ref)
  : exec mem (ref * BatchNorm2d) :=
  let* v := read x in
  let* sz := lift (batch_norm_size b (size v)) in
  let* y := new (TBatchNorm sz key (num_features b)
                            (if training b then None else Some (running b)) v) in
  eret (y, if training b
           then mkBatchNorm2d (num_features b) true (running b ++ [v])
           else b).

Definition ReLU_forward (inplace : bool) (x : ref) : exec mem ref :=
  let* v := read x in
  if inplace then write x (TReLU v) else new (TReLU v).

Definition MaxPool2d_forward (p : MaxPool2d) (x : ref) : exec mem ref :=
  let* v := read x in
  let* sz := lift (max_pool2d_size p (size v)) in
  new (TMaxPool sz p v).

(** [torch.cat(xs, dim=1)]. *)
Definition torch_cat (xs : list ref) : exec mem ref :=
  let* vs := read_all xs in
  let* sz := lift (cat_size (size <$> vs)) in
  new (TCat sz vs).

(** [a + b]. *)
Definition torch_add (a b : ref) : exec mem ref :=
  let* va := read a in
  let* vb := read b in
  let* sz := lift (add_size (size va) (size vb)) in
  new (TAdd sz va vb).

Definition Linear_forward (key : string) (l : Linear) (x : ref) : exec mem ref :=
  let* v := read x in
  let* sz := lift (linear_size l (size v)) in
  new (TLinear sz key v).

Definition Layer_forward (key : string) (l : Layer) (x : ref) : exec mem (ref * Layer) :=
  match l with
  | L_Conv2d c =>
      let* y := Conv2d_forward key c x in eret (y, L_Conv2d c)
  | L_BatchNorm2d b =>
      let* '(y, b') := BatchNorm2d_forward key b x in eret (y, L_BatchNorm2d b')
  | L_ReLU inplace =>
      let* y := ReLU_forward inplace x in eret (y, L_ReLU inplace)
  end.

(** [nn.Sequential.forward]: [for module in self: input = module(input)]. *)
Fixpoint Sequential_forward (s : Sequential) (x : ref) : exec mem (ref * Sequential) :=
  match s with
  | [] => eret (x, [])
  | (key, l) :: rest =>
      let* '(y, l') := Layer_forward key l x in
      let* '(z, rest') := Sequential_forward rest y in
      eret (z, (key, l') :: rest')
  end.
End layers.

(** ** vovnet39.py *)

(** A [for] loop whose body may raise, threading the loop-carried state. *)
Fixpoint for_in {A S : Type} (xs : list A) (body : A → S → result S) (s : S) : result S :=
  match xs with
  | [] => Ok s
  | x :: rest => let? s' := body x s in for_in rest body s'
  end.

(** [range(n)]. *)
Definition range (n : Z) : list Z := seqZ 0 n.

(** ['{}_{}/conv'.format(module_name, postfix)] and its siblings. *)
Definition layer_key (module_name postfix kind : string) : string :=
  module_name +:+ "_" +:+ postfix +:+ "/" +:+ kind.

Definition conv3x3 (in_channels out_channels : Z) (module_name postfix : string)
    (stride groups kernel_size padding : Z) : result (list (string * Layer)) :=
  let? conv := nn_Conv2d in_channels out_channels kernel_size stride padding groups in
  let? norm := nn_BatchNorm2d out_channels in
  Ok [ (layer_key module_name postfix "conv", L_Conv2d conv);
       (layer_key module_name postfix "norm", L_BatchNorm2d norm);
       (layer_key module_name postfix "relu", L_ReLU true) ].

Definition conv1x1 (in_channels out_channels : Z) (module_name postfix : string)
    (stride groups kernel_size padding : Z) : result (list (string * Layer)) :=
  let? conv := nn_Conv2d in_channels out_channels kernel_size stride padding groups in
  let? norm := nn_BatchNorm2d out_channels in
  Ok [ (layer_key module_name postfix "conv", L_Conv2d conv);
       (layer_key module_name postfix "norm", L_BatchNorm2d norm);
       (layer_key module_name postfix "relu", L_ReLU true) ].

(** *** class _OSA_module *)

Record OSA_module : Type := mkOSA_module {
  identity : bool;
  layers : list Sequential;        (* nn.ModuleList *)
  concat : Sequential
}.

Definition _OSA_module (in_ch stage_ch concat_ch layer_per_block : Z)
    (module_name : string) (identity : bool) : result OSA_module :=
  let in_channel := in_ch in
  let? '(layers, in_channel) :=
    for_in (range layer_per_block)
      (λ i '(layers, in_channel),
         let? pairs := conv3x3 in_channel stage_ch module_name (pretty i) 1 1 3 1 in
         let? layer := Sequential_of pairs in
         Ok (layers ++ [layer], stage_ch))
      ([], in_channel) in
  (* feature aggregation *)
  let in_channel := in_ch + layer_per_block * stage_ch in
  let? pairs := conv1x1 in_channel concat_ch module_name "concat" 1 1 1 0 in
  let? concat := Sequential_of pairs in
  Ok (mkOSA_module identity layers concat).

Section osa_forward.
Context `{Memory}.

(** [for layer in self.layers: x = layer(x); output.append(x)]. *)
Fixpoint layers_loop (ls : list Sequential) (x : ref) (output : list ref)
  : exec mem (ref * list ref * list Sequential) :=
  match ls with
  | [] => eret (x, output, [])
  | layer :: rest =>
      let* '(x, layer') := Sequential_forward layer x in
      let output := output ++ [x] in
      let* '(x, output, rest') := layers_loop rest x output in
      eret (x, output, layer' :: rest')
  end.

Definition _OSA_module_forward (self : OSA_module) (x : ref)
  : exec mem (ref * OSA_module) :=
  let identity_feat := x in
  let output := [x] in
  let* '(x, output, layers') := layers_loop (layers self) x output in
  let* x := torch_cat output in
  let* '(xt, concat') := Sequential_forward (concat self) x in
  let* xt := if identity self then torch_add xt identity_feat else eret xt in
  eret (xt, mkOSA_module (identity self) layers' concat').
End osa_forward.

(** *** class _OSA_stage(nn.Sequential) *)

Inductive stage_child : Type :=
  | SC_MaxPool2d (p : MaxPool2d)
  | SC_OSA_module (m : OSA_module).

Definition OSA_stage : Type := list (string * stage_child).

Definition _OSA_stage (in_ch stage_ch concat_ch block_per_stage layer_per_block stage_num : Z)
    : result OSA_stage :=
  let? self :=
    if negb (bool_decide (stage_num = 2))
    then add_module "Pooling" (SC_MaxPool2d (mkMaxPool2d 3 2 true)) []
    else Ok [] in
  let module_name := "OSA" +:+ pretty stage_num +:+ "_1" in
  let? m := _OSA_module in_ch stage_ch concat_ch layer_per_block module_name false in
  let? self := add_module module_name (SC_OSA_module m) self in
  for_in (range (block_per_stage - 1))
    (λ i self,
       let module_name := "OSA" +:+ pretty stage_num +:+ "_" +:+ pretty (i + 2) in
       let? m := _OSA_module concat_ch stage_ch concat_ch layer_per_block module_name true in
       add_module module_name (SC_OSA_module m) self)
    self.

Section stage_forward.
Context `{Memory}.

Definition stage_child_forward (c : stage_child) (x : ref) : exec mem (ref * stage_child) :=
  match c with
  | SC_MaxPool2d p =>
      let* y := MaxPool2d_forward p x in eret (y, SC_MaxPool2d p)
  | SC_OSA_module m =>
      let* '(y, m') := _OSA_module_forward m x in eret (y, SC_OSA_module m')
  end.

(** Inherited [nn.Sequential.forward]. *)
Fixpoint _OSA_stage_forward (self : OSA_stage) (x : ref) : exec mem (ref * OSA_stage) :=
  match self with
  | [] => eret (x, [])
  | (name, c) :: rest =>
      let* '(y, c') := stage_child_forward c x in
      let* '(z, rest') := _OSA_stage_forward rest y in
      eret (z, (name, c') :: rest')
  end.
End stage_forward.

(** *** class VoVNet(Backbone) *)

Module ShapeSpec.
Record t : Type := mk { channels : Z; stride : Z }.
End ShapeSpec.

Inductive VoVNet_child : Type :=
  | C_Sequential (s : Sequential)
  | C_OSA_stage (s : OSA_stage)
  | C_Linear (l : Linear).

Record VoVNet_object : Type := mkVoVNet {
  modules : list (string * VoVNet_child);     (* Module._modules *)
  stage_names : list string
}.

(** [VoVNet.__init__].  The closing loop over [self.modules()] assigns
    initial values to the parameters (Kaiming-normal convolution weights,
    unit scales, zero biases); it changes no size and no wiring, and
    parameter values are abstract here. *)
Definition VoVNet (config_stage_ch config_concat_ch block_per_stage : list Z)
    (layer_per_block num_classes : Z) : result VoVNet_object :=
  (* Stem module *)
  let? stem1 := conv3x3 3 64 "stem" "1" 2 1 3 1 in
  let? stem2 := conv3x3 64 64 "stem" "2" 1 1 3 1 in
  let? stem3 := conv3x3 64 128 "stem" "3" 2 1 3 1 in
  let stem := stem1 ++ stem2 ++ stem3 in
  let? stem_module := Sequential_of stem in
  let? modules := add_module "stem" (C_Sequential stem_module) [] in
  let stem_out_ch := [128] in
  let in_ch_list := stem_out_ch ++ droplast config_concat_ch in
  let? '(stage_names, modules) :=
    for_in (range 4)   (* num_stages *)
      (λ i '(stage_names, modules),
         let name := "stage" +:+ pretty (i + 2) in
         let stage_names := stage_names ++ [name] in
         let? in_ch := getitem in_ch_list (Z.to_nat i) in
         let? stage_ch := getitem config_stage_ch (Z.to_nat i) in
         let? concat_ch := getitem config_concat_ch (Z.to_nat i) in
         let? blocks := getitem block_per_stage (Z.to_nat i) in
         let? stage := _OSA_stage in_ch stage_ch concat_ch blocks layer_per_block (i + 2) in
         let? modules := add_module name (C_OSA_stage stage) modules in
         Ok (stage_names, modules))
      ([], modules) in
  let? last_ch := getlast config_concat_ch in
  let? classifier := nn_Linear last_ch num_classes in
  let? modules := add_module "classifier" (C_Linear classifier) modules in
  Ok (mkVoVNet modules stage_names).

Section vovnet_forward.
Context `{Memory}.

Definition VoVNet_child_forward (name : string) (c : VoVNet_child) (x : ref)
  : exec mem (ref * VoVNet_child) :=
  match c with
  | C_Sequential s =>
      let* '(y, s') := Sequential_forward s x in eret (y, C_Sequential s')
  | C_OSA_stage s =>
      let* '(y, s') := _OSA_stage_forward s x in eret (y, C_OSA_stage s')
  | C_Linear l =>
      let* y := Linear_forward name l x in eret (y, C_Linear l)
  end.

(** [self.<name>(x)]: the child registered under [name] is called; its
    buffers may change, so the updated object is returned as well. *)
Definition call (self : VoVNet_object) (name : string) (x : ref)
  : exec mem (ref * VoVNet_object) :=
  match lookup_key name (modules self) with
  | None => eraise (AttributeError name)
  | Some c =>
      let* '(y, c') := VoVNet_child_forward name c x in
      eret (y, mkVoVNet (setitem name c' (modules self)) (stage_names self))
  end.

Definition VoVNet_forward (self : VoVNet_object) (x : ref)
  : exec mem (list (string * ref) * VoVNet_object) :=
  let outputs := [] in
  let* '(x, self) := call self "stem" x in
  let* '(x, self) := call self "stage2" x in
  let outputs := setitem "res2" x outputs in
  let* '(x, self) := call self "stage3" x in
  let outputs := setitem "res3" x outputs in
  let* '(x, self) := call self "stage4" x in
  let outputs := setitem "res4" x outputs in
  let* '(x, self) := call self "stage5" x in
  let outputs := setitem "res5" x outputs in
  eret (outputs, self).
End vovnet_forward.

Definition VoVNet_output_shape (self : VoVNet_object) : list (string * ShapeSpec.t) :=
  [ ("res2", ShapeSpec.mk 256 4);
    ("res3", ShapeSpec.mk 512 8);
    ("res4", ShapeSpec.mk 768 16);
    ("res5", ShapeSpec.mk 1024 32) ].

(** *** The builders *)

(** What [load_state_dict_from_url] would hand to [load_state_dict]. *)
Definition state_dict : Type := list (string * shape).

Section module_namespace.
(** The names bound in the module's global namespace, the weight-URL
    table, and the two library functions behind the names
    [load_state_dict_from_url] and [Module.load_state_dict]. *)
Variable bound_names : list string.
Variable model_urls : list (string * string).
Variable load_state_dict_from_url : string → bool → result state_dict.
Variable load_state_dict : VoVNet_object → state_dict → result VoVNet_object.

(** Evaluation of a global name. *)
Definition load_global (name : string) : result unit :=
  if bool_decide (name ∈ bound_names) then Ok () else Raise (NameError name).

(** [d[k]] on a [dict]. *)
Definition dict_getitem (d : list (string * string)) (k : string) : result string :=
  match lookup_key k d with
  | Some v => Ok v
  | None => Raise (KeyError k)
  end.

(** In the call [load_state_dict_from_url(model_urls[arch], ...)] Python
    evaluates the callee before the arguments. *)
Definition _vovnet (arch : string)
    (config_stage_ch config_concat_ch block_per_stage : list Z)
    (layer_per_block : Z) (pretrained progress : bool) : result VoVNet_object :=
  let? model := VoVNet config_stage_ch config_concat_ch block_per_stage
                       layer_per_block 1000 in
  if pretrained then
    let? _ := load_global "load_state_dict_from_url" in
    let? url := dict_getitem model_urls arch in
    let? weights := load_state_dict_from_url url progress in
    let? model := load_state_dict model weights in
    Ok model
  else Ok model.

Definition vovnet57 (pretrained progress : bool) : result VoVNet_object :=
  _vovnet "vovnet57" [128; 160; 192; 224] [256; 512; 768; 1024]
          [1; 1; 4; 3] 5 pretrained progress.

Definition vovnet39 (pretrained progress : bool) : result VoVNet_object :=
  _vovnet "vovnet39" [128; 160; 192; 224] [256; 512; 768; 1024]
          [1; 1; 2; 2] 5 pretrained progress.

Definition vovnet27_slim (pretrained progress : bool) : result VoVNet_object :=
  _vovnet "vovnet27_slim" [64; 80; 96; 112] [128; 256; 384; 512]
          [1; 1; 1; 1] 5 pretrained progress.

End module_namespace.

(** Lines 1-7 import [torch], [nn], [F], [OrderedDict], [BACKBONE_REGISTRY],
    [Backbone] and [ShapeSpec]; the rest are the module's own definitions. *)
Definition module_names : list string :=
  [ "torch"; "nn"; "F"; "OrderedDict"; "BACKBONE_REGISTRY"; "Backbone"; "ShapeSpec";
    "__all__"; "model_urls"; "conv3x3"; "conv1x1"; "_OSA_module"; "_OSA_stage";
    "VoVNet"; "_vovnet"; "vovnet57"; "vovnet39"; "vovnet27_slim";
    "build_vovnet39_backbone" ].

Definition model_urls : list (string * string) :=
  [ ("vovnet39", "https://dl.dropbox.com/s/1lnzsgnixd8gjra/vovnet39_torchvision.pth?dl=1");
    ("vovnet57", "https://dl.dropbox.com/s/6bfu9gstbwfw31m/vovnet57_torchvision.pth?dl=1") ].

(** * Verification *)

(** ** Dictionaries, keys and names *)

Section dictionaries.
Context {A : Type}.
Implicit Types (d acc pairs : list (string * A)) (k : string) (v : A).

Lemma lookup_key_setitem_eq k v d : lookup_key k (setitem k v d) = Some v.
Proof.
  induction d as [|[k' v'] d IH]; simpl.
  - by rewrite decide_True.
  - destruct (decide (k' = k)) as [->|Hne]; simpl.
    + by rewrite decide_True.
    + by rewrite decide_False.
Qed.

Lemma lookup_key_setitem_ne k k' v d :
  k ≠ k' → lookup_key k' (setitem k v d) = lookup_key k' d.
Proof.
  intros Hne. induction d as [|[k0 v0] d IH]; simpl.
  - by rewrite decide_False.
  - destruct (decide (k0 = k)) as [->|Hne0]; simpl.
    + by rewrite !decide_False.
    + destruct (decide (k0 = k')); auto.
Qed.

Lemma setitem_fresh k v d : k ∉ d.*1 → setitem k v d = d ++ [(k, v)].
Proof.
  induction d as [|[k' v'] d IH]; simpl; [done|].
  intros Hk. apply not_elem_of_cons in Hk as [Hne Hk].
  rewrite decide_False by done. by rewrite IH.
Qed.

Lemma setitem_keys k v d : k ∈ d.*1 → (setitem k v d).*1 = d.*1.
Proof.
  induction d as [|[k' v'] d IH]; simpl.
  - by intros ?%elem_of_nil.
  - intros Hk. destruct (decide (k' = k)) as [->|Hne]; simpl; [done|].
    apply elem_of_cons in Hk as [->|Hk]; [done|]. f_equal. by apply IH.
Qed.

Lemma lookup_key_Some_elem k v d : lookup_key k d = Some v → (k, v) ∈ d.
Proof.
  induction d as [|[k' v'] d IH]; simpl; [done|].
  destruct (decide (k' = k)) as [->|Hne].
  - intros [= ->]. apply elem_of_cons; auto.
  - intros Hk. apply elem_of_cons; auto.
Qed.

Lemma lookup_key_app_fresh k d d' :
  k ∉ d.*1 → lookup_key k (d ++ d') = lookup_key k d'.
Proof.
  induction d as [|[k' v'] d IH]; simpl; [done|].
  intros Hk. apply not_elem_of_cons in Hk as [Hne Hk].
  rewrite decide_False by done. auto.
Qed.

Lemma OrderedDict_foldl acc pairs :
  NoDup (acc.*1 ++ pairs.*1) →
  foldl (λ d kv, setitem kv.1 kv.2 d) acc pairs = acc ++ pairs.
Proof.
  revert acc. induction pairs as [|[k v] pairs IH]; intros acc Hnd; simpl.
  - by rewrite app_nil_r.
  - simpl in Hnd. rewrite setitem_fresh.
    + rewrite IH.
      * by rewrite <- app_assoc.
      * rewrite fmap_app. simpl. by rewrite <- app_assoc.
    + apply NoDup_app in Hnd as (_ & Hnd & _). intros Hk.
      apply (Hnd k Hk). apply elem_of_cons; auto.
Qed.

Lemma OrderedDict_NoDup pairs : NoDup pairs.*1 → OrderedDict pairs = pairs.
Proof. intros Hnd. unfold OrderedDict. by rewrite OrderedDict_foldl. Qed.

(** A key accepted by [add_module]. *)
Definition valid_name (k : string) : Prop := has_dot k = false ∧ k ≠ "".

Lemma add_module_fresh k v d :
  valid_name k → k ∉ d.*1 → add_module k v d = Ok (d ++ [(k, v)]).
Proof.
  intros [Hdot Hne] Hk. unfold add_module. rewrite Hdot.
  rewrite decide_False by done. by rewrite setitem_fresh.
Qed.

Lemma Sequential_of_foldl acc pairs :
  NoDup (acc.*1 ++ pairs.*1) → Forall valid_name pairs.*1 →
  foldl (λ r kv, let? children := r in add_module kv.1 kv.2 children) (Ok acc) pairs
  = Ok (acc ++ pairs).
Proof.
  revert acc. induction pairs as [|[k v] pairs IH]; intros acc Hnd Hval; simpl.
  - by rewrite app_nil_r.
  - simpl in Hnd, Hval. apply Forall_cons in Hval as [Hk Hval].
    rewrite add_module_fresh; [|done|].
    + rewrite IH; [|by rewrite fmap_app, <- app_assoc|done].
      by rewrite <- app_assoc.
    + apply NoDup_app in Hnd as (_ & Hnd & _). intros Hin.
      apply (Hnd k Hin). apply elem_of_cons; auto.
Qed.

Lemma Sequential_of_ok pairs :
  NoDup pairs.*1 → Forall valid_name pairs.*1 → Sequential_of pairs = Ok pairs.
Proof.
  intros Hnd Hval. unfold Sequential_of. rewrite OrderedDict_NoDup by done.
  by rewrite Sequential_of_foldl.
Qed.
End dictionaries.

Section names.
Lemma has_dot_app (a b : string) : has_dot (a +:+ b) = has_dot a || has_dot b.
Proof.
  induction a as [|c a IH]; [done|].
  change (String c a +:+ b) with (String c (a +:+ b)). simpl.
  destruct (decide (c = "."%char)); auto.
Qed.

Lemma has_dot_pretty_N_go (x : N) (s : string) :
  has_dot s = false → has_dot (pretty_N_go x s) = false.
Proof.
  revert s. induction (N.lt_wf_0 x) as [x _ IH]; intros s Hs.
  destruct (decide (x = 0%N)) as [->|Hx].
  - by rewrite pretty_N_go_0.
  - rewrite pretty_N_go_step by lia. apply IH.
    + apply N.div_lt; lia.
    + simpl. rewrite Hs. unfold pretty_N_char. by repeat case_match.
Qed.

Lemma has_dot_pretty_N (x : N) : has_dot (pretty x) = false.
Proof.
  unfold pretty, pretty_N. case_decide; [done|]. by apply has_dot_pretty_N_go.
Qed.

Lemma has_dot_pretty (z : Z) : has_dot (pretty z) = false.
Proof.
  destruct z as [|p|p]; unfold pretty, pretty_Z; [done|..].
  - apply has_dot_pretty_N.
  - rewrite has_dot_app. simpl. apply has_dot_pretty_N.
Qed.

Lemma app_not_empty_r (a b : string) : b ≠ "" → a +:+ b ≠ "".
Proof. intros Hb. destruct a; [done|]. discriminate. Qed.

Lemma layer_key_valid (m p kind : string) :
  has_dot m = false → has_dot p = false → has_dot kind = false →
  valid_name (layer_key m p kind).
Proof.
  intros Hm Hp Hk. split.
  - unfold layer_key. rewrite !has_dot_app, Hm, Hp, Hk. done.
  - unfold layer_key. apply app_not_empty_r. discriminate.
Qed.

Lemma layer_key_inj (m p k1 k2 : string) :
  layer_key m p k1 = layer_key m p k2 → k1 = k2.
Proof.
  unfold layer_key. intros Heq.
  by do 4 apply String.app_inj in Heq.
Qed.

Lemma layer_keys_NoDup (m p : string) :
  NoDup [layer_key m p "conv"; layer_key m p "norm"; layer_key m p "relu"].
Proof.
  repeat apply NoDup_cons_2; try apply NoDup_nil_2;
    rewrite ?elem_of_cons, ?elem_of_nil;
    intros Hin; repeat destruct Hin as [Hin|Hin]; try done;
    apply layer_key_inj in Hin; discriminate.
Qed.
End names.

(** ** What the constructors build *)

(** A Conv-Norm-Act unit as [conv3x3] and [conv1x1] lay it out. *)
Definition cna (in_ch out_ch k s p : Z) (module_name postfix : string) : Sequential :=
  [ (layer_key module_name postfix "conv", L_Conv2d (mkConv2d in_ch out_ch k s p 1));
    (layer_key module_name postfix "norm", L_BatchNorm2d (mkBatchNorm2d out_ch true []));
    (layer_key module_name postfix "relu", L_ReLU true) ].

(** The [ModuleList] of an OSA module: unit 0 reads the module's input,
    every later unit reads [stage_ch] channels. *)
Definition osa_layers (in_ch stage_ch : Z) (module_name : string) (n : Z)
  : list Sequential :=
  (λ i, cna (if decide (i = 0) then in_ch else stage_ch) stage_ch 3 1 1
            module_name (pretty i)) <$> range n.

Definition osa_module (in_ch stage_ch concat_ch layer_per_block : Z)
    (module_name : string) (identity : bool) : OSA_module :=
  mkOSA_module identity
    (osa_layers in_ch stage_ch module_name layer_per_block)
    (cna (in_ch + layer_per_block * stage_ch) concat_ch 1 1 0 module_name "concat").

Definition osa_name (stage_num k : Z) : string :=
  "OSA" +:+ pretty stage_num +:+ "_" +:+ pretty k.

Definition osa_stage (in_ch stage_ch concat_ch block_per_stage layer_per_block stage_num : Z)
  : OSA_stage :=
  (if decide (stage_num = 2) then []
   else [("Pooling", SC_MaxPool2d (mkMaxPool2d 3 2 true))]) ++
  (osa_name stage_num 1,
   SC_OSA_module (osa_module in_ch stage_ch concat_ch layer_per_block
                             (osa_name stage_num 1) false)) ::
  ((λ i, (osa_name stage_num (i + 2),
          SC_OSA_module (osa_module concat_ch stage_ch concat_ch layer_per_block
                                    (osa_name stage_num (i + 2)) true)))
     <$> range (block_per_stage - 1)).

Definition stem_layers : Sequential :=
  cna 3 64 3 2 1 "stem" "1" ++ cna 64 64 3 1 1 "stem" "2" ++ cna 64 128 3 2 1 "stem" "3".

Section constructors.
Lemma nn_Conv2d_ok (i o k s p : Z) :
  0 ≤ i → 0 ≤ o → 0 ≤ k → nn_Conv2d i o k s p 1 = Ok (mkConv2d i o k s p 1).
Proof.
  intros Hi Ho Hk. unfold nn_Conv2d.
  rewrite decide_False by lia.
  rewrite !Z.mod_1_r, Z.div_1_r.
  rewrite !decide_False by lia. done.
Qed.

Lemma nn_BatchNorm2d_ok (n : Z) : 0 ≤ n → nn_BatchNorm2d n = Ok (mkBatchNorm2d n true []).
Proof. intros Hn. unfold nn_BatchNorm2d. by rewrite decide_False by lia. Qed.

Lemma conv3x3_ok (i o : Z) (m pf : string) (s k p : Z) :
  0 ≤ i → 0 ≤ o → 0 ≤ k → conv3x3 i o m pf s 1 k p = Ok (cna i o k s p m pf).
Proof.
  intros Hi Ho Hk. unfold conv3x3.
  rewrite nn_Conv2d_ok, nn_BatchNorm2d_ok by done. done.
Qed.

Lemma conv1x1_ok (i o : Z) (m pf : string) (s k p : Z) :
  0 ≤ i → 0 ≤ o → 0 ≤ k → conv1x1 i o m pf s 1 k p = Ok (cna i o k s p m pf).
Proof.
  intros Hi Ho Hk. unfold conv1x1.
  rewrite nn_Conv2d_ok, nn_BatchNorm2d_ok by done. done.
Qed.

Lemma conv3x3_negative (i o : Z) (m pf : string) (s k p : Z) :
  i < 0 ∨ o < 0 → ∃ e, conv3x3 i o m pf s 1 k p = Raise e.
Proof.
  intros Hneg. unfold conv3x3, nn_Conv2d.
  rewrite decide_False by lia. rewrite !Z.mod_1_r, Z.div_1_r.
  rewrite !(decide_False (P := 0 ≠ 0)) by lia.
  destruct (decide (o < 0 ∨ i < 0 ∨ k < 0)); simpl; [eauto|lia].
Qed.

Lemma Sequential_of_cna (i o k s p : Z) (m pf : string) :
  has_dot m = false → has_dot pf = false →
  Sequential_of (cna i o k s p m pf) = Ok (cna i o k s p m pf).
Proof.
  intros Hm Hpf. apply Sequential_of_ok.
  - apply layer_keys_NoDup.
  - repeat constructor; by apply layer_key_valid.
Qed.

Lemma range_nonpos (n : Z) : n ≤ 0 → range n = [].
Proof. apply seqZ_nil. Qed.

Lemma range_length (n : Z) : length (range n) = Z.to_nat n.
Proof. apply length_seqZ. Qed.

(** The construction loop of [_OSA_module], from any iteration on. *)
Lemma osa_layers_loop (stage_ch : Z) (m : string) (n : nat) :
  0 ≤ stage_ch → has_dot m = false →
  ∀ (j c : Z) (acc : list Sequential), 0 ≤ c →
    for_in (seqZ j (Z.of_nat n))
      (λ i '(layers, in_channel),
         let? pairs := conv3x3 in_channel stage_ch m (pretty i) 1 1 3 1 in
         let? layer := Sequential_of pairs in
         Ok (layers ++ [layer], stage_ch))
      (acc, c)
    = Ok (acc ++ ((λ i, cna (if decide (i = j) then c else stage_ch) stage_ch 3 1 1
                            m (pretty i)) <$> seqZ j (Z.of_nat n)),
          if decide (n = 0%nat) then c else stage_ch).
Proof.
  intros Hs Hm. induction n as [|n IH]; intros j c acc Hc.
  - rewrite seqZ_nil by lia. simpl. by rewrite app_nil_r.
  - rewrite seqZ_cons by lia.
    replace (Z.pred (Z.of_nat (S n))) with (Z.of_nat n) by lia.
    cbn [for_in rbind fmap list_fmap].
    rewrite conv3x3_ok by lia. cbn [rbind].
    rewrite Sequential_of_cna by auto using has_dot_pretty. cbn [rbind].
    rewrite IH by done. rewrite (decide_True (P := j = j)) by done.
    rewrite (decide_False (P := S n = 0%nat)) by done.
    rewrite <- app_assoc. cbn [app].
    replace (if decide (n = 0%nat) then stage_ch else stage_ch) with stage_ch
      by (by destruct (decide (n = 0%nat))).
    do 4 f_equal.
    apply list_fmap_ext. intros k i Hi.
    apply lookup_seqZ in Hi as [-> _].
    rewrite (decide_False (P := _ = j)) by lia.
    by destruct (decide (_ = Z.succ j)).
Qed.

Lemma _OSA_module_ok (in_ch stage_ch concat_ch n : Z) (m : string) (identity : bool) :
  0 ≤ in_ch → 0 ≤ stage_ch → 0 ≤ concat_ch → 0 ≤ n → has_dot m = false →
  _OSA_module in_ch stage_ch concat_ch n m identity
  = Ok (osa_module in_ch stage_ch concat_ch n m identity).
Proof.
  intros Hi Hs Hc Hn Hm. unfold _OSA_module, range.
  rewrite <- (Z2Nat.id n) at 1 by done.
  rewrite osa_layers_loop by done. cbn [rbind app].
  rewrite conv1x1_ok by nia. cbn [rbind].
  rewrite Sequential_of_cna by done. cbn [rbind].
  unfold osa_module, osa_layers, range. by rewrite Z2Nat.id by done.
Qed.
End constructors.

Section stage_constructor.
Lemma osa_name_inj (s k1 k2 : Z) : osa_name s k1 = osa_name s k2 → k1 = k2.
Proof.
  unfold osa_name. intros Heq.
  do 3 apply String.app_inj in Heq. by apply pretty_Z_inj in Heq.
Qed.

Lemma osa_name_valid (s k : Z) : valid_name (osa_name s k).
Proof.
  split.
  - unfold osa_name. by rewrite !has_dot_app, !has_dot_pretty.
  - unfold osa_name. discriminate.
Qed.

Lemma osa_name_has_dot (s k : Z) : has_dot (osa_name s k) = false.
Proof. apply osa_name_valid. Qed.

Lemma osa_name_not_Pooling (s k : Z) : osa_name s k ≠ "Pooling".
Proof. unfold osa_name. discriminate. Qed.

Lemma osa_name_first (s : Z) : "OSA" +:+ pretty s +:+ "_1" = osa_name s 1.
Proof. reflexivity. Qed.

Lemma osa_stage_loop (stage_ch concat_ch lpb s : Z) (n : nat) :
  0 ≤ stage_ch → 0 ≤ concat_ch → 0 ≤ lpb →
  ∀ (j : Z) (acc : OSA_stage),
    (∀ i, j ≤ i → osa_name s (i + 2) ∉ acc.*1) →
    for_in (seqZ j (Z.of_nat n))
      (λ i self,
         let module_name := "OSA" +:+ pretty s +:+ "_" +:+ pretty (i + 2) in
         let? m := _OSA_module concat_ch stage_ch concat_ch lpb module_name true in
         add_module module_name (SC_OSA_module m) self)
      acc
    = Ok (acc ++ ((λ i, (osa_name s (i + 2),
                         SC_OSA_module (osa_module concat_ch stage_ch concat_ch lpb
                                                   (osa_name s (i + 2)) true)))
                    <$> seqZ j (Z.of_nat n))).
Proof.
  intros Hs Hc Hl. induction n as [|n IH]; intros j acc Hfresh.
  - rewrite seqZ_nil by lia. simpl. by rewrite app_nil_r.
  - rewrite seqZ_cons by lia.
    replace (Z.pred (Z.of_nat (S n))) with (Z.of_nat n) by lia.
    cbn [for_in fmap list_fmap].
    change ("OSA" +:+ pretty s +:+ "_" +:+ pretty (j + 2)) with (osa_name s (j + 2)).
    rewrite _OSA_module_ok by auto using osa_name_has_dot. cbn [rbind].
    rewrite add_module_fresh; [|apply osa_name_valid|apply Hfresh; lia].
    cbn [rbind]. rewrite IH.
    + by rewrite <- app_assoc.
    + intros i Hi. rewrite fmap_app. cbn [fmap list_fmap fst].
      rewrite not_elem_of_app. split; [apply Hfresh; lia|].
      rewrite list_elem_of_singleton.
      intros Heq%osa_name_inj. lia.
Qed.

Lemma _OSA_stage_ok (in_ch stage_ch concat_ch bps lpb s : Z) :
  0 ≤ in_ch → 0 ≤ stage_ch → 0 ≤ concat_ch → 0 ≤ lpb →
  _OSA_stage in_ch stage_ch concat_ch bps lpb s
  = Ok (osa_stage in_ch stage_ch concat_ch bps lpb s).
Proof.
  intros Hi Hs Hc Hl. unfold _OSA_stage, osa_stage.
  rewrite osa_name_first.
  rewrite _OSA_module_ok by auto using osa_name_has_dot.
  destruct (decide (s = 2)) as [->|Hne].
  - rewrite bool_decide_eq_true_2 by done. cbn [negb rbind].
    rewrite add_module_fresh; [|apply osa_name_valid|apply not_elem_of_nil].
    cbn [rbind app]. unfold range.
    destruct (decide (bps - 1 ≤ 0)) as [Hle|Hgt].
    + by rewrite !seqZ_nil by done.
    + rewrite <- (Z2Nat.id (bps - 1)) by lia.
      rewrite osa_stage_loop; [done..|].
      intros i Hi'. cbn [fmap list_fmap fst]. rewrite list_elem_of_singleton.
      intros Heq%osa_name_inj. lia.
  - rewrite bool_decide_eq_false_2 by done. cbn [negb rbind].
    rewrite add_module_fresh; [|done|apply not_elem_of_nil].
    cbn [rbind app].
    rewrite add_module_fresh; [|apply osa_name_valid|].
    2:{ cbn [fmap list_fmap fst]. rewrite list_elem_of_singleton.
        apply osa_name_not_Pooling. }
    cbn [rbind app]. unfold range.
    destruct (decide (bps - 1 ≤ 0)) as [Hle|Hgt].
    + by rewrite !seqZ_nil by done.
    + rewrite <- (Z2Nat.id (bps - 1)) by lia.
      rewrite osa_stage_loop; [done..|].
      intros i Hi'. cbn [fmap list_fmap fst].
      rewrite !elem_of_cons, elem_of_nil.
      intros [Heq|[Heq%osa_name_inj|[]]]; [|lia].
      by apply osa_name_not_Pooling in Heq.
Qed.
End stage_constructor.

(** The object graph behind [VoVNet(...)] for four-entry tables. *)
Definition vovnet (config_stage_ch config_concat_ch block_per_stage : list Z)
    (layer_per_block num_classes : Z) : VoVNet_object :=
  let in_ch_list := 128 :: droplast config_concat_ch in
  let stage (i : nat) :=
    C_OSA_stage (osa_stage (in_ch_list !!! i) (config_stage_ch !!! i)
                           (config_concat_ch !!! i) (block_per_stage !!! i)
                           layer_per_block (Z.of_nat i + 2)) in
  mkVoVNet
    [ ("stem", C_Sequential stem_layers);
      ("stage2", stage 0%nat); ("stage3", stage 1%nat);
      ("stage4", stage 2%nat); ("stage5", stage 3%nat);
      ("classifier", C_Linear (mkLinear (config_concat_ch !!! 3%nat) num_classes)) ]
    [ "stage2"; "stage3"; "stage4"; "stage5" ].

Section vovnet_constructor.
Lemma Sequential_of_stem : Sequential_of stem_layers = Ok stem_layers.
Proof. reflexivity. Qed.

Lemma range_4 : range 4 = [0; 1; 2; 3].
Proof. reflexivity. Qed.

Local Ltac fresh_key :=
  cbn [fmap list_fmap fst app]; rewrite ?elem_of_cons, ?elem_of_nil;
  intros Hin; repeat destruct Hin as [Hin|Hin]; try done; discriminate Hin.

Lemma VoVNet_ok (config_stage_ch config_concat_ch block_per_stage : list Z)
    (layer_per_block num_classes : Z) :
  length config_stage_ch = 4%nat → length config_concat_ch = 4%nat →
  length block_per_stage = 4%nat →
  Forall (λ c, 0 ≤ c) config_stage_ch → Forall (λ c, 0 ≤ c) config_concat_ch →
  0 ≤ layer_per_block → 0 ≤ num_classes →
  VoVNet config_stage_ch config_concat_ch block_per_stage layer_per_block num_classes
  = Ok (vovnet config_stage_ch config_concat_ch block_per_stage
               layer_per_block num_classes).
Proof.
  intros Hls Hlc Hlb Hs Hc Hl Hn.
  destruct config_stage_ch as [|s0 [|s1 [|s2 [|s3 [|]]]]]; try done.
  destruct config_concat_ch as [|c0 [|c1 [|c2 [|c3 [|]]]]]; try done.
  destruct block_per_stage as [|b0 [|b1 [|b2 [|b3 [|]]]]]; try done.
  rewrite !Forall_cons in Hs, Hc.
  destruct Hs as (Hs0 & Hs1 & Hs2 & Hs3 & _).
  destruct Hc as (Hc0 & Hc1 & Hc2 & Hc3 & _).
  unfold VoVNet, vovnet.
  rewrite !conv3x3_ok by lia. cbn [rbind].
  change (cna 3 64 3 2 1 "stem" "1" ++ cna 64 64 3 1 1 "stem" "2"
          ++ cna 64 128 3 2 1 "stem" "3") with stem_layers.
  rewrite Sequential_of_stem. cbn [rbind].
  rewrite add_module_fresh; [|done|apply not_elem_of_nil].
  rewrite range_4.
  cbn [rbind app for_in droplast removelast]. unfold getitem.
  simpl (_ !! _). cbn [rbind].
  change ("stage" +:+ pretty (0 + 2)) with "stage2".
  change ("stage" +:+ pretty (1 + 2)) with "stage3".
  change ("stage" +:+ pretty (2 + 2)) with "stage4".
  change ("stage" +:+ pretty (3 + 2)) with "stage5".
  rewrite _OSA_stage_ok by lia. cbn [rbind].
  rewrite add_module_fresh; [|done|fresh_key]. cbn [rbind app].
  rewrite _OSA_stage_ok by lia. cbn [rbind].
  rewrite add_module_fresh; [|done|fresh_key]. cbn [rbind app].
  rewrite _OSA_stage_ok by lia. cbn [rbind].
  rewrite add_module_fresh; [|done|fresh_key]. cbn [rbind app].
  rewrite _OSA_stage_ok by lia. cbn [rbind].
  rewrite add_module_fresh; [|done|fresh_key]. cbn [rbind app].
  unfold getlast. cbn [last rbind]. unfold nn_Linear.
  rewrite decide_False by lia. cbn [rbind].
  rewrite add_module_fresh; [|done|fresh_key]. cbn [rbind app].
  done.
Qed.
End vovnet_constructor.

(** ** States of a network *)

(** A forward pass and [Module.train(mode)] change nothing but the buffers
    and the [training] flag of the [BatchNorm2d] layers.  [as_built_*]
    resets both to their values at construction: two objects with the same
    image are two states of the same network. *)
Definition as_built_layer (l : Layer) : Layer :=
  match l with
  | L_BatchNorm2d b => L_BatchNorm2d (mkBatchNorm2d (num_features b) true [])
  | _ => l
  end.

Definition as_built_seq (s : Sequential) : Sequential :=
  (λ kl, (kl.1, as_built_layer kl.2)) <$> s.

Definition as_built_module (m : OSA_module) : OSA_module :=
  mkOSA_module (identity m) (as_built_seq <$> layers m) (as_built_seq (concat m)).

Definition as_built_stage_child (c : stage_child) : stage_child :=
  match c with
  | SC_MaxPool2d p => SC_MaxPool2d p
  | SC_OSA_module m => SC_OSA_module (as_built_module m)
  end.

Definition as_built_stage (s : OSA_stage) : OSA_stage :=
  (λ kc, (kc.1, as_built_stage_child kc.2)) <$> s.

Definition as_built_child (c : VoVNet_child) : VoVNet_child :=
  match c with
  | C_Sequential s => C_Sequential (as_built_seq s)
  | C_OSA_stage s => C_OSA_stage (as_built_stage s)
  | C_Linear l => C_Linear l
  end.

Definition as_built (net : VoVNet_object) : VoVNet_object :=
  mkVoVNet ((λ kc, (kc.1, as_built_child kc.2)) <$> modules net) (stage_names net).

(** [Module.train(mode)]: the flag is set on every submodule. *)
Definition train_layer (mode : bool) (l : Layer) : Layer :=
  match l with
  | L_BatchNorm2d b => L_BatchNorm2d (mkBatchNorm2d (num_features b) mode (running b))
  | _ => l
  end.

Definition train_seq (mode : bool) (s : Sequential) : Sequential :=
  (λ kl, (kl.1, train_layer mode kl.2)) <$> s.

Definition train_module (mode : bool) (m : OSA_module) : OSA_module :=
  mkOSA_module (identity m) (train_seq mode <$> layers m) (train_seq mode (concat m)).

Definition train_stage (mode : bool) (s : OSA_stage) : OSA_stage :=
  (λ kc, (kc.1, match kc.2 with
                | SC_MaxPool2d p => SC_MaxPool2d p
                | SC_OSA_module m => SC_OSA_module (train_module mode m)
                end)) <$> s.

Definition train (mode : bool) (net : VoVNet_object) : VoVNet_object :=
  mkVoVNet ((λ kc, (kc.1, match kc.2 with
                          | C_Sequential s => C_Sequential (train_seq mode s)
                          | C_OSA_stage s => C_OSA_stage (train_stage mode s)
                          | C_Linear l => C_Linear l
                          end)) <$> modules net)
           (stage_names net).

(** No [BatchNorm2d] layer is in training mode. *)
Definition frozen_layer (l : Layer) : bool :=
  match l with
  | L_BatchNorm2d b => negb (training b)
  | _ => true
  end.

Definition frozen_seq (s : Sequential) : bool := forallb (λ kl, frozen_layer kl.2) s.

Definition frozen_module (m : OSA_module) : bool :=
  forallb frozen_seq (layers m) && frozen_seq (concat m).

Definition frozen_stage (s : OSA_stage) : bool :=
  forallb (λ kc, match kc.2 with
                 | SC_MaxPool2d _ => true
                 | SC_OSA_module m => frozen_module m
                 end) s.

Definition frozen (net : VoVNet_object) : bool :=
  forallb (λ kc, match kc.2 with
                 | C_Sequential s => frozen_seq s
                 | C_OSA_stage s => frozen_stage s
                 | C_Linear _ => true
                 end) (modules net).

(** ** Forward passes under value semantics *)

(** The store of [value_memory] is trivial: a run is its result. *)
Definition run {A : Type} (c : exec unit A) : result A :=
  match c tt with
  | Ok (a, _) => Ok a
  | Raise e => Raise e
  end.

Definition Layer_value (key : string) (l : Layer) (v : tensor) : result (tensor * Layer) :=
  run (Layer_forward (H := value_memory) key l v).
Definition Sequential_value (s : Sequential) (v : tensor) : result (tensor * Sequential) :=
  run (Sequential_forward (H := value_memory) s v).
Definition layers_loop_value (ls : list Sequential) (v : tensor) (output : list tensor)
  : result (tensor * list tensor * list Sequential) :=
  run (layers_loop (H := value_memory) ls v output).
Definition OSA_module_value (m : OSA_module) (v : tensor) : result (tensor * OSA_module) :=
  run (_OSA_module_forward (H := value_memory) m v).
Definition stage_child_value (c : stage_child) (v : tensor) : result (tensor * stage_child) :=
  run (stage_child_forward (H := value_memory) c v).
Definition OSA_stage_value (s : OSA_stage) (v : tensor) : result (tensor * OSA_stage) :=
  run (_OSA_stage_forward (H := value_memory) s v).
Definition call_value (net : VoVNet_object) (name : string) (v : tensor)
  : result (tensor * VoVNet_object) :=
  run (call (H := value_memory) net name v).
Definition VoVNet_value (net : VoVNet_object) (v : tensor)
  : result (list (string * tensor) * VoVNet_object) :=
  run (VoVNet_forward (H := value_memory) net v).

Section run_laws.
Context {A B : Type}.

Lemma run_eret (a : A) : run (eret a) = Ok a.
Proof. done. Qed.

Lemma run_eraise (e : exn) : run (eraise (A := A) e) = Raise e.
Proof. done. Qed.

Lemma run_lift (r : result A) : run (lift r) = r.
Proof. by destruct r. Qed.

Lemma run_ebind (c : exec unit A) (k : A → exec unit B) :
  run (ebind c k) = let? a := run c in run (k a).
Proof.
  unfold run, ebind. destruct (c tt) as [[a []]|e]; simpl; [|done].
  by destruct (k a tt) as [[b []]|e'].
Qed.

Lemma run_exec (c : exec unit A) :
  c tt = match run c with Ok a => Ok (a, tt) | Raise e => Raise e end.
Proof. unfold run. by destruct (c tt) as [[a []]|e]. Qed.
End run_laws.

Ltac run_simpl :=
  repeat (rewrite ?run_ebind, ?run_eret, ?run_lift, ?run_eraise;
          cbn [rbind read new write value_memory ref mem]).

Section value_equations.
Lemma Layer_value_conv key c v :
  Layer_value key (L_Conv2d c) v
  = let? sz := conv2d_size c (size v) in Ok (TConv2d sz key c v, L_Conv2d c).
Proof.
  unfold Layer_value. cbn [Layer_forward]. unfold Conv2d_forward. run_simpl.
  by destruct (conv2d_size c (size v)).
Qed.

Lemma Layer_value_norm key b v :
  Layer_value key (L_BatchNorm2d b) v
  = let? sz := batch_norm_size b (size v) in
    Ok (TBatchNorm sz key (num_features b)
                   (if training b then None else Some (running b)) v,
        L_BatchNorm2d (if training b
                       then mkBatchNorm2d (num_features b) true (running b ++ [v])
                       else b)).
Proof.
  unfold Layer_value. cbn [Layer_forward]. unfold BatchNorm2d_forward. run_simpl.
  by destruct (batch_norm_size b (size v)).
Qed.

Lemma Layer_value_relu key inplace v :
  Layer_value key (L_ReLU inplace) v = Ok (TReLU v, L_ReLU inplace).
Proof. by destruct inplace. Qed.

Lemma Sequential_value_nil v : Sequential_value [] v = Ok (v, []).
Proof. done. Qed.

Lemma Sequential_value_cons key l rest v :
  Sequential_value ((key, l) :: rest) v
  = let? '(y, l') := Layer_value key l v in
    let? '(z, rest') := Sequential_value rest y in
    Ok (z, (key, l') :: rest').
Proof.
  unfold Sequential_value. cbn [Sequential_forward].
  rewrite run_ebind. fold (Layer_value key l v).
  destruct (Layer_value key l v) as [[y l']|e]; [|done].
  cbn [rbind]. rewrite run_ebind. fold (Sequential_value rest y).
  by destruct (Sequential_value rest y) as [[z rest']|e].
Qed.

Lemma read_all_value (xs : list tensor) : run (read_all (H := value_memory) xs) = Ok xs.
Proof.
  induction xs as [|x xs IH]; [done|].
  cbn [read_all]. rewrite run_ebind. cbn [read value_memory].
  rewrite run_eret. cbn [rbind]. rewrite run_ebind, IH. done.
Qed.

Lemma layers_loop_value_nil v output : layers_loop_value [] v output = Ok (v, output, []).
Proof. done. Qed.

Lemma layers_loop_value_cons layer rest v output :
  layers_loop_value (layer :: rest) v output
  = let? '(y, layer') := Sequential_value layer v in
    let? '(z, output', rest') := layers_loop_value rest y (output ++ [y]) in
    Ok (z, output', layer' :: rest').
Proof.
  unfold layers_loop_value. cbn [layers_loop].
  rewrite run_ebind. fold (Sequential_value layer v).
  destruct (Sequential_value layer v) as [[y l']|e]; [|done].
  cbn [rbind]. rewrite run_ebind. unfold layers_loop_value.
  by destruct (run _) as [[[z o] r]|e].
Qed.

Lemma OSA_module_value_eq m v :
  OSA_module_value m v
  = let? '(x, output, layers') := layers_loop_value (layers m) v [v] in
    let? sz := cat_size (size <$> output) in
    let? '(xt, concat') := Sequential_value (concat m) (TCat sz output) in
    let? xt := if identity m
               then let? sz' := add_size (size xt) (size v) in Ok (TAdd sz' xt v)
               else Ok xt in
    Ok (xt, mkOSA_module (identity m) layers' concat').
Proof.
  unfold OSA_module_value, layers_loop_value, Sequential_value.
  unfold _OSA_module_forward. rewrite run_ebind.
  destruct (run _) as [[[x o] ls]|e]; [|done].
  cbn [rbind]. rewrite run_ebind. unfold torch_cat at 1.
  rewrite run_ebind, read_all_value. cbn [rbind].
  rewrite run_ebind, run_lift.
  destruct (cat_size _) as [sz|e]; [|done].
  run_simpl.
  destruct (run _) as [[xt c']|e]; [|done].
  run_simpl.
  destruct (identity m); [|done].
  unfold torch_add. run_simpl.
  by destruct (add_size (size xt) (size v)).
Qed.
End value_equations.

Section value_equations_stage.
Lemma stage_child_value_pool p v :
  stage_child_value (SC_MaxPool2d p) v
  = let? sz := max_pool2d_size p (size v) in Ok (TMaxPool sz p v, SC_MaxPool2d p).
Proof.
  unfold stage_child_value. cbn [stage_child_forward]. unfold MaxPool2d_forward.
  run_simpl. by destruct (max_pool2d_size _ _).
Qed.

Lemma stage_child_value_osa m v :
  stage_child_value (SC_OSA_module m) v
  = let? '(y, m') := OSA_module_value m v in Ok (y, SC_OSA_module m').
Proof.
  unfold stage_child_value, OSA_module_value. cbn [stage_child_forward].
  rewrite run_ebind. by destruct (run _) as [[y m']|e].
Qed.

Lemma OSA_stage_value_nil v : OSA_stage_value [] v = Ok (v, []).
Proof. done. Qed.

Lemma OSA_stage_value_cons name c rest v :
  OSA_stage_value ((name, c) :: rest) v
  = let? '(y, c') := stage_child_value c v in
    let? '(z, rest') := OSA_stage_value rest y in
    Ok (z, (name, c') :: rest').
Proof.
  unfold OSA_stage_value, stage_child_value. cbn [_OSA_stage_forward].
  rewrite run_ebind. destruct (run _) as [[y c']|e]; [|done].
  cbn [rbind]. rewrite run_ebind. by destruct (run _) as [[z rest']|e].
Qed.

Definition child_value (name : string) (c : VoVNet_child) (v : tensor)
  : result (tensor * VoVNet_child) :=
  match c with
  | C_Sequential s => let? '(y, s') := Sequential_value s v in Ok (y, C_Sequential s')
  | C_OSA_stage s => let? '(y, s') := OSA_stage_value s v in Ok (y, C_OSA_stage s')
  | C_Linear l =>
      let? sz := linear_size l (size v) in Ok (TLinear sz name v, C_Linear l)
  end.

Lemma call_value_eq net name v :
  call_value net name v
  = match lookup_key name (modules net) with
    | None => Raise (AttributeError name)
    | Some c =>
        let? '(y, c') := child_value name c v in
        Ok (y, mkVoVNet (setitem name c' (modules net)) (stage_names net))
    end.
Proof.
  unfold call_value, call. destruct (lookup_key name (modules net)) as [c|]; [|done].
  rewrite run_ebind. destruct c as [s|s|l]; cbn [VoVNet_child_forward child_value].
  - unfold Sequential_value. rewrite run_ebind.
    by destruct (run _) as [[y s']|e].
  - unfold OSA_stage_value. rewrite run_ebind.
    by destruct (run _) as [[y s']|e].
  - unfold Linear_forward. run_simpl. by destruct (linear_size _ _).
Qed.

Lemma VoVNet_value_eq net v :
  VoVNet_value net v
  = let? '(x1, net) := call_value net "stem" v in
    let? '(x2, net) := call_value net "stage2" x1 in
    let? '(x3, net) := call_value net "stage3" x2 in
    let? '(x4, net) := call_value net "stage4" x3 in
    let? '(x5, net) := call_value net "stage5" x4 in
    Ok ([("res2", x2); ("res3", x3); ("res4", x4); ("res5", x5)], net).
Proof.
  unfold VoVNet_value, call_value, VoVNet_forward.
  rewrite run_ebind. destruct (run _) as [[x1 n1]|e]; [|done]. cbn [rbind].
  rewrite run_ebind. destruct (run _) as [[x2 n2]|e]; [|done]. cbn [rbind].
  rewrite run_ebind. destruct (run _) as [[x3 n3]|e]; [|done]. cbn [rbind].
  rewrite run_ebind. destruct (run _) as [[x4 n4]|e]; [|done]. cbn [rbind].
  rewrite run_ebind. destruct (run _) as [[x5 n5]|e]; [|done]. cbn [rbind].
  done.
Qed.
End value_equations_stage.

(** ** Sizes *)

Section sizes.
Lemma conv_out_3_1_1 (h : Z) : conv_out h 3 1 1 = h.
Proof. unfold conv_out. rewrite Z.div_1_r. lia. Qed.

Lemma conv_out_1_1_0 (h : Z) : conv_out h 1 1 0 = h.
Proof. unfold conv_out. rewrite Z.div_1_r. lia. Qed.

Lemma conv_out_3_2_1 (h : Z) : conv_out h 3 2 1 = (h + 1) `div` 2.
Proof.
  unfold conv_out. replace (h + 2 * 1 - (3 - 1) - 1) with (h + 1 + (-1) * 2) by lia.
  rewrite Z.div_add by lia. lia.
Qed.

(** A 3x3 stride-2 ceil-mode window count: the rounded-up quotient of
    (h - 3) by 2, plus one, which is h // 2. *)
Lemma pool_out_3_2 (h : Z) : pool_out h 3 2 true = h `div` 2.
Proof.
  unfold pool_out. cbn [andb].
  replace (h - (3 - 1) - 1 + (2 - 1)) with (h + (-1) * 2) by lia.
  rewrite Z.div_add by lia.
  rewrite bool_decide_eq_false_2; [lia|].
  pose proof (Z.mul_div_le h 2). lia.
Qed.

(** The pooling of the stages on a batch with at least one channel. *)
Lemma max_pool2d_size_ok (n ch h w : Z) :
  1 ≤ ch → 1 ≤ h `div` 2 → 1 ≤ w `div` 2 →
  max_pool2d_size (mkMaxPool2d 3 2 true) [n; ch; h; w] = Ok [n; ch; h `div` 2; w `div` 2].
Proof.
  intros Hc Hh Hw. unfold max_pool2d_size, max_pool2d_planes.
  cbn [pool_kernel_size pool_stride ceil_mode]. rewrite !pool_out_3_2.
  by rewrite !decide_False by lia.
Qed.


(** A convolution with at least one filter, positive stride and
    non-negative padding accepts a non-empty batch with the channel count
    of its weight, when the kernel fits. *)
Lemma conv2d_size_ok (i o k s p n h w : Z) :
  1 ≤ i → 1 ≤ o → 1 ≤ s → 0 ≤ p →
  1 ≤ h → 1 ≤ w → k ≤ h + 2 * p → k ≤ w + 2 * p →
  conv2d_size (mkConv2d i o k s p 1) [n; i; h; w]
  = Ok [n; o; conv_out h k s p; conv_out w k s p].
Proof.
  intros Hi Ho Hs Hp Hh Hw Hkh Hkw. unfold conv2d_size, conv2d_batched.
  cbn [in_channels out_channels kernel_size stride padding groups].
  by rewrite !decide_False by lia.
Qed.

(** It refuses every batch with another channel count. *)
Lemma conv2d_size_mismatch (i o k s p n c h w : Z) :
  1 ≤ o → 1 ≤ s → 0 ≤ p → c ≠ i →
  conv2d_size (mkConv2d i o k s p 1) [n; c; h; w]
  = Raise (RuntimeError (InputChannelMismatch i c)).
Proof.
  intros Ho Hs Hp Hc. unfold conv2d_size, conv2d_batched.
  cbn [in_channels out_channels kernel_size stride padding groups].
  rewrite !decide_False by lia. by rewrite decide_True by done.
Qed.

(** When a convolution returns, its input was a batch or a single image
    with the channel count of its weight. *)
Lemma conv2d_size_inv (c : Conv2d) (sz r : shape) :
  conv2d_size c sz = Ok r →
  (∃ n h w, sz = [n; in_channels c; h; w] ∧
            r = [n; out_channels c;
                 conv_out h (kernel_size c) (stride c) (padding c);
                 conv_out w (kernel_size c) (stride c) (padding c)])
  ∨ (∃ h w, sz = [in_channels c; h; w] ∧
            r = [out_channels c;
                 conv_out h (kernel_size c) (stride c) (padding c);
                 conv_out w (kernel_size c) (stride c) (padding c)]).
Proof.
  assert (∀ n ch h w r', conv2d_batched c n ch h w = Ok r' →
            ch = in_channels c ∧
            r' = [n; out_channels c;
                  conv_out h (kernel_size c) (stride c) (padding c);
                  conv_out w (kernel_size c) (stride c) (padding c)]) as Hb.
  { intros n ch h w r'. unfold conv2d_batched.
    repeat (case_decide; [done|]). intros [= <-]. split; [|done].
    by destruct (decide (ch = in_channels c)). }
  unfold conv2d_size.
  destruct sz as [|a [|b [|d [|e [|]]]]]; try done.
  - destruct (conv2d_batched c 1 a b d) as [r'|] eqn:E; [|done]. cbn [rbind].
    intros [= <-]. apply Hb in E as [-> ->]. right. by exists b, d.
  - intros [-> ->]%Hb. left. by exists a, d, e.
Qed.

Lemma add_size_same (sz : shape) : add_size sz sz = Ok sz.
Proof.
  unfold add_size.
  assert (∀ l : list Z, broadcast_rev l l = Some l) as ->.
  { induction l as [|x l IH]; [done|]. simpl.
    rewrite decide_True by done. by rewrite IH. }
  by rewrite rev_involutive.
Qed.


Lemma cat_channels_units (n s h w : Z) (szs : list shape) : ∀ c,
  Forall (λ sz, sz = [n; s; h; w]) szs →
  cat_channels n [h; w] c szs = Ok (c + Z.of_nat (length szs) * s).
Proof.
  induction szs as [|sz szs IH]; intros c Hall.
  - cbn. f_equal. lia.
  - apply Forall_cons in Hall as [-> Hall]. cbn [cat_channels length].
    rewrite decide_False by (intros Hne; by apply Hne).
    rewrite decide_True by done. rewrite IH by done. f_equal. lia.
Qed.

Lemma cat_kept (szs : list shape) :
  Forall (λ sz, sz ≠ [0]) szs → filter (λ s, s ≠ [0]) szs = szs.
Proof.
  induction 1 as [|sz szs Hsz _ IH]; [done|].
  rewrite filter_cons_True by done. f_equal. exact IH.
Qed.

Lemma cat_size_input_units (n c s h w : Z) (szs : list shape) :
  Forall (λ sz, sz = [n; s; h; w]) szs →
  cat_size ([n; c; h; w] :: szs) = Ok [n; c + Z.of_nat (length szs) * s; h; w].
Proof.
  intros Hall. unfold cat_size.
  rewrite decide_False by done.
  rewrite decide_False.
  2:{ intros [?|Hin]%elem_of_cons; [done|].
      rewrite Forall_forall in Hall. by specialize (Hall _ Hin). }
  rewrite cat_kept.
  2:{ constructor; [done|]. eapply Forall_impl; [exact Hall|]. by intros ? ->. }
  by rewrite (cat_channels_units n s h w) by done.
Qed.

Lemma cat_size_single (n c h w : Z) : cat_size [[n; c; h; w]] = Ok [n; c; h; w].
Proof.
  rewrite (cat_size_input_units n c 0 h w) by constructor.
  do 3 f_equal. cbn. lia.
Qed.
End sizes.

(** ** A forward pass changes buffers only *)

Section state_preservation.
Lemma Layer_value_state key l v y l' :
  Layer_value key l v = Ok (y, l') →
  as_built_layer l' = as_built_layer l ∧ frozen_layer l' = frozen_layer l.
Proof.
  destruct l as [c|b|ip].
  - rewrite Layer_value_conv. destruct (conv2d_size _ _); [|done].
    by intros [= <- <-].
  - rewrite Layer_value_norm. destruct (batch_norm_size _ _); [|done].
    intros [= <- <-]. by destruct b as [nf [] r].
  - rewrite Layer_value_relu. by intros [= <- <-].
Qed.

Lemma Sequential_value_state s : ∀ v y s',
  Sequential_value s v = Ok (y, s') →
  as_built_seq s' = as_built_seq s ∧ frozen_seq s' = frozen_seq s.
Proof.
  induction s as [|[key l] s IH]; intros v y s'.
  - rewrite Sequential_value_nil. by intros [= <- <-].
  - rewrite Sequential_value_cons.
    destruct (Layer_value key l v) as [[y1 l1]|e] eqn:E1; [|done]. cbn [rbind].
    destruct (Sequential_value s y1) as [[y2 s2]|e] eqn:E2; [|done]. cbn [rbind].
    intros [= <- <-].
    apply Layer_value_state in E1 as [Ha Hf].
    apply IH in E2 as [Ha' Hf'].
    unfold as_built_seq, frozen_seq in *. cbn [fmap list_fmap forallb fst snd].
    by rewrite Ha, Hf, Ha', Hf'.
Qed.

Lemma layers_loop_value_state ls : ∀ v out y out' ls',
  layers_loop_value ls v out = Ok (y, out', ls') →
  as_built_seq <$> ls' = as_built_seq <$> ls ∧
  forallb frozen_seq ls' = forallb frozen_seq ls.
Proof.
  induction ls as [|l ls IH]; intros v out y out' ls'.
  - rewrite layers_loop_value_nil. by intros [= <- <- <-].
  - rewrite layers_loop_value_cons.
    destruct (Sequential_value l v) as [[y1 l1]|e] eqn:E1; [|done]. cbn [rbind].
    destruct (layers_loop_value ls y1 (out ++ [y1])) as [[[y2 o2] ls2]|e] eqn:E2;
      [|done]. cbn [rbind].
    intros [= <- <- <-].
    apply Sequential_value_state in E1 as [Ha Hf].
    apply IH in E2 as [Ha' Hf'].
    cbn [fmap list_fmap forallb]. by rewrite Ha, Hf, Ha', Hf'.
Qed.

Lemma OSA_module_value_state m v y m' :
  OSA_module_value m v = Ok (y, m') →
  as_built_module m' = as_built_module m ∧ frozen_module m' = frozen_module m.
Proof.
  rewrite OSA_module_value_eq.
  destruct (layers_loop_value _ _ _) as [[[x o] ls]|e] eqn:E1; [|done]. cbn [rbind].
  destruct (cat_size _) as [sz|e]; [|done]. cbn [rbind].
  destruct (Sequential_value _ _) as [[xt c']|e] eqn:E2; [|done]. cbn [rbind].
  apply layers_loop_value_state in E1 as [Ha Hf].
  apply Sequential_value_state in E2 as [Ha' Hf'].
  intros Hy.
  assert (m' = mkOSA_module (identity m) ls c') as ->.
  { destruct (identity m); [|by injection Hy].
    destruct (add_size _ _); [|done]. by injection Hy. }
  unfold as_built_module, frozen_module. cbn [identity layers concat].
  by rewrite Ha, Hf, Ha', Hf'.
Qed.

Lemma stage_child_value_state c v y c' :
  stage_child_value c v = Ok (y, c') →
  as_built_stage_child c' = as_built_stage_child c ∧
  match c' with SC_MaxPool2d _ => true | SC_OSA_module m => frozen_module m end
  = match c with SC_MaxPool2d _ => true | SC_OSA_module m => frozen_module m end.
Proof.
  destruct c as [p|m].
  - rewrite stage_child_value_pool. destruct (max_pool2d_size _ _); [|done].
    by intros [= <- <-].
  - rewrite stage_child_value_osa.
    destruct (OSA_module_value m v) as [[y1 m1]|e] eqn:E1; [|done].
    intros [= <- <-]. apply OSA_module_value_state in E1 as [Ha Hf].
    cbn [as_built_stage_child]. by rewrite Ha, Hf.
Qed.

Lemma OSA_stage_value_state s : ∀ v y s',
  OSA_stage_value s v = Ok (y, s') →
  as_built_stage s' = as_built_stage s ∧ frozen_stage s' = frozen_stage s.
Proof.
  induction s as [|[name c] s IH]; intros v y s'.
  - rewrite OSA_stage_value_nil. by intros [= <- <-].
  - rewrite OSA_stage_value_cons.
    destruct (stage_child_value c v) as [[y1 c1]|e] eqn:E1; [|done]. cbn [rbind].
    destruct (OSA_stage_value s y1) as [[y2 s2]|e] eqn:E2; [|done]. cbn [rbind].
    intros [= <- <-].
    apply stage_child_value_state in E1 as [Ha Hf].
    apply IH in E2 as [Ha' Hf'].
    unfold as_built_stage, frozen_stage in *. cbn [fmap list_fmap forallb fst snd].
    by rewrite Ha, Hf, Ha', Hf'.
Qed.

Lemma child_value_state name c v y c' :
  child_value name c v = Ok (y, c') →
  as_built_child c' = as_built_child c ∧
  match c' with
  | C_Sequential s => frozen_seq s | C_OSA_stage s => frozen_stage s | C_Linear _ => true
  end
  = match c with
    | C_Sequential s => frozen_seq s | C_OSA_stage s => frozen_stage s | C_Linear _ => true
    end.
Proof.
  destruct c as [s|s|l]; cbn [child_value].
  - destruct (Sequential_value s v) as [[y1 s1]|e] eqn:E1; [|done].
    intros [= <- <-]. apply Sequential_value_state in E1 as [Ha Hf].
    cbn [as_built_child]. by rewrite Ha, Hf.
  - destruct (OSA_stage_value s v) as [[y1 s1]|e] eqn:E1; [|done].
    intros [= <- <-]. apply OSA_stage_value_state in E1 as [Ha Hf].
    cbn [as_built_child]. by rewrite Ha, Hf.
  - destruct (linear_size _ _); [|done]. by intros [= <- <-].
Qed.

Lemma setitem_same_image {A B : Type} (f : A → B) (g : A → bool)
    (k : string) (c c' : A) (d : list (string * A)) :
  lookup_key k d = Some c → f c' = f c → g c' = g c →
  (λ kc, (kc.1, f kc.2)) <$> setitem k c' d = (λ kc, (kc.1, f kc.2)) <$> d ∧
  forallb (λ kc, g kc.2) (setitem k c' d) = forallb (λ kc, g kc.2) d.
Proof.
  intros Hk Hf Hg. induction d as [|[k0 c0] d IH]; [done|].
  cbn [lookup_key setitem] in *. destruct (decide (k0 = k)) as [->|Hne].
  - injection Hk as ->. cbn [fmap list_fmap forallb fst snd]. by rewrite Hf, Hg.
  - destruct (IH Hk) as [IH1 IH2].
    cbn [fmap list_fmap forallb fst snd]. by rewrite IH1, IH2.
Qed.

Lemma call_value_state net name v y net' :
  call_value net name v = Ok (y, net') →
  as_built net' = as_built net ∧ frozen net' = frozen net.
Proof.
  rewrite call_value_eq.
  destruct (lookup_key name (modules net)) as [c|] eqn:Hk; [|done].
  destruct (child_value name c v) as [[y1 c1]|e] eqn:E1; [|done].
  intros [= <- <-]. apply child_value_state in E1 as [Ha Hf].
  unfold as_built, frozen. cbn [modules stage_names].
  destruct (setitem_same_image as_built_child
    (λ c, match c with
          | C_Sequential s => frozen_seq s
          | C_OSA_stage s => frozen_stage s
          | C_Linear _ => true
          end) name c c1 (modules net) Hk Ha Hf) as [-> ->].
  done.
Qed.

Lemma VoVNet_value_state net v outs net' :
  VoVNet_value net v = Ok (outs, net') →
  as_built net' = as_built net ∧ frozen net' = frozen net.
Proof.
  rewrite VoVNet_value_eq.
  destruct (call_value net "stem" v) as [[x1 n1]|e] eqn:E1; [|done]. cbn [rbind].
  destruct (call_value n1 "stage2" x1) as [[x2 n2]|e] eqn:E2; [|done]. cbn [rbind].
  destruct (call_value n2 "stage3" x2) as [[x3 n3]|e] eqn:E3; [|done]. cbn [rbind].
  destruct (call_value n3 "stage4" x3) as [[x4 n4]|e] eqn:E4; [|done]. cbn [rbind].
  destruct (call_value n4 "stage5" x4) as [[x5 n5]|e] eqn:E5; [|done]. cbn [rbind].
  intros [= <- <-].
  apply call_value_state in E1 as [A1 F1], E2 as [A2 F2], E3 as [A3 F3],
    E4 as [A4 F4], E5 as [A5 F5].
  split; congruence.
Qed.
End state_preservation.

(** ** Running a pass again on the object it left behind *)

Section again.
Lemma Layer_value_again key l v y l' :
  Layer_value key l v = Ok (y, l') → ∃ l'', Layer_value key l' v = Ok (y, l'').
Proof.
  destruct l as [c|b|ip].
  - rewrite Layer_value_conv. destruct (conv2d_size c (size v)) as [sz|] eqn:E; [|done].
    intros [= <- <-]. rewrite Layer_value_conv, E. eauto.
  - rewrite Layer_value_norm.
    destruct (batch_norm_size b (size v)) as [sz|] eqn:E; [|done].
    intros [= <- <-]. rewrite Layer_value_norm.
    destruct b as [nf [] r]; cbn [training num_features running] in *.
    + unfold batch_norm_size in *. cbn [training num_features] in *.
      rewrite E. cbn [rbind]. eauto.
    + rewrite E. cbn [rbind]. eauto.
  - rewrite Layer_value_relu. intros [= <- <-]. rewrite Layer_value_relu. eauto.
Qed.

Lemma Sequential_value_again s : ∀ v y s',
  Sequential_value s v = Ok (y, s') → ∃ s'', Sequential_value s' v = Ok (y, s'').
Proof.
  induction s as [|[key l] s IH]; intros v y s'.
  - rewrite Sequential_value_nil. intros [= <- <-]. eauto.
  - rewrite Sequential_value_cons.
    destruct (Layer_value key l v) as [[y1 l1]|e] eqn:E1; [|done]. cbn [rbind].
    destruct (Sequential_value s y1) as [[y2 s2]|e] eqn:E2; [|done]. cbn [rbind].
    intros [= <- <-].
    apply Layer_value_again in E1 as [l2 E1]. apply IH in E2 as [s3 E2].
    rewrite Sequential_value_cons, E1. cbn [rbind]. rewrite E2. cbn [rbind]. eauto.
Qed.

Lemma layers_loop_value_again ls : ∀ v out y out' ls',
  layers_loop_value ls v out = Ok (y, out', ls') →
  ∃ ls'', layers_loop_value ls' v out = Ok (y, out', ls'').
Proof.
  induction ls as [|l ls IH]; intros v out y out' ls'.
  - rewrite layers_loop_value_nil. intros [= <- <- <-]. eauto.
  - rewrite layers_loop_value_cons.
    destruct (Sequential_value l v) as [[y1 l1]|e] eqn:E1; [|done]. cbn [rbind].
    destruct (layers_loop_value ls y1 (out ++ [y1])) as [[[y2 o2] ls2]|e] eqn:E2;
      [|done]. cbn [rbind].
    intros [= <- <- <-].
    apply Sequential_value_again in E1 as [l2 E1]. apply IH in E2 as [ls3 E2].
    rewrite layers_loop_value_cons, E1. cbn [rbind]. rewrite E2. cbn [rbind]. eauto.
Qed.

Lemma OSA_module_value_again m v y m' :
  OSA_module_value m v = Ok (y, m') → ∃ m'', OSA_module_value m' v = Ok (y, m'').
Proof.
  rewrite OSA_module_value_eq.
  destruct (layers_loop_value _ _ _) as [[[x o] ls]|e] eqn:E1; [|done]. cbn [rbind].
  destruct (cat_size _) as [sz|e] eqn:E2; [|done]. cbn [rbind].
  destruct (Sequential_value _ _) as [[xt c']|e] eqn:E3; [|done]. cbn [rbind].
  apply layers_loop_value_again in E1 as [ls2 E1].
  apply Sequential_value_again in E3 as [c2 E3].
  intros Hy.
  assert (m' = mkOSA_module (identity m) ls c') as ->.
  { destruct (identity m); [|by injection Hy].
    destruct (add_size _ _); [|done]. by injection Hy. }
  rewrite OSA_module_value_eq. cbn [identity layers concat].
  rewrite E1. cbn [rbind]. rewrite E2. cbn [rbind]. rewrite E3. cbn [rbind].
  destruct (identity m).
  - destruct (add_size _ _); [|done]. injection Hy as <-. cbn [rbind]. eauto.
  - injection Hy as <-. eauto.
Qed.

Lemma stage_child_value_again c v y c' :
  stage_child_value c v = Ok (y, c') → ∃ c'', stage_child_value c' v = Ok (y, c'').
Proof.
  destruct c as [p|m].
  - rewrite stage_child_value_pool.
    destruct (max_pool2d_size _ _) as [sz|] eqn:E; [|done].
    intros [= <- <-]. rewrite stage_child_value_pool, E. eauto.
  - rewrite stage_child_value_osa.
    destruct (OSA_module_value m v) as [[y1 m1]|e] eqn:E1; [|done].
    intros [= <- <-]. apply OSA_module_value_again in E1 as [m2 E1].
    rewrite stage_child_value_osa, E1. eauto.
Qed.

Lemma OSA_stage_value_again s : ∀ v y s',
  OSA_stage_value s v = Ok (y, s') → ∃ s'', OSA_stage_value s' v = Ok (y, s'').
Proof.
  induction s as [|[name c] s IH]; intros v y s'.
  - rewrite OSA_stage_value_nil. intros [= <- <-]. eauto.
  - rewrite OSA_stage_value_cons.
    destruct (stage_child_value c v) as [[y1 c1]|e] eqn:E1; [|done]. cbn [rbind].
    destruct (OSA_stage_value s y1) as [[y2 s2]|e] eqn:E2; [|done]. cbn [rbind].
    intros [= <- <-].
    apply stage_child_value_again in E1 as [c2 E1]. apply IH in E2 as [s3 E2].
    rewrite OSA_stage_value_cons, E1. cbn [rbind]. rewrite E2. cbn [rbind]. eauto.
Qed.

Lemma child_value_again name c v y c' :
  child_value name c v = Ok (y, c') → ∃ c'', child_value name c' v = Ok (y, c'').
Proof.
  destruct c as [s|s|l]; cbn [child_value].
  - destruct (Sequential_value s v) as [[y1 s1]|e] eqn:E1; [|done].
    intros [= <- <-]. apply Sequential_value_again in E1 as [s2 E1].
    cbn [child_value]. rewrite E1. eauto.
  - destruct (OSA_stage_value s v) as [[y1 s1]|e] eqn:E1; [|done].
    intros [= <- <-]. apply OSA_stage_value_again in E1 as [s2 E1].
    cbn [child_value]. rewrite E1. eauto.
  - destruct (linear_size _ _) as [sz|] eqn:E; [|done].
    intros [= <- <-]. cbn [child_value]. rewrite E. eauto.
Qed.

(** What a call does to the child table. *)
Lemma call_value_inv net name v y net' :
  call_value net name v = Ok (y, net') →
  ∃ c c', lookup_key name (modules net) = Some c ∧
          child_value name c v = Ok (y, c') ∧
          lookup_key name (modules net') = Some c' ∧
          (∀ k, k ≠ name → lookup_key k (modules net') = lookup_key k (modules net)).
Proof.
  rewrite call_value_eq.
  destruct (lookup_key name (modules net)) as [c|] eqn:Hk; [|done].
  destruct (child_value name c v) as [[y1 c1]|e] eqn:E1; [|done].
  intros [= <- <-]. exists c, c1. cbn [modules]. split_and!; [done..| |].
  - apply lookup_key_setitem_eq.
  - intros k Hne. by apply lookup_key_setitem_ne.
Qed.

Lemma call_value_intro net name v c y c' :
  lookup_key name (modules net) = Some c → child_value name c v = Ok (y, c') →
  call_value net name v
  = Ok (y, mkVoVNet (setitem name c' (modules net)) (stage_names net)).
Proof. intros Hk Hc. by rewrite call_value_eq, Hk, Hc. Qed.

Lemma VoVNet_value_again net v outs net' :
  VoVNet_value net v = Ok (outs, net') → ∃ net'', VoVNet_value net' v = Ok (outs, net'').
Proof.
  rewrite VoVNet_value_eq.
  destruct (call_value net "stem" v) as [[x1 n1]|e] eqn:E1; [|done]. cbn [rbind].
  destruct (call_value n1 "stage2" x1) as [[x2 n2]|e] eqn:E2; [|done]. cbn [rbind].
  destruct (call_value n2 "stage3" x2) as [[x3 n3]|e] eqn:E3; [|done]. cbn [rbind].
  destruct (call_value n3 "stage4" x3) as [[x4 n4]|e] eqn:E4; [|done]. cbn [rbind].
  destruct (call_value n4 "stage5" x4) as [[x5 n5]|e] eqn:E5; [|done]. cbn [rbind].
  intros [= <- <-].
  apply call_value_inv in E1 as (c1 & c1' & _ & A1 & K1 & _).
  apply call_value_inv in E2 as (c2 & c2' & _ & A2 & K2 & F2).
  apply call_value_inv in E3 as (c3 & c3' & _ & A3 & K3 & F3).
  apply call_value_inv in E4 as (c4 & c4' & _ & A4 & K4 & F4).
  apply call_value_inv in E5 as (c5 & c5' & _ & A5 & K5 & F5).
  apply child_value_again in A1 as [d1 A1], A2 as [d2 A2], A3 as [d3 A3],
    A4 as [d4 A4], A5 as [d5 A5].
  rewrite VoVNet_value_eq.
  erewrite (call_value_intro n5 "stem"); [|by rewrite F5, F4, F3, F2|done].
  cbn [rbind].
  erewrite (call_value_intro _ "stage2"); [| |done]; cbn [modules].
  2:{ rewrite lookup_key_setitem_ne by done. by rewrite F5, F4, F3. }
  cbn [rbind].
  erewrite (call_value_intro _ "stage3"); [| |done]; cbn [modules].
  2:{ rewrite !lookup_key_setitem_ne by done. by rewrite F5, F4. }
  cbn [rbind].
  erewrite (call_value_intro _ "stage4"); [| |done]; cbn [modules].
  2:{ rewrite !lookup_key_setitem_ne by done. by rewrite F5. }
  cbn [rbind].
  erewrite (call_value_intro _ "stage5"); [| |done]; cbn [modules].
  2:{ by rewrite !lookup_key_setitem_ne by done. }
  cbn [rbind]. eauto.
Qed.
End again.

(** ** Reference semantics against value semantics *)

(** Whether [nn.ReLU(inplace=True)] may overwrite its input: only a tensor
    created earlier in the same container ([owned]) is safe to overwrite. *)
Fixpoint inplace_safe (owned : bool) (s : Sequential) : bool :=
  match s with
  | [] => true
  | (_, L_ReLU true) :: rest => owned && inplace_safe owned rest
  | _ :: rest => inplace_safe true rest
  end.

Definition safe_module (m : OSA_module) : bool :=
  forallb (inplace_safe false) (layers m) && inplace_safe false (concat m).

Definition safe_stage (s : OSA_stage) : bool :=
  forallb (λ kc, match kc.2 with
                 | SC_MaxPool2d _ => true
                 | SC_OSA_module m => safe_module m
                 end) s.

Definition safe_child (c : VoVNet_child) : bool :=
  match c with
  | C_Sequential s => inplace_safe false s
  | C_OSA_stage s => safe_stage s
  | C_Linear _ => true
  end.

Definition safe_net (net : VoVNet_object) : bool :=
  forallb (λ kc, safe_child kc.2) (modules net).

(** [refines R h0 ch cv]: the run [ch] over the heap ends like the run [cv]
    under value semantics: with the same exception, or with results related
    by [R] in a heap that extends [h0]. *)
Definition refines {A B : Type} (R : heap → A → B → Prop) (h0 : heap)
    (ch : result (A * heap)) (cv : result (B * unit)) : Prop :=
  match cv with
  | Ok (b, _) => ∃ a ext, ch = Ok (a, h0 ++ ext) ∧ R (h0 ++ ext) a b
  | Raise e => ch = Raise e
  end.

(** A reference and the tensor it stands for. *)
Definition points_to (h : heap) (l : nat) (v : tensor) : Prop := h !! l = Some v.

(** The same, with a module next to it. *)
Definition same_tensor {X : Type} (h : heap) (a : nat * X) (b : tensor * X) : Prop :=
  h !! a.1 = Some b.1 ∧ a.2 = b.2.

Section refinement.
Lemma refines_weaken {A B : Type} (R : heap → A → B → Prop) h0 ext ch cv :
  refines R (h0 ++ ext) ch cv → refines R h0 ch cv.
Proof.
  unfold refines. destruct cv as [[b []]|e]; [|done].
  intros (a & ext' & -> & HR). exists a, (ext ++ ext').
  by rewrite app_assoc.
Qed.

Lemma refines_bind {A B A' B' : Type}
    (R : heap → A → B → Prop) (R' : heap → A' → B' → Prop) h0
    (c : exec heap A) (k : A → exec heap A') (cv : exec unit B) (kv : B → exec unit B') :
  refines R h0 (c h0) (cv tt) →
  (∀ a b ext, cv tt = Ok (b, tt) → R (h0 ++ ext) a b →
              refines R' (h0 ++ ext) (k a (h0 ++ ext)) (kv b tt)) →
  refines R' h0 (ebind c k h0) (ebind cv kv tt).
Proof.
  unfold ebind. intros Hc Hk. unfold refines in Hc.
  destruct (cv tt) as [[b []]|e].
  - destruct Hc as (a & ext & -> & HR).
    apply (refines_weaken _ _ ext). by apply Hk.
  - by rewrite Hc.
Qed.

Lemma refines_eret {A B : Type} (R : heap → A → B → Prop) h0 a b :
  R h0 a b → refines R h0 (eret a h0) (eret b tt).
Proof. intros HR. exists a, []. by rewrite app_nil_r. Qed.

Lemma refines_lift {A : Type} h0 (r : result A) :
  refines (λ _ a b, a = b) h0 (lift r h0) (lift r tt).
Proof.
  destruct r as [a|e]; [|done]. exists a, []. by rewrite app_nil_r.
Qed.

Lemma refines_read (h0 : heap) (l : nat) (v : tensor) :
  h0 !! l = Some v →
  refines (λ _ (a b : tensor), a = v ∧ b = v) h0
          (read (Memory := heap_memory) l h0) (read (Memory := value_memory) v tt).
Proof.
  intros Hl. exists v, []. cbn [read heap_memory]. unfold heap_read. rewrite Hl.
  by rewrite app_nil_r.
Qed.

Lemma refines_new h0 t :
  refines points_to h0
          (new (Memory := heap_memory) t h0) (new (Memory := value_memory) t tt).
Proof.
  exists (length h0), [t]. split; [done|].
  change ((h0 ++ [t]) !! length h0 = Some t).
  by rewrite lookup_app_r, Nat.sub_diag by lia.
Qed.

Lemma points_to_extend (h ext : heap) l (v : tensor) :
  h !! l = Some v → (h ++ ext) !! l = Some v.
Proof. apply lookup_app_l_Some. Qed.

(** The three operations of the heap. *)
Lemma heap_read_eq (h : heap) (l : nat) (v : tensor) :
  h !! l = Some v → read (Memory := heap_memory) l h = Ok (v, h).
Proof. intros Hl. change (heap_read l h = Ok (v, h)). unfold heap_read. by rewrite Hl. Qed.

Lemma heap_new_eq (h : heap) (t : tensor) :
  new (Memory := heap_memory) t h = Ok (length h, h ++ [t]).
Proof. done. Qed.

Lemma heap_write_eq (h : heap) (l : nat) (v t : tensor) :
  h !! l = Some v → write (Memory := heap_memory) l t h = Ok (l, <[l := t]> h).
Proof.
  intros Hl. change (heap_write l t h = Ok (l, <[l := t]> h)).
  unfold heap_write. by rewrite Hl.
Qed.

(** One layer on the heap.  A convolution and a normalisation create
    their result; the in-place activation overwrites its input. *)
Lemma heap_Layer_conv (h : heap) (l : nat) (v : tensor) key c :
  h !! l = Some v →
  Layer_forward (H := heap_memory) key (L_Conv2d c) l h
  = match conv2d_size c (size v) with
    | Ok sz => Ok ((length h, L_Conv2d c), h ++ [TConv2d sz key c v])
    | Raise e => Raise e
    end.
Proof.
  intros Hl. cbn [Layer_forward]. unfold Conv2d_forward, ebind, lift, eret.
  rewrite (heap_read_eq h l v Hl). by destruct (conv2d_size c (size v)).
Qed.

Lemma heap_Layer_norm (h : heap) (l : nat) (v : tensor) key b :
  h !! l = Some v →
  Layer_forward (H := heap_memory) key (L_BatchNorm2d b) l h
  = match batch_norm_size b (size v) with
    | Ok sz =>
        Ok ((length h,
             L_BatchNorm2d (if training b
                            then mkBatchNorm2d (num_features b) true (running b ++ [v])
                            else b)),
            h ++ [TBatchNorm sz key (num_features b)
                             (if training b then None else Some (running b)) v])
    | Raise e => Raise e
    end.
Proof.
  intros Hl. cbn [Layer_forward]. unfold BatchNorm2d_forward, ebind, lift, eret.
  rewrite (heap_read_eq h l v Hl). by destruct (batch_norm_size b (size v)).
Qed.

Lemma heap_Layer_relu (h : heap) (l : nat) (v : tensor) key (inplace : bool) :
  h !! l = Some v →
  Layer_forward (H := heap_memory) key (L_ReLU inplace) l h
  = if inplace then Ok ((l, L_ReLU true), <[l := TReLU v]> h)
    else Ok ((length h, L_ReLU false), h ++ [TReLU v]).
Proof.
  intros Hl. cbn [Layer_forward]. unfold ReLU_forward, ebind, eret.
  rewrite (heap_read_eq h l v Hl). destruct inplace.
  - by rewrite (heap_write_eq h l v).
  - done.
Qed.

Lemma value_Layer (key : string) (layer : Layer) (v : tensor) :
  Layer_forward (H := value_memory) key layer v tt
  = match Layer_value key layer v with
    | Ok a => Ok (a, tt)
    | Raise e => Raise e
    end.
Proof. apply run_exec. Qed.

Lemma heap_Sequential_cons (h : heap) (l : nat) key layer s :
  Sequential_forward (H := heap_memory) ((key, layer) :: s) l h
  = match Layer_forward (H := heap_memory) key layer l h with
    | Ok ((y, layer'), h') =>
        match Sequential_forward (H := heap_memory) s y h' with
        | Ok ((z, s'), h'') => Ok ((z, (key, layer') :: s'), h'')
        | Raise e => Raise e
        end
    | Raise e => Raise e
    end.
Proof.
  cbn [Sequential_forward]. unfold ebind, eret.
  destruct (Layer_forward (H := heap_memory) key layer l h) as [[[y layer'] h']|e];
    [|done].
  by destruct (Sequential_forward (H := heap_memory) s y h') as [[[z s'] h'']|e].
Qed.

Lemma value_Sequential_cons (v : tensor) key layer s :
  Sequential_forward (H := value_memory) ((key, layer) :: s) v tt
  = match Layer_value key layer v with
    | Ok (y, layer') =>
        match Sequential_forward (H := value_memory) s y tt with
        | Ok ((z, s'), _) => Ok ((z, (key, layer') :: s'), tt)
        | Raise e => Raise e
        end
    | Raise e => Raise e
    end.
Proof.
  cbn [Sequential_forward]. unfold ebind at 1. rewrite value_Layer.
  destruct (Layer_value key layer v) as [[y layer']|e]; [|done].
  unfold ebind, eret.
  by destruct (Sequential_forward (H := value_memory) s y tt) as [[[z s'] []]|e].
Qed.

(** A container is safe when every in-place activation overwrites a
    tensor that the container itself created. *)
Lemma Sequential_refines s : ∀ owned (h0 ext : heap) (l : nat) (v : tensor),
  inplace_safe owned s = true →
  (h0 ++ ext) !! l = Some v →
  (owned = true → (length h0 ≤ l)%nat) →
  refines same_tensor h0
          (Sequential_forward (H := heap_memory) s l (h0 ++ ext))
          (Sequential_forward (H := value_memory) s v tt).
Proof.
  induction s as [|[key layer] s IH]; intros owned h0 ext l v Hsafe Hl Hown.
  - exists (l, []), ext. by split.
  - rewrite heap_Sequential_cons, value_Sequential_cons.
    assert (∀ (t : tensor) (layer' : Layer), inplace_safe true s = true →
      refines same_tensor h0
        match Sequential_forward (H := heap_memory) s (length (h0 ++ ext))
                                 ((h0 ++ ext) ++ [t]) with
        | Ok ((z, s'), h'') => Ok ((z, (key, layer') :: s'), h'')
        | Raise e => Raise e
        end
        match Sequential_forward (H := value_memory) s t tt with
        | Ok ((z, s'), _) => Ok ((z, (key, layer') :: s'), tt)
        | Raise e => Raise e
        end) as Hfresh.
    { intros t layer' Hs.
      specialize (IH true h0 (ext ++ [t]) (length (h0 ++ ext)) t Hs).
      rewrite app_assoc in IH.
      rewrite lookup_app_r, Nat.sub_diag in IH by lia.
      specialize (IH eq_refl). rewrite length_app in IH.
      specialize (IH ltac:(lia)). rewrite <- length_app in IH.
      unfold refines in *.
      destruct (Sequential_forward (H := value_memory) s t tt) as [[[z s'] []]|e].
      - destruct IH as ([l' s''] & ext' & -> & Hz & Hs'). cbn in Hz, Hs'. subst s''.
        exists (l', (key, layer') :: s'), ext'. by split.
      - by rewrite IH. }
    destruct layer as [c|b|[]]; cbn [inplace_safe] in Hsafe.
    + rewrite (heap_Layer_conv _ _ v) by done. rewrite Layer_value_conv.
      destruct (conv2d_size c (size v)) as [sz|e]; [|done]. cbn [rbind].
      by apply Hfresh.
    + rewrite (heap_Layer_norm _ _ v) by done. rewrite Layer_value_norm.
      destruct (batch_norm_size b (size v)) as [sz|e]; [|done]. cbn [rbind].
      by apply Hfresh.
    + apply andb_prop in Hsafe as [-> Hsafe]. specialize (Hown eq_refl).
      rewrite (heap_Layer_relu _ _ v) by done. rewrite Layer_value_relu.
      cbn [ref mem heap_memory]. unfold heap in *.
      rewrite insert_app_r_alt by done.
      specialize (IH true h0 (<[(l - length h0)%nat := TReLU v]> ext) l
                     (TReLU v) Hsafe).
      rewrite <- insert_app_r_alt in IH at 1 by done.
      rewrite list_lookup_insert_eq in IH by (by eapply lookup_lt_Some).
      specialize (IH eq_refl (λ _, Hown)).
      unfold refines in *.
      destruct (Sequential_forward (H := value_memory) s (TReLU v) tt)
        as [[[z s'] []]|e].
      * destruct IH as ([l' s''] & ext' & -> & Hz & Hs). cbn in Hz, Hs. subst s''.
        eexists (l', _), ext'. by split.
      * by rewrite IH.
    + rewrite (heap_Layer_relu _ _ v) by done. rewrite Layer_value_relu.
      by apply Hfresh.
Qed.

Lemma Sequential_refines_top s (h : heap) (l : nat) (v : tensor) :
  inplace_safe false s = true → h !! l = Some v →
  refines same_tensor h
          (Sequential_forward (H := heap_memory) s l h)
          (Sequential_forward (H := value_memory) s v tt).
Proof.
  intros Hs Hl. pose proof (Sequential_refines s false h [] l v Hs) as H.
  rewrite app_nil_r in H. by apply H.
Qed.

Lemma heap_read_all (h : heap) (refs : list nat) (vs : list tensor) :
  Forall2 (points_to h) refs vs → read_all (H := heap_memory) refs h = Ok (vs, h).
Proof.
  induction 1 as [|l v refs vs Hl _ IH]; [done|].
  cbn [read_all]. unfold ebind. rewrite (heap_read_eq h l v Hl), IH. done.
Qed.

Lemma value_read_all (vs : list tensor) :
  read_all (H := value_memory) vs tt = Ok (vs, tt).
Proof.
  induction vs as [|v vs IH]; [done|].
  cbn [read_all]. unfold ebind. cbn [read value_memory]. unfold eret at 1.
  by rewrite IH.
Qed.

Lemma torch_cat_refines (h : heap) (refs : list nat) (vs : list tensor) :
  Forall2 (points_to h) refs vs →
  refines points_to h (torch_cat (H := heap_memory) refs h)
          (torch_cat (H := value_memory) vs tt).
Proof.
  intros Hrefs. unfold torch_cat, ebind.
  rewrite (heap_read_all h refs vs Hrefs), value_read_all. unfold lift.
  destruct (cat_size (size <$> vs)) as [sz|e]; [|done]. apply refines_new.
Qed.

Lemma torch_add_refines (h : heap) (a b : nat) (va vb : tensor) :
  h !! a = Some va → h !! b = Some vb →
  refines points_to h (torch_add (H := heap_memory) a b h)
          (torch_add (H := value_memory) va vb tt).
Proof.
  intros Ha Hb. unfold torch_add, ebind.
  rewrite (heap_read_eq h a va Ha), (heap_read_eq h b vb Hb).
  cbn [read value_memory]. unfold eret, lift.
  destruct (add_size (size va) (size vb)) as [sz|e]; [|done]. apply refines_new.
Qed.

Lemma MaxPool2d_refines (h : heap) (l : nat) (v : tensor) p :
  h !! l = Some v →
  refines points_to h (MaxPool2d_forward (H := heap_memory) p l h)
          (MaxPool2d_forward (H := value_memory) p v tt).
Proof.
  intros Hl. unfold MaxPool2d_forward, ebind.
  rewrite (heap_read_eq h l v Hl). cbn [read value_memory]. unfold eret, lift.
  destruct (max_pool2d_size p (size v)) as [sz|e]; [|done]. apply refines_new.
Qed.

Lemma Linear_refines (h : heap) (l : nat) (v : tensor) key lin :
  h !! l = Some v →
  refines points_to h (Linear_forward (H := heap_memory) key lin l h)
          (Linear_forward (H := value_memory) key lin v tt).
Proof.
  intros Hl. unfold Linear_forward, ebind.
  rewrite (heap_read_eq h l v Hl). cbn [read value_memory]. unfold eret, lift.
  destruct (linear_size lin (size v)) as [sz|e]; [|done]. apply refines_new.
Qed.

(** The loop of an OSA module: the running tensor, the accumulated list
    and the updated layers. *)
Definition same_loop_state (h : heap) (a : nat * list nat * list Sequential)
    (b : tensor * list tensor * list Sequential) : Prop :=
  h !! a.1.1 = Some b.1.1 ∧ Forall2 (points_to h) a.1.2 b.1.2 ∧ a.2 = b.2.

Lemma Forall2_points_to_extend (h ext : heap) refs vs :
  Forall2 (points_to h) refs vs → Forall2 (points_to (h ++ ext)) refs vs.
Proof.
  intros H. eapply Forall2_impl; [done|].
  intros l v Hl. by apply points_to_extend.
Qed.

Lemma layers_loop_refines ls : ∀ (h : heap) (l : nat) (v : tensor) refs vs,
  forallb (inplace_safe false) ls = true →
  h !! l = Some v → Forall2 (points_to h) refs vs →
  refines same_loop_state h
          (layers_loop (H := heap_memory) ls l refs h)
          (layers_loop (H := value_memory) ls v vs tt).
Proof.
  induction ls as [|layer ls IH]; intros h l v refs vs Hsafe Hl Hrefs.
  - apply refines_eret. by split_and!.
  - cbn [forallb] in Hsafe. apply andb_prop in Hsafe as [Hlayer Hsafe].
    cbn [layers_loop].
    apply (refines_bind same_tensor); [by apply Sequential_refines_top|].
    intros [l1 s1] [v1 s2] ext _ [Hl1 Hs]. cbn in Hl1, Hs. subst s2.
    apply (refines_bind same_loop_state).
    + apply IH; [done..|].
      apply Forall2_app; [by apply Forall2_points_to_extend|].
      by apply Forall2_cons.
    + intros [[l2 refs2] ls1] [[v2 vs2] ls2] ext2 _ (Hl2 & Hrefs2 & Hls).
      cbn in Hl2, Hrefs2, Hls. subst ls2.
      apply refines_eret. by split_and!.
Qed.

Lemma OSA_module_refines m (h : heap) (l : nat) (v : tensor) :
  safe_module m = true → h !! l = Some v →
  refines same_tensor h
          (_OSA_module_forward (H := heap_memory) m l h)
          (_OSA_module_forward (H := value_memory) m v tt).
Proof.
  intros Hsafe Hl. apply andb_prop in Hsafe as [Hlayers Hconcat].
  unfold _OSA_module_forward.
  apply (refines_bind same_loop_state).
  { apply layers_loop_refines; [done..|]. by apply Forall2_cons. }
  intros [[l1 refs] ls1] [[v1 vs] ls2] ext _ (Hl1 & Hrefs & Hls).
  cbn in Hl1, Hrefs, Hls. subst ls2.
  apply (refines_bind points_to); [by apply torch_cat_refines|].
  intros c cv ext2 _ Hc.
  apply (refines_bind same_tensor); [by apply Sequential_refines_top|].
  intros [xt c1] [xtv c2] ext3 _ [Hxt Hc']. cbn in Hxt, Hc'. subst c2.
  apply (refines_bind points_to).
  - destruct (identity m).
    + apply torch_add_refines; [done|]. by do 3 apply points_to_extend.
    + by apply refines_eret.
  - intros y yv ext4 _ Hy. apply refines_eret. by split.
Qed.

Lemma stage_child_refines c (h : heap) (l : nat) (v : tensor) :
  match c with SC_MaxPool2d _ => true | SC_OSA_module m => safe_module m end = true →
  h !! l = Some v →
  refines same_tensor h
          (stage_child_forward (H := heap_memory) c l h)
          (stage_child_forward (H := value_memory) c v tt).
Proof.
  intros Hsafe Hl. destruct c as [p|m]; cbn [stage_child_forward].
  - apply (refines_bind points_to); [by apply MaxPool2d_refines|].
    intros y yv ext _ Hy. apply refines_eret. by split.
  - apply (refines_bind same_tensor); [by apply OSA_module_refines|].
    intros [y m1] [yv m2] ext _ [Hy Hm]. cbn in Hy, Hm. subst m2.
    apply refines_eret. by split.
Qed.

Lemma OSA_stage_refines s : ∀ (h : heap) (l : nat) (v : tensor),
  safe_stage s = true → h !! l = Some v →
  refines same_tensor h
          (_OSA_stage_forward (H := heap_memory) s l h)
          (_OSA_stage_forward (H := value_memory) s v tt).
Proof.
  induction s as [|[name c] s IH]; intros h l v Hsafe Hl.
  - apply refines_eret. by split.
  - cbn [safe_stage forallb] in Hsafe. apply andb_prop in Hsafe as [Hc Hsafe].
    cbn [_OSA_stage_forward].
    apply (refines_bind same_tensor); [by apply stage_child_refines|].
    intros [l1 c1] [v1 c2] ext _ [Hl1 Hc']. cbn in Hl1, Hc'. subst c2.
    apply (refines_bind same_tensor); [by apply IH|].
    intros [l2 s1] [v2 s2] ext2 _ [Hl2 Hs]. cbn in Hl2, Hs. subst s2.
    apply refines_eret. by split.
Qed.
End refinement.

Section safety.
Lemma inplace_safe_as_built s : ∀ owned,
  inplace_safe owned (as_built_seq s) = inplace_safe owned s.
Proof.
  induction s as [|[key layer] s IH]; intros owned; [done|].
  destruct layer as [c|b|[]]; cbn; by rewrite ?IH.
Qed.

Lemma safe_module_as_built m : safe_module (as_built_module m) = safe_module m.
Proof.
  unfold safe_module, as_built_module. cbn [layers concat].
  rewrite inplace_safe_as_built. f_equal.
  induction (layers m) as [|l ls IH]; [done|].
  cbn [fmap list_fmap forallb]. by rewrite inplace_safe_as_built, <- IH.
Qed.

Lemma safe_stage_as_built s : safe_stage (as_built_stage s) = safe_stage s.
Proof.
  induction s as [|[name c] s IH]; [done|].
  unfold safe_stage, as_built_stage in *. cbn [fmap list_fmap forallb fst snd].
  rewrite IH. f_equal. destruct c as [p|m]; [done|].
  apply safe_module_as_built.
Qed.

Lemma safe_child_as_built c : safe_child (as_built_child c) = safe_child c.
Proof.
  destruct c as [s|s|l]; cbn [safe_child as_built_child]; [| |done].
  - apply inplace_safe_as_built.
  - apply safe_stage_as_built.
Qed.

Lemma safe_net_as_built net : safe_net (as_built net) = safe_net net.
Proof.
  unfold safe_net, as_built. cbn [modules].
  induction (modules net) as [|[name c] d IH]; [done|].
  cbn [fmap list_fmap forallb fst snd]. by rewrite safe_child_as_built, IH.
Qed.

Lemma forallb_fmap_true {A B : Type} (f : B → bool) (g : A → B) (l : list A) :
  (∀ a, f (g a) = true) → forallb f (g <$> l) = true.
Proof.
  intros Hf. induction l as [|a l IH]; [done|].
  cbn [fmap list_fmap forallb]. by rewrite Hf, IH.
Qed.

Lemma safe_osa_module in_ch stage_ch concat_ch n name id :
  safe_module (osa_module in_ch stage_ch concat_ch n name id) = true.
Proof.
  unfold safe_module, osa_module, osa_layers. cbn [layers concat].
  apply andb_true_intro. split; [|done]. by apply forallb_fmap_true.
Qed.

Lemma safe_osa_stage in_ch stage_ch concat_ch bps lpb s :
  safe_stage (osa_stage in_ch stage_ch concat_ch bps lpb s) = true.
Proof.
  unfold safe_stage, osa_stage. rewrite forallb_app.
  apply andb_true_intro. split; [by destruct (decide (s = 2))|].
  cbn [forallb snd]. rewrite safe_osa_module. cbn [andb].
  apply forallb_fmap_true. intros i. cbn [snd]. apply safe_osa_module.
Qed.

Lemma safe_vovnet config_stage_ch config_concat_ch block_per_stage lpb nc :
  safe_net (vovnet config_stage_ch config_concat_ch block_per_stage lpb nc) = true.
Proof.
  unfold safe_net, vovnet. cbn [modules forallb snd safe_child].
  by rewrite !safe_osa_stage.
Qed.

Lemma as_built_safe net net0 :
  as_built net = net0 → safe_net net0 = true → safe_net net = true.
Proof. intros <-. by rewrite safe_net_as_built. Qed.
End safety.

Section refinement_net.
(** The output dictionary: same keys, and every reference stands for the
    tensor under the same key. *)
Definition same_entry (h : heap) (a : string * nat) (b : string * tensor) : Prop :=
  a.1 = b.1 ∧ points_to h a.2 b.2.

Definition same_outputs (h : heap) (a : list (string * nat) * VoVNet_object)
    (b : list (string * tensor) * VoVNet_object) : Prop :=
  Forall2 (same_entry h) a.1 b.1 ∧ a.2 = b.2.

Lemma outputs_dict {A : Type} (a b c d : A) :
  setitem "res5" d (setitem "res4" c (setitem "res3" b (setitem "res2" a [])))
  = [("res2", a); ("res3", b); ("res4", c); ("res5", d)].
Proof. reflexivity. Qed.

Lemma value_call_run net name v y net' :
  call (H := value_memory) net name v tt = Ok ((y, net'), tt) →
  call_value net name v = Ok (y, net').
Proof. intros H. unfold call_value, run. by rewrite H. Qed.

Lemma call_refines net name (h : heap) (l : nat) (v : tensor) :
  safe_net net = true → h !! l = Some v →
  refines same_tensor h
          (call (H := heap_memory) net name l h)
          (call (H := value_memory) net name v tt).
Proof.
  intros Hsafe Hl. unfold call.
  destruct (lookup_key name (modules net)) as [c|] eqn:Hk; [|done].
  assert (safe_child c = true) as Hc.
  { apply lookup_key_Some_elem in Hk. unfold safe_net in Hsafe.
    rewrite forallb_forall in Hsafe.
    apply (Hsafe (name, c)). by apply list_elem_of_In. }
  apply (refines_bind same_tensor).
  - destruct c as [s|s|lin]; cbn [VoVNet_child_forward safe_child] in *.
    + apply (refines_bind same_tensor); [by apply Sequential_refines_top|].
      intros [y s1] [yv s2] ext _ [Hy Hs]. cbn in Hy, Hs. subst s2.
      apply refines_eret. by split.
    + apply (refines_bind same_tensor); [by apply OSA_stage_refines|].
      intros [y s1] [yv s2] ext _ [Hy Hs]. cbn in Hy, Hs. subst s2.
      apply refines_eret. by split.
    + apply (refines_bind points_to); [by apply Linear_refines|].
      intros y yv ext _ Hy. apply refines_eret. by split.
  - intros [y c1] [yv c2] ext _ [Hy Hc']. cbn in Hy, Hc'. subst c2.
    apply refines_eret. by split.
Qed.

Lemma call_safe net name v y net' :
  call (H := value_memory) net name v tt = Ok ((y, net'), tt) →
  safe_net net = true → safe_net net' = true.
Proof.
  intros H%value_call_run Hsafe. apply call_value_state in H as [Ha _].
  by rewrite <- safe_net_as_built, Ha, safe_net_as_built.
Qed.

Lemma VoVNet_refines net (h : heap) (l : nat) (v : tensor) :
  safe_net net = true → h !! l = Some v →
  refines same_outputs h
          (VoVNet_forward (H := heap_memory) net l h)
          (VoVNet_forward (H := value_memory) net v tt).
Proof.
  intros Hsafe Hl. unfold VoVNet_forward. cbn zeta.
  apply (refines_bind same_tensor); [by apply call_refines|].
  intros [l1 n1] [v1 n1'] e1 E1 [H1 Hn]. cbn in H1, Hn. subst n1'.
  apply call_safe in E1; [|done].
  apply (refines_bind same_tensor); [by apply call_refines|].
  intros [l2 n2] [v2 n2'] e2 E2 [H2 Hn]. cbn in H2, Hn. subst n2'.
  apply call_safe in E2; [|done].
  apply (refines_bind same_tensor); [by apply call_refines|].
  intros [l3 n3] [v3 n3'] e3 E3 [H3 Hn]. cbn in H3, Hn. subst n3'.
  apply call_safe in E3; [|done].
  apply (refines_bind same_tensor); [by apply call_refines|].
  intros [l4 n4] [v4 n4'] e4 E4 [H4 Hn]. cbn in H4, Hn. subst n4'.
  apply call_safe in E4; [|done].
  apply (refines_bind same_tensor); [by apply call_refines|].
  intros [l5 n5] [v5 n5'] e5 E5 [H5 Hn]. cbn in H5, Hn. subst n5'.
  rewrite !outputs_dict.
  apply refines_eret. split; [|done]. cbn [fst].
  constructor; [split; [done|]; by do 3 apply points_to_extend|].
  constructor; [split; [done|]; by do 2 apply points_to_extend|].
  constructor; [split; [done|]; by apply points_to_extend|].
  constructor; [by split|constructor].
Qed.

(** The forward pass of the code, in terms of what it computes: the heap
    only grows, the caller's tensors are left as they were, and each
    output reference holds the tensor of the value semantics. *)
Lemma VoVNet_forward_heap net (h : heap) (l : nat) (v : tensor) outs net' :
  safe_net net = true → h !! l = Some v →
  VoVNet_value net v = Ok (outs, net') →
  ∃ refs ext,
    VoVNet_forward (H := heap_memory) net l h = Ok ((refs, net'), h ++ ext) ∧
    Forall2 (same_entry (h ++ ext)) refs outs.
Proof.
  intros Hsafe Hl Hv. pose proof (VoVNet_refines net h l v Hsafe Hl) as Href.
  unfold refines in Href. rewrite run_exec in Href.
  fold (VoVNet_value net v) in Href. rewrite Hv in Href.
  destruct Href as ([refs n] & ext & Hrun & Hout & Hn). cbn in Hout, Hn. subst n.
  eauto.
Qed.

Lemma VoVNet_forward_heap_raise net (h : heap) (l : nat) (v : tensor) e :
  safe_net net = true → h !! l = Some v →
  VoVNet_value net v = Raise e →
  VoVNet_forward (H := heap_memory) net l h = Raise e.
Proof.
  intros Hsafe Hl Hv. pose proof (VoVNet_refines net h l v Hsafe Hl) as Href.
  unfold refines in Href. rewrite run_exec in Href.
  fold (VoVNet_value net v) in Href. by rewrite Hv in Href.
Qed.
End refinement_net.

(** ** What a forward pass computes: sizes *)

Section unit_value.
Lemma as_built_cna_inv s i o k st p m pf :
  as_built_seq s = cna i o k st p m pf →
  ∃ b, s = [ (layer_key m pf "conv", L_Conv2d (mkConv2d i o k st p 1));
             (layer_key m pf "norm", L_BatchNorm2d b);
             (layer_key m pf "relu", L_ReLU true) ] ∧
       num_features b = o.
Proof.
  unfold as_built_seq, cna. intros Hs.
  destruct s as [|[k1 l1] [|[k2 l2] [|[k3 l3] [|]]]]; try discriminate Hs.
  cbn [fmap list_fmap fst snd] in Hs.
  injection Hs as <- H1 <- H2 <- H3.
  destruct l1 as [c1|b1|i1]; try discriminate H1.
  destruct l2 as [c2|b2|i2]; try discriminate H2.
  destruct l3 as [c3|b3|i3]; try discriminate H3.
  cbn [as_built_layer] in *. injection H1 as ->. injection H2 as Hnf. injection H3 as ->.
  eauto.
Qed.

(** A Conv-Norm-Act unit, in any state, on a feature map with the
    channel count it expects. *)
Lemma cna_value s i o k st p m pf v n h w :
  as_built_seq s = cna i o k st p m pf →
  1 ≤ i → 1 ≤ o → 1 ≤ st → 0 ≤ p →
  size v = [n; i; h; w] → 1 ≤ h → 1 ≤ w →
  k ≤ h + 2 * p → k ≤ w + 2 * p →
  frozen_seq s = true ∨ n * conv_out h k st p * conv_out w k st p ≠ 1 →
  ∃ y s', Sequential_value s v = Ok (y, s') ∧
          size y = [n; o; conv_out h k st p; conv_out w k st p].
Proof.
  intros (b & -> & Hnf)%as_built_cna_inv Hi Ho Hst Hp Hsz Hh1 Hw1 Hh Hw Hbatch.
  rewrite Sequential_value_cons, Layer_value_conv.
  rewrite Hsz, conv2d_size_ok by done. cbn [rbind].
  rewrite Sequential_value_cons, Layer_value_norm.
  unfold batch_norm_size. cbn [size].
  assert (training b && bool_decide (n * conv_out h k st p * conv_out w k st p = 1)
          = false) as ->.
  { destruct Hbatch as [Hf|Hne].
    - cbn in Hf. rewrite andb_true_r in Hf. apply negb_true_iff in Hf. by rewrite Hf.
    - rewrite bool_decide_eq_false_2 by done. apply andb_false_r. }
  rewrite Hnf. rewrite (decide_False (P := o ≠ o)) by (by intros []). cbn [rbind].
  rewrite Sequential_value_cons, Layer_value_relu. cbn [rbind].
  rewrite Sequential_value_nil. cbn [rbind]. eauto.
Qed.

Lemma Sequential_value_app s1 : ∀ s2 v,
  Sequential_value (s1 ++ s2) v
  = let? '(y, s1') := Sequential_value s1 v in
    let? '(z, s2') := Sequential_value s2 y in
    Ok (z, s1' ++ s2').
Proof.
  induction s1 as [|[key l] s1 IH]; intros s2 v.
  - rewrite Sequential_value_nil. cbn [rbind app].
    by destruct (Sequential_value s2 v) as [[z s2']|e].
  - cbn [app]. rewrite !Sequential_value_cons.
    destruct (Layer_value key l v) as [[y l']|e]; [|done]. cbn [rbind].
    rewrite IH. destruct (Sequential_value s1 y) as [[y1 s1']|e]; [|done]. cbn [rbind].
    by destruct (Sequential_value s2 y1) as [[z s2']|e].
Qed.
End unit_value.

(** The feature maps a chain of units hands on: each unit reads what the
    unit before it wrote. *)
Fixpoint chained (ls : list Sequential) (x : tensor) (ys : list tensor) : Prop :=
  match ls, ys with
  | [], [] => True
  | l :: ls', y :: ys' => (∃ l', Sequential_value l x = Ok (y, l')) ∧ chained ls' y ys'
  | _, _ => False
  end.

(** The [ModuleList] of an OSA module in any state: 3x3 stride-1 padded
    units, the first on [c] channels, the others on [stage_ch]. *)
Fixpoint chain_units (c stage_ch : Z) (ls : list Sequential) : Prop :=
  match ls with
  | [] => True
  | l :: ls' =>
      (∃ m pf, as_built_seq l = cna c stage_ch 3 1 1 m pf) ∧
      chain_units stage_ch stage_ch ls'
  end.

Section module_value.
Lemma osa_layers_chain_units stage_ch name (cnt : nat) : ∀ j c (ls : list Sequential),
  as_built_seq <$> ls
  = (λ i, cna (if decide (i = j) then c else stage_ch) stage_ch 3 1 1 name (pretty i))
      <$> seqZ j (Z.of_nat cnt) →
  chain_units c stage_ch ls ∧ length ls = cnt.
Proof.
  induction cnt as [|cnt IH]; intros j c ls Hls.
  - rewrite seqZ_nil in Hls by lia. apply fmap_nil_inv in Hls as ->. done.
  - rewrite seqZ_cons in Hls by lia.
    replace (Z.pred (Z.of_nat (S cnt))) with (Z.of_nat cnt) in Hls by lia.
    destruct ls as [|l ls]; [done|]. cbn [fmap list_fmap] in Hls.
    injection Hls as Hl Hls. rewrite decide_True in Hl by done.
    destruct (IH (Z.succ j) stage_ch ls) as [Hchain Hlen].
    { rewrite Hls. apply list_fmap_ext. intros k i Hi.
      apply lookup_seqZ in Hi as [-> _].
      rewrite (decide_False (P := _ = j)) by lia.
      by destruct (decide (_ = Z.succ j)). }
    split; [|by rewrite <- Hlen]. cbn [chain_units]. eauto.
Qed.

Lemma layers_loop_value_units n stage_ch h w : ∀ ls c x out,
  chain_units c stage_ch ls → 1 ≤ c → 1 ≤ stage_ch →
  size x = [n; c; h; w] → 1 ≤ h → 1 ≤ w →
  forallb frozen_seq ls = true ∨ n * h * w ≠ 1 →
  ∃ z ys ls',
    layers_loop_value ls x out = Ok (z, out ++ ys, ls') ∧
    chained ls x ys ∧
    Forall (λ y, size y = [n; stage_ch; h; w]) ys ∧
    length ys = length ls.
Proof.
  induction ls as [|l ls IH]; intros c x out Hunits Hc Hs Hsz Hh Hw Hbatch.
  - exists x, [], []. rewrite layers_loop_value_nil, app_nil_r. done.
  - destruct Hunits as [(m & pf & Hl) Hunits].
    destruct (cna_value l c stage_ch 3 1 1 m pf x n h w Hl Hc Hs ltac:(lia) ltac:(lia) Hsz)
      as (y & l' & Hy & Hysz); [lia..| |].
    { rewrite !conv_out_3_1_1. destruct Hbatch as [Hf|Hne]; [|by right].
      left. cbn [forallb] in Hf. by apply andb_prop in Hf as [? _]. }
    rewrite !conv_out_3_1_1 in Hysz.
    destruct (IH stage_ch y (out ++ [y]) Hunits Hs Hs Hysz Hh Hw)
      as (z & ys & ls' & Hloop & Hchain & Hsizes & Hlen).
    { destruct Hbatch as [Hf|Hne]; [|by right].
      left. cbn [forallb] in Hf. by apply andb_prop in Hf as [_ ?]. }
    exists z, (y :: ys), (l' :: ls').
    rewrite layers_loop_value_cons, Hy. cbn [rbind]. rewrite Hloop. cbn [rbind].
    rewrite <- app_assoc. split_and!; [done| |by constructor|by cbn; rewrite Hlen].
    cbn [chained]. eauto.
Qed.

(** The forward pass of an OSA module, in any state of the module that
    [_OSA_module] builds. *)
Lemma osa_module_value m in_ch stage_ch concat_ch lpb name id x n h w :
  as_built_module m = osa_module in_ch stage_ch concat_ch lpb name id →
  0 ≤ lpb → 1 ≤ in_ch → 1 ≤ stage_ch → 1 ≤ concat_ch →
  size x = [n; in_ch; h; w] → 1 ≤ h → 1 ≤ w →
  frozen_module m = true ∨ n * h * w ≠ 1 →
  ∃ ys xt concat' m',
    chained (layers m) x ys ∧
    Z.of_nat (length ys) = lpb ∧
    Forall (λ y, size y = [n; stage_ch; h; w]) ys ∧
    Sequential_value (concat m)
      (TCat [n; in_ch + lpb * stage_ch; h; w] (x :: ys)) = Ok (xt, concat') ∧
    size xt = [n; concat_ch; h; w] ∧
    OSA_module_value m x
    = (if id
       then let? sz := add_size [n; concat_ch; h; w] [n; in_ch; h; w] in
            Ok (TAdd sz xt x, m')
       else Ok (xt, m')).
Proof.
  intros Hm Hl Hi1 Hs1 Hc1 Hsz Hh Hw Hbatch.
  unfold as_built_module, osa_module in Hm. injection Hm as Hid Hlayers Hconcat.
  unfold osa_layers, range in Hlayers.
  rewrite <- (Z2Nat.id lpb) in Hlayers by done.
  apply osa_layers_chain_units in Hlayers as [Hunits Hlen].
  destruct (layers_loop_value_units n stage_ch h w (layers m) in_ch x [x]
              Hunits Hi1 Hs1 Hsz Hh Hw) as (z & ys & ls' & Hloop & Hchain & Hsizes & Hlen').
  { destruct Hbatch as [Hf|Hne]; [|by right].
    left. by apply andb_prop in Hf as [? _]. }
  assert (cat_size (size <$> [x] ++ ys) = Ok [n; in_ch + lpb * stage_ch; h; w]) as Hcat.
  { cbn [app fmap list_fmap]. rewrite Hsz.
    rewrite (cat_size_input_units n in_ch stage_ch h w).
    - rewrite length_fmap, Hlen', Hlen. by rewrite Z2Nat.id by done.
    - apply Forall_fmap. by eapply Forall_impl. }
  destruct (cna_value (concat m) (in_ch + lpb * stage_ch) concat_ch 1 1 0 name "concat"
              (TCat [n; in_ch + lpb * stage_ch; h; w] ([x] ++ ys)) n h w Hconcat
              ltac:(nia) Hc1 ltac:(lia) ltac:(lia))
    as (xt & c' & Hxt & Hxtsz); [done|lia..| |].
  { rewrite !conv_out_1_1_0. destruct Hbatch as [Hf|Hne]; [|by right].
    left. by apply andb_prop in Hf as [_ ?]. }
  rewrite !conv_out_1_1_0 in Hxtsz.
  exists ys, xt, c', (mkOSA_module (identity m) ls' c').
  split_and!; [done|lia|done|done|done|].
  rewrite OSA_module_value_eq, Hloop. cbn [rbind]. rewrite Hcat. cbn [rbind].
  rewrite Hxt. cbn [rbind]. rewrite Hid.
  destruct id; [|done]. rewrite Hxtsz, Hsz.
  by destruct (add_size _ _).
Qed.
End module_value.

(** A later block of a stage, in any state: an identity-mode module whose
    input and output channel counts are both [concat_ch]. *)
Definition identity_block (concat_ch stage_ch lpb : Z) (kc : string * stage_child) : Prop :=
  ∃ m name, kc.2 = SC_OSA_module m ∧
            as_built_module m = osa_module concat_ch stage_ch concat_ch lpb name true.

Definition pooling (stage_num : Z) : OSA_stage :=
  if decide (stage_num = 2) then []
  else [("Pooling", SC_MaxPool2d (mkMaxPool2d 3 2 true))].

Section stage_value.
Lemma as_built_stage_inv st in_ch stage_ch concat_ch bps lpb s :
  as_built_stage st = osa_stage in_ch stage_ch concat_ch bps lpb s →
  ∃ m1 ids,
    st = pooling s ++ (osa_name s 1, SC_OSA_module m1) :: ids ∧
    as_built_module m1
    = osa_module in_ch stage_ch concat_ch lpb (osa_name s 1) false ∧
    Forall (identity_block concat_ch stage_ch lpb) ids ∧
    length ids = Z.to_nat (bps - 1).
Proof.
  unfold osa_stage, pooling. intros Hst.
  assert (∀ (l0 : list Z) (ids : OSA_stage),
    as_built_stage ids
    = (λ i, (osa_name s (i + 2),
             SC_OSA_module (osa_module concat_ch stage_ch concat_ch lpb
                                       (osa_name s (i + 2)) true))) <$> l0 →
    Forall (identity_block concat_ch stage_ch lpb) ids ∧ length ids = length l0)
    as Hids.
  { induction l0 as [|i l0 IH]; intros ids Hids.
    - apply fmap_nil_inv in Hids as ->. done.
    - destruct ids as [|[k c] ids]; [done|].
      unfold as_built_stage in Hids. cbn [fmap list_fmap fst snd] in Hids.
      injection Hids as -> Hc Hids. destruct (IH ids Hids) as [Hall Hlen].
      split; [|by cbn; rewrite Hlen]. constructor; [|done].
      destruct c as [p|m]; [done|]. cbn [as_built_stage_child] in Hc.
      exists m, (osa_name s (i + 2)). split; [done|congruence]. }
  assert (∀ st',
    as_built_stage st'
    = (osa_name s 1,
       SC_OSA_module (osa_module in_ch stage_ch concat_ch lpb (osa_name s 1) false))
      :: ((λ i, (osa_name s (i + 2),
                 SC_OSA_module (osa_module concat_ch stage_ch concat_ch lpb
                                           (osa_name s (i + 2)) true)))
            <$> range (bps - 1)) →
    ∃ m1 ids,
      st' = (osa_name s 1, SC_OSA_module m1) :: ids ∧
      as_built_module m1
      = osa_module in_ch stage_ch concat_ch lpb (osa_name s 1) false ∧
      Forall (identity_block concat_ch stage_ch lpb) ids ∧
      length ids = Z.to_nat (bps - 1)) as Hfirst.
  { intros st' Hst'. destruct st' as [|[k c] ids]; [done|].
    unfold as_built_stage in Hst'. cbn [fmap list_fmap fst snd] in Hst'.
    injection Hst' as -> Hc Hrest. destruct c as [p|m]; [done|].
    cbn [as_built_stage_child] in Hc.
    destruct (Hids _ _ Hrest) as [Hall Hlen].
    exists m, ids. rewrite Hlen, range_length. split_and!; [done|congruence|done..]. }
  destruct (decide (s = 2)) as [->|Hne].
  - cbn [app] in *. by apply Hfirst.
  - destruct st as [|[k c] st]; [done|].
    unfold as_built_stage in Hst. cbn [app fmap list_fmap fst snd] in Hst.
    injection Hst as -> Hc Hrest. destruct c as [p|m]; [|done]. injection Hc as ->.
    destruct (Hfirst st Hrest) as (m1 & ids & -> & ?). exists m1, ids. done.
Qed.

Lemma OSA_stage_value_app s1 : ∀ s2 v,
  OSA_stage_value (s1 ++ s2) v
  = let? '(y, s1') := OSA_stage_value s1 v in
    let? '(z, s2') := OSA_stage_value s2 y in
    Ok (z, s1' ++ s2').
Proof.
  induction s1 as [|[name c] s1 IH]; intros s2 v.
  - rewrite OSA_stage_value_nil. cbn [rbind app].
    by destruct (OSA_stage_value s2 v) as [[z s2']|e].
  - cbn [app]. rewrite !OSA_stage_value_cons.
    destruct (stage_child_value c v) as [[y c']|e]; [|done]. cbn [rbind].
    rewrite IH. destruct (OSA_stage_value s1 y) as [[y1 s1']|e]; [|done]. cbn [rbind].
    by destruct (OSA_stage_value s2 y1) as [[z s2']|e].
Qed.

(** The identity blocks keep the size of the feature map. *)
Lemma identity_blocks_value concat_ch stage_ch lpb n h w : ∀ ids x,
  Forall (identity_block concat_ch stage_ch lpb) ids → 0 ≤ lpb →
  1 ≤ stage_ch → 1 ≤ concat_ch →
  size x = [n; concat_ch; h; w] → 1 ≤ h → 1 ≤ w →
  frozen_stage ids = true ∨ n * h * w ≠ 1 →
  ∃ y ids', OSA_stage_value ids x = Ok (y, ids') ∧ size y = [n; concat_ch; h; w].
Proof.
  induction ids as [|[k c] ids IH]; intros x Hall Hl Hs1 Hc1 Hsz Hh Hw Hbatch.
  - exists x, []. by rewrite OSA_stage_value_nil.
  - apply Forall_cons in Hall as [(m & name & Hc & Hm) Hall]. cbn [snd] in Hc. subst c.
    destruct (osa_module_value m concat_ch stage_ch concat_ch lpb name true x n h w
                Hm Hl Hc1 Hs1 Hc1 Hsz Hh Hw)
      as (ys & xt & c' & m' & _ & _ & _ & _ & Hxt & Hval).
    { destruct Hbatch as [Hf|Hne]; [|by right].
      left. unfold frozen_stage in Hf. cbn [forallb snd] in Hf.
      by apply andb_prop in Hf as [? _]. }
    rewrite add_size_same in Hval. cbn [rbind] in Hval.
    destruct (IH (TAdd [n; concat_ch; h; w] xt x) Hall Hl Hs1 Hc1 eq_refl Hh Hw)
      as (y & ids' & Hy & Hysz).
    { destruct Hbatch as [Hf|Hne]; [|by right].
      left. unfold frozen_stage in Hf. cbn [forallb snd] in Hf.
      by apply andb_prop in Hf as [_ ?]. }
    rewrite OSA_stage_value_cons, stage_child_value_osa, Hval. cbn [rbind].
    rewrite Hy. cbn [rbind]. eauto.
Qed.

(** Extent of a feature map after the optional pooling of a stage. *)
Definition pooled (stage_num h : Z) : Z :=
  if decide (stage_num = 2) then h else h `div` 2.

(** The forward pass of a stage, in any state of the stage that
    [_OSA_stage] builds. *)
Lemma osa_stage_value st in_ch stage_ch concat_ch bps lpb s x n h w :
  as_built_stage st = osa_stage in_ch stage_ch concat_ch bps lpb s →
  0 ≤ lpb → 1 ≤ in_ch → 1 ≤ stage_ch → 1 ≤ concat_ch →
  size x = [n; in_ch; h; w] → 1 ≤ pooled s h → 1 ≤ pooled s w →
  frozen_stage st = true ∨ n * pooled s h * pooled s w ≠ 1 →
  ∃ y st', OSA_stage_value st x = Ok (y, st') ∧
           size y = [n; concat_ch; pooled s h; pooled s w].
Proof.
  intros (m1 & ids & -> & Hm1 & Hids & _)%as_built_stage_inv Hl Hi1 Hs1 Hc1 Hsz Hh Hw Hbatch.
  assert (∀ x', size x' = [n; in_ch; pooled s h; pooled s w] →
    frozen_stage ((osa_name s 1, SC_OSA_module m1) :: ids) = true
    ∨ n * pooled s h * pooled s w ≠ 1 →
    ∃ y st', OSA_stage_value ((osa_name s 1, SC_OSA_module m1) :: ids) x' = Ok (y, st') ∧
             size y = [n; concat_ch; pooled s h; pooled s w]) as Hblocks.
  { intros x' Hx' Hb.
    destruct (osa_module_value m1 in_ch stage_ch concat_ch lpb (osa_name s 1) false
                x' n (pooled s h) (pooled s w) Hm1 Hl Hi1 Hs1 Hc1 Hx' Hh Hw)
      as (ys & xt & c' & m' & _ & _ & _ & _ & Hxt & Hval).
    { destruct Hb as [Hf|Hne]; [|by right].
      left. unfold frozen_stage in Hf. cbn [forallb snd] in Hf.
      by apply andb_prop in Hf as [? _]. }
    destruct (identity_blocks_value concat_ch stage_ch lpb n (pooled s h) (pooled s w)
                ids xt Hids Hl Hs1 Hc1 Hxt Hh Hw) as (y & ids' & Hy & Hysz).
    { destruct Hb as [Hf|Hne]; [|by right].
      left. unfold frozen_stage in Hf. cbn [forallb snd] in Hf.
      by apply andb_prop in Hf as [_ ?]. }
    rewrite OSA_stage_value_cons, stage_child_value_osa, Hval. cbn [rbind].
    rewrite Hy. cbn [rbind]. eauto. }
  unfold pooling, pooled in *. destruct (decide (s = 2)) as [->|Hne].
  - cbn [app]. by apply Hblocks.
  - cbn [app]. rewrite OSA_stage_value_cons, stage_child_value_pool.
    rewrite Hsz, max_pool2d_size_ok by lia. cbn [rbind].
    destruct (Hblocks (TMaxPool [n; in_ch; h `div` 2; w `div` 2]
                                (mkMaxPool2d 3 2 true) x) eq_refl)
      as (y & st' & Hy & Hysz).
    { destruct Hbatch as [Hf|Hne']; [|by right]. by left. }
    rewrite Hy. cbn [rbind]. eauto.
Qed.
End stage_value.

(** Spatial extents along the backbone, for an input extent [h]. *)
Definition stem_extent (h : Z) : Z :=
  conv_out (conv_out (conv_out h 3 2 1) 3 1 1) 3 2 1.
Definition res2_extent (h : Z) : Z := pooled 2 (stem_extent h).
Definition res3_extent (h : Z) : Z := pooled 3 (res2_extent h).
Definition res4_extent (h : Z) : Z := pooled 4 (res3_extent h).
Definition res5_extent (h : Z) : Z := pooled 5 (res4_extent h).

(** [res_k] is what stage k makes of the output of the stage before it. *)
Definition staged (net : VoVNet_object) (x t2 t3 t4 t5 : tensor) : Prop :=
  ∃ stem st2 st3 st4 st5 t1 stem' st2' st3' st4' st5',
    lookup_key "stem" (modules net) = Some (C_Sequential stem) ∧
    lookup_key "stage2" (modules net) = Some (C_OSA_stage st2) ∧
    lookup_key "stage3" (modules net) = Some (C_OSA_stage st3) ∧
    lookup_key "stage4" (modules net) = Some (C_OSA_stage st4) ∧
    lookup_key "stage5" (modules net) = Some (C_OSA_stage st5) ∧
    Sequential_value stem x = Ok (t1, stem') ∧
    channels t1 = Some 128 ∧
    OSA_stage_value st2 t1 = Ok (t2, st2') ∧
    OSA_stage_value st3 t2 = Ok (t3, st3') ∧
    OSA_stage_value st4 t3 = Ok (t4, st4') ∧
    OSA_stage_value st5 t4 = Ok (t5, st5').

Section net_value.
Lemma extents (h : Z) :
  stem_extent h = ((h + 1) `div` 2 + 1) `div` 2 ∧
  res2_extent h = stem_extent h ∧
  res3_extent h = stem_extent h `div` 2 ∧
  res4_extent h = (stem_extent h `div` 2) `div` 2 ∧
  res5_extent h = ((stem_extent h `div` 2) `div` 2) `div` 2.
Proof.
  unfold res5_extent, res4_extent, res3_extent, res2_extent, stem_extent, pooled.
  rewrite conv_out_3_1_1, !conv_out_3_2_1. done.
Qed.

Lemma stem_value stem x n h w :
  as_built_seq stem = stem_layers →
  size x = [n; 3; h; w] → 1 ≤ h → 1 ≤ w →
  frozen_seq stem = true
  ∨ (n * conv_out h 3 2 1 * conv_out w 3 2 1 ≠ 1 ∧ n * stem_extent h * stem_extent w ≠ 1) →
  ∃ t1 stem', Sequential_value stem x = Ok (t1, stem') ∧
              size t1 = [n; 128; stem_extent h; stem_extent w].
Proof.
  intros Hstem Hsz Hh Hw Hbatch.
  unfold stem_layers, as_built_seq in Hstem.
  apply fmap_app_inv in Hstem as (u1 & r & H1 & Hr & ->). symmetry in H1, Hr.
  apply fmap_app_inv in Hr as (u2 & u3 & H2 & H3 & ->). symmetry in H2, H3.
  assert (frozen_seq (u1 ++ u2 ++ u3) = true →
          frozen_seq u1 = true ∧ frozen_seq u2 = true ∧ frozen_seq u3 = true) as Hfr.
  { unfold frozen_seq. rewrite !forallb_app. intros H.
    apply andb_prop in H as [? H]. by apply andb_prop in H as [? ?]. }
  pose proof (conv_out_3_2_1 h) as Eh. pose proof (conv_out_3_2_1 w) as Ew.
  destruct (cna_value u1 3 64 3 2 1 "stem" "1" x n h w H1
              ltac:(lia) ltac:(lia) ltac:(lia) ltac:(lia) Hsz) as (y1 & u1' & E1 & S1);
    [lia..| |].
  { destruct Hbatch as [Hf|[Hne _]]; [|by right]. left. by apply Hfr. }
  destruct (cna_value u2 64 64 3 1 1 "stem" "2" y1 n _ _ H2
              ltac:(lia) ltac:(lia) ltac:(lia) ltac:(lia) S1) as (y2 & u2' & E2 & S2);
    [lia..| |].
  { rewrite !conv_out_3_1_1.
    destruct Hbatch as [Hf|[Hne _]]; [|by right]. left. by apply Hfr. }
  destruct (cna_value u3 64 128 3 2 1 "stem" "3" y2 n _ _ H3
              ltac:(lia) ltac:(lia) ltac:(lia) ltac:(lia) S2) as (y3 & u3' & E3 & S3).
  { rewrite conv_out_3_1_1. lia. }
  { rewrite conv_out_3_1_1. lia. }
  { rewrite conv_out_3_1_1. lia. }
  { rewrite conv_out_3_1_1. lia. }
  { destruct Hbatch as [Hf|[_ Hne]]; [|by right]. left. by apply Hfr. }
  exists y3, (u1' ++ u2' ++ u3').
  rewrite Sequential_value_app, E1. cbn [rbind].
  rewrite Sequential_value_app, E2. cbn [rbind].
  rewrite E3. cbn [rbind]. done.
Qed.

Lemma as_built_vovnet_inv net s0 s1 s2 s3 c0 c1 c2 c3 b0 b1 b2 b3 lpb nc :
  as_built net = vovnet [s0; s1; s2; s3] [c0; c1; c2; c3] [b0; b1; b2; b3] lpb nc →
  ∃ stem st2 st3 st4 st5 lin,
    modules net = [ ("stem", C_Sequential stem); ("stage2", C_OSA_stage st2);
                    ("stage3", C_OSA_stage st3); ("stage4", C_OSA_stage st4);
                    ("stage5", C_OSA_stage st5); ("classifier", C_Linear lin) ] ∧
    as_built_seq stem = stem_layers ∧
    as_built_stage st2 = osa_stage 128 s0 c0 b0 lpb 2 ∧
    as_built_stage st3 = osa_stage c0 s1 c1 b1 lpb 3 ∧
    as_built_stage st4 = osa_stage c1 s2 c2 b2 lpb 4 ∧
    as_built_stage st5 = osa_stage c2 s3 c3 b3 lpb 5.
Proof.
  unfold as_built, vovnet. intros Hnet.
  injection Hnet as Hmods _.
  destruct (modules net) as [|[k1 d1] [|[k2 d2] [|[k3 d3] [|[k4 d4] [|[k5 d5]
    [|[k6 d6] [|]]]]]]]; try discriminate Hmods.
  cbn [fmap list_fmap fst snd] in Hmods.
  injection Hmods as -> H1 -> H2 -> H3 -> H4 -> H5 -> H6.
  destruct d1 as [stem| |]; try discriminate H1.
  destruct d2 as [|st2|]; try discriminate H2.
  destruct d3 as [|st3|]; try discriminate H3.
  destruct d4 as [|st4|]; try discriminate H4.
  destruct d5 as [|st5|]; try discriminate H5.
  destruct d6 as [| |lin]; try discriminate H6.
  cbn [as_built_child] in *.
  change (Z.of_nat 0 + 2) with 2 in H2. change (Z.of_nat 1 + 2) with 3 in H3.
  change (Z.of_nat 2 + 2) with 4 in H4. change (Z.of_nat 3 + 2) with 5 in H5.
  exists stem, st2, st3, st4, st5, lin.
  split_and!; [done|congruence..].
Qed.
End net_value.

Section backbone_value.
Lemma batch_ok (n a b : Z) : 0 ≤ n → 2 ≤ a → 1 ≤ b → n * a * b ≠ 1.
Proof.
  intros Hn Ha Hb. destruct (decide (n = 0)) as [->|Hne]; [lia|].
  assert (2 ≤ n * a) by nia. assert (2 ≤ n * a * b) by nia. lia.
Qed.

Lemma extents_bounds (h : Z) :
  29 ≤ h →
  15 ≤ conv_out h 3 2 1 ∧ 8 ≤ stem_extent h ∧ 8 ≤ res2_extent h ∧
  4 ≤ res3_extent h ∧ 2 ≤ res4_extent h ∧ 1 ≤ res5_extent h.
Proof.
  intros Hh. destruct (extents h) as (E1 & E2 & E3 & E4 & E5).
  rewrite conv_out_3_2_1, E5, E4, E3, E2, E1. lia.
Qed.

(** The forward pass of the backbone, in any state of a network built
    from four-entry tables, on a batch of 3-channel images that is large
    enough for the three poolings. *)
Lemma vovnet_value net s0 s1 s2 s3 c0 c1 c2 c3 b0 b1 b2 b3 lpb nc x n h w :
  as_built net = vovnet [s0; s1; s2; s3] [c0; c1; c2; c3] [b0; b1; b2; b3] lpb nc →
  0 ≤ lpb →
  (1 ≤ s0 ∧ 1 ≤ s1 ∧ 1 ≤ s2 ∧ 1 ≤ s3) → (1 ≤ c0 ∧ 1 ≤ c1 ∧ 1 ≤ c2 ∧ 1 ≤ c3) →
  size x = [n; 3; h; w] → 29 ≤ h → 29 ≤ w →
  frozen net = true ∨ (0 ≤ n ∧ n * res5_extent h * res5_extent w ≠ 1) →
  ∃ t2 t3 t4 t5 net',
    VoVNet_value net x
    = Ok ([("res2", t2); ("res3", t3); ("res4", t4); ("res5", t5)], net') ∧
    staged net x t2 t3 t4 t5 ∧
    size t2 = [n; c0; res2_extent h; res2_extent w] ∧
    size t3 = [n; c1; res3_extent h; res3_extent w] ∧
    size t4 = [n; c2; res4_extent h; res4_extent w] ∧
    size t5 = [n; c3; res5_extent h; res5_extent w].
Proof.
  intros Hnet Hl (Ps0 & Ps1 & Ps2 & Ps3) (Pc0 & Pc1 & Pc2 & Pc3) Hsz Hh Hw Hbatch.
  apply as_built_vovnet_inv in Hnet
    as (stem & st2 & st3 & st4 & st5 & lin & Hmods & Hstem & H2 & H3 & H4 & H5).
  destruct (extents_bounds h Hh) as (Bh1 & Bhs & Bh2 & Bh3 & Bh4 & Bh5).
  destruct (extents_bounds w Hw) as (Bw1 & Bws & Bw2 & Bw3 & Bw4 & Bw5).
  assert (frozen net = true →
          frozen_seq stem = true ∧ frozen_stage st2 = true ∧ frozen_stage st3 = true ∧
          frozen_stage st4 = true ∧ frozen_stage st5 = true) as Hfr.
  { unfold frozen. rewrite Hmods. cbn [forallb snd]. intros H.
    repeat (apply andb_prop in H as [? H]). done. }
  destruct (stem_value stem x n h w Hstem Hsz) as (t1 & stem' & E1 & S1); [lia..| |].
  { destruct Hbatch as [Hf|[Hn Hne]]; [left; by apply Hfr|right].
    split; apply batch_ok; lia. }
  destruct (osa_stage_value st2 128 s0 c0 b0 lpb 2 t1 n _ _ H2 Hl
              ltac:(lia) Ps0 Pc0 S1) as (t2 & st2' & E2 & S2).
  { fold (res2_extent h). lia. }
  { fold (res2_extent w). lia. }
  { fold (res2_extent h) (res2_extent w).
    destruct Hbatch as [Hf|[Hn Hne]]; [left; by apply Hfr|right].
    apply batch_ok; lia. }
  fold (res2_extent h) (res2_extent w) in S2.
  destruct (osa_stage_value st3 c0 s1 c1 b1 lpb 3 t2 n _ _ H3 Hl Pc0 Ps1 Pc1 S2)
    as (t3 & st3' & E3 & S3).
  { fold (res3_extent h). lia. }
  { fold (res3_extent w). lia. }
  { fold (res3_extent h) (res3_extent w).
    destruct Hbatch as [Hf|[Hn Hne]]; [left; by apply Hfr|right].
    apply batch_ok; lia. }
  fold (res3_extent h) (res3_extent w) in S3.
  destruct (osa_stage_value st4 c1 s2 c2 b2 lpb 4 t3 n _ _ H4 Hl Pc1 Ps2 Pc2 S3)
    as (t4 & st4' & E4 & S4).
  { fold (res4_extent h). lia. }
  { fold (res4_extent w). lia. }
  { fold (res4_extent h) (res4_extent w).
    destruct Hbatch as [Hf|[Hn Hne]]; [left; by apply Hfr|right].
    apply batch_ok; lia. }
  fold (res4_extent h) (res4_extent w) in S4.
  destruct (osa_stage_value st5 c2 s3 c3 b3 lpb 5 t4 n _ _ H5 Hl Pc2 Ps3 Pc3 S4)
    as (t5 & st5' & E5 & S5).
  { fold (res5_extent h). lia. }
  { fold (res5_extent w). lia. }
  { fold (res5_extent h) (res5_extent w).
    destruct Hbatch as [Hf|[Hn Hne]]; [left; by apply Hfr|by right]. }
  fold (res5_extent h) (res5_extent w) in S5.
  assert (lookup_key "stem" (modules net) = Some (C_Sequential stem)) as K1
    by (by rewrite Hmods).
  assert (lookup_key "stage2" (modules net) = Some (C_OSA_stage st2)) as K2
    by (by rewrite Hmods).
  assert (lookup_key "stage3" (modules net) = Some (C_OSA_stage st3)) as K3
    by (by rewrite Hmods).
  assert (lookup_key "stage4" (modules net) = Some (C_OSA_stage st4)) as K4
    by (by rewrite Hmods).
  assert (lookup_key "stage5" (modules net) = Some (C_OSA_stage st5)) as K5
    by (by rewrite Hmods).
  exists t2, t3, t4, t5. eexists. split_and!; [|
    exists stem, st2, st3, st4, st5, t1, stem', st2', st3', st4', st5';
    split_and!; try done; unfold channels; by rewrite S1 | done..].
  rewrite VoVNet_value_eq.
  erewrite (call_value_intro net "stem"); [|done|]; cbn [modules stage_names].
  2:{ cbn [child_value]. by rewrite E1. }
  cbn [rbind].
  erewrite (call_value_intro _ "stage2"); cbn [modules stage_names].
  2:{ by rewrite lookup_key_setitem_ne. }
  2:{ cbn [child_value]. by rewrite E2. }
  cbn [rbind].
  erewrite (call_value_intro _ "stage3"); cbn [modules stage_names].
  2:{ by rewrite !lookup_key_setitem_ne. }
  2:{ cbn [child_value]. by rewrite E3. }
  cbn [rbind].
  erewrite (call_value_intro _ "stage4"); cbn [modules stage_names].
  2:{ by rewrite !lookup_key_setitem_ne. }
  2:{ cbn [child_value]. by rewrite E4. }
  cbn [rbind].
  erewrite (call_value_intro _ "stage5"); cbn [modules stage_names].
  2:{ by rewrite !lookup_key_setitem_ne. }
  2:{ cbn [child_value]. by rewrite E5. }
  cbn [rbind]. done.
Qed.
End backbone_value.

(** ** From value semantics back to the heap *)

Section transfer.
Context {A B : Type} (R : heap → A → B → Prop).

Lemma refines_ok (h : heap) (ch : result (A * heap)) (cv : exec unit B) (b : B) :
  refines R h ch (cv tt) → run cv = Ok b →
  ∃ a ext, ch = Ok (a, h ++ ext) ∧ R (h ++ ext) a b.
Proof.
  unfold refines. rewrite run_exec. intros Href Hrun. by rewrite Hrun in Href.
Qed.

Lemma refines_raise (h : heap) (ch : result (A * heap)) (cv : exec unit B) (e : exn) :
  refines R h ch (cv tt) → run cv = Raise e → ch = Raise e.
Proof.
  unfold refines. rewrite run_exec. intros Href Hrun. by rewrite Hrun in Href.
Qed.

(** A heap run that returns is matched by a value run that returns. *)
Lemma refines_ok_inv (h : heap) (ch : result (A * heap)) (cv : exec unit B) a h' :
  refines R h ch (cv tt) → ch = Ok (a, h') →
  ∃ b ext, run cv = Ok b ∧ h' = h ++ ext ∧ R h' a b.
Proof.
  unfold refines. rewrite run_exec. intros Href Hch.
  destruct (run cv) as [b|e].
  - destruct Href as (a' & ext & Hch' & HR). rewrite Hch in Hch'.
    injection Hch' as -> ->. eauto.
  - by rewrite Hch in Href.
Qed.

Lemma refines_raise_inv (h : heap) (ch : result (A * heap)) (cv : exec unit B) e :
  refines R h ch (cv tt) → ch = Raise e → run cv = Raise e.
Proof.
  unfold refines. rewrite run_exec. intros Href Hch.
  destruct (run cv) as [b|e'].
  - destruct Href as (a' & ext & Hch' & HR). by rewrite Hch in Hch'.
  - rewrite Hch in Href. by injection Href as ->.
Qed.
End transfer.

(** ** The builders *)

Inductive configuration : Type := V27_slim | V39 | V57.

Section builders.
Variable load_state_dict_from_url : string → bool → result state_dict.
Variable load_state_dict : VoVNet_object → state_dict → result VoVNet_object.

(** The functions [vovnet27_slim], [vovnet39] and [vovnet57], in a module
    namespace with the names [names] and the weight-URL table [urls]. *)
Definition builder_in (names : list string) (urls : list (string * string))
    (cfg : configuration) (pretrained progress : bool) : result VoVNet_object :=
  match cfg with
  | V27_slim => vovnet27_slim names urls load_state_dict_from_url
                              load_state_dict pretrained progress
  | V39 => vovnet39 names urls load_state_dict_from_url
                    load_state_dict pretrained progress
  | V57 => vovnet57 names urls load_state_dict_from_url
                    load_state_dict pretrained progress
  end.

(** The same in the namespace of the module as it is written. *)
Definition builder (cfg : configuration) (pretrained progress : bool)
  : result VoVNet_object :=
  builder_in module_names model_urls cfg pretrained progress.

(** The tables the three builders pass on. *)
Definition stage_channels (cfg : configuration) : list Z :=
  match cfg with
  | V27_slim => [64; 80; 96; 112]
  | V39 | V57 => [128; 160; 192; 224]
  end.

Definition concat_channels (cfg : configuration) : list Z :=
  match cfg with
  | V27_slim => [128; 256; 384; 512]
  | V39 | V57 => [256; 512; 768; 1024]
  end.

Definition blocks_per_stage (cfg : configuration) : list Z :=
  match cfg with
  | V27_slim => [1; 1; 1; 1]
  | V39 => [1; 1; 2; 2]
  | V57 => [1; 1; 4; 3]
  end.

(** The object a builder returns when no weights are loaded. *)
Definition built (cfg : configuration) : VoVNet_object :=
  vovnet (stage_channels cfg) (concat_channels cfg) (blocks_per_stage cfg) 5 1000.

Lemma builder_in_ok names urls (cfg : configuration) (progress : bool) :
  builder_in names urls cfg false progress = Ok (built cfg).
Proof.
  destruct cfg; unfold builder_in, built, vovnet27_slim, vovnet39, vovnet57, _vovnet;
    cbn [stage_channels concat_channels blocks_per_stage];
    (rewrite VoVNet_ok; [done|done..| | |lia|lia]);
    repeat constructor; lia.
Qed.

Lemma builder_ok (cfg : configuration) (progress : bool) :
  builder cfg false progress = Ok (built cfg).
Proof. apply builder_in_ok. Qed.

(** With the flag set the first thing evaluated after the construction is
    the global name of the loader. *)
Lemma builder_in_pretrained names urls (cfg : configuration) (progress : bool) :
  builder_in names urls cfg true progress
  = let? _ := load_global names "load_state_dict_from_url" in
    let? url := dict_getitem urls (match cfg with
                                   | V27_slim => "vovnet27_slim"
                                   | V39 => "vovnet39"
                                   | V57 => "vovnet57"
                                   end) in
    let? weights := load_state_dict_from_url url progress in
    load_state_dict (built cfg) weights.
Proof.
  pose proof (builder_in_ok names urls cfg progress) as Hok.
  destruct cfg; unfold builder_in, vovnet27_slim, vovnet39, vovnet57, _vovnet in *;
    (destruct (VoVNet _ _ _ _ _) as [net|e]; [|done]); injection Hok as ->;
    cbn [rbind]; destruct (load_global _ _) as [[]|e]; try done; cbn [rbind];
    destruct (dict_getitem _ _) as [url|e]; try done; cbn [rbind];
    destruct (load_state_dict_from_url _ _) as [w|e]; try done; cbn [rbind];
    by destruct (load_state_dict _ _).
Qed.

Lemma built_safe (cfg : configuration) (net : VoVNet_object) :
  as_built net = built cfg → safe_net net = true.
Proof. intros H. eapply as_built_safe; [done|]. apply safe_vovnet. Qed.
End builders.

(** ** The forward pass of the three named networks *)

Section named_networks.
Lemma outputs_refs (h : heap) (refs : list (string * nat)) (t2 t3 t4 t5 : tensor) :
  Forall2 (same_entry h) refs [("res2", t2); ("res3", t3); ("res4", t4); ("res5", t5)] →
  ∃ l2 l3 l4 l5,
    refs = [("res2", l2); ("res3", l3); ("res4", l4); ("res5", l5)] ∧
    h !! l2 = Some t2 ∧ h !! l3 = Some t3 ∧ h !! l4 = Some t4 ∧ h !! l5 = Some t5.
Proof.
  intros H.
  apply Forall2_cons_inv_r in H as ([k2 l2] & r & [K2 P2] & H & ->).
  apply Forall2_cons_inv_r in H as ([k3 l3] & r' & [K3 P3] & H & ->).
  apply Forall2_cons_inv_r in H as ([k4 l4] & r'' & [K4 P4] & H & ->).
  apply Forall2_cons_inv_r in H as ([k5 l5] & r''' & [K5 P5] & H & ->).
  apply Forall2_nil_inv_r in H as ->.
  cbn in K2, K3, K4, K5, P2, P3, P4, P5. subst.
  exists l2, l3, l4, l5. done.
Qed.

(** Channel counts of res2..res5 as the builders' tables give them. *)
Definition res_channels (cfg : configuration) (k : nat) : Z := concat_channels cfg !!! k.

Lemma backbone_forward (cfg : configuration) (net : VoVNet_object)
    (h : heap) (l : nat) (x : tensor) (n hh ww : Z) :
  as_built net = built cfg →
  h !! l = Some x → size x = [n; 3; hh; ww] → 29 ≤ hh → 29 ≤ ww →
  frozen net = true ∨ (0 ≤ n ∧ n * res5_extent hh * res5_extent ww ≠ 1) →
  ∃ l2 l3 l4 l5 t2 t3 t4 t5 net' ext,
    VoVNet_forward (H := heap_memory) net l h
    = Ok (([("res2", l2); ("res3", l3); ("res4", l4); ("res5", l5)], net'), h ++ ext) ∧
    (h ++ ext) !! l2 = Some t2 ∧ (h ++ ext) !! l3 = Some t3 ∧
    (h ++ ext) !! l4 = Some t4 ∧ (h ++ ext) !! l5 = Some t5 ∧
    staged net x t2 t3 t4 t5 ∧
    size t2 = [n; res_channels cfg 0; res2_extent hh; res2_extent ww] ∧
    size t3 = [n; res_channels cfg 1; res3_extent hh; res3_extent ww] ∧
    size t4 = [n; res_channels cfg 2; res4_extent hh; res4_extent ww] ∧
    size t5 = [n; res_channels cfg 3; res5_extent hh; res5_extent ww].
Proof.
  intros Hnet Hl Hsz Hh Hw Hbatch.
  pose proof (built_safe cfg net Hnet) as Hsafe.
  assert (∃ t2 t3 t4 t5 net',
    VoVNet_value net x
    = Ok ([("res2", t2); ("res3", t3); ("res4", t4); ("res5", t5)], net') ∧
    staged net x t2 t3 t4 t5 ∧
    size t2 = [n; res_channels cfg 0; res2_extent hh; res2_extent ww] ∧
    size t3 = [n; res_channels cfg 1; res3_extent hh; res3_extent ww] ∧
    size t4 = [n; res_channels cfg 2; res4_extent hh; res4_extent ww] ∧
    size t5 = [n; res_channels cfg 3; res5_extent hh; res5_extent ww])
    as (t2 & t3 & t4 & t5 & net' & Hval & Hst & S2 & S3 & S4 & S5).
  { destruct cfg; unfold built in Hnet;
      cbn [stage_channels concat_channels blocks_per_stage] in Hnet;
      eapply vovnet_value; done || lia. }
  destruct (VoVNet_forward_heap net h l x _ net' Hsafe Hl Hval) as (refs & ext & Hrun & Hrefs).
  apply outputs_refs in Hrefs as (l2 & l3 & l4 & l5 & -> & P2 & P3 & P4 & P5).
  exists l2, l3, l4, l5, t2, t3, t4, t5, net', ext. done.
Qed.
End named_networks.

(** * The claims *)

(** Stand-ins for the two library functions, for concrete instances. *)
Definition sample_loader : string → bool → result state_dict := λ _ _, Ok [].
Definition sample_load_state_dict : VoVNet_object → state_dict → result VoVNet_object :=
  λ net _, Ok net.

(** A batch of two 224x224 RGB images, alone in the store. *)
Definition sample_image : tensor := TData [2; 3; 224; 224] "images".
Definition sample_heap : heap := [sample_image].

Lemma as_built_built (cfg : configuration) : as_built (built cfg) = built cfg.
Proof. destruct cfg; vm_compute; reflexivity. Qed.

(** C4.  For every named configuration, in any state of the network the
    builder returns, and for every batch of 3-channel images that is large
    enough for the three poolings, [VoVNet.forward] returns a dictionary
    with exactly the keys res2, res3, res4, res5, in this order; the
    tensors behind them are the outputs of stage2..stage5, each stage fed
    with the output of the one before it (stage2 with the stem's), and
    they are still intact when the pass returns; their channel counts are
    256, 512, 768, 1024 for the 39 and 57 configurations and
    128, 256, 384, 512 for the slim one. *)
Theorem C4_forward_outputs
    (load_state_dict_from_url : string → bool → result state_dict)
    (load_state_dict : VoVNet_object → state_dict → result VoVNet_object)
    (cfg : configuration) (progress : bool) (net : VoVNet_object)
    (h : heap) (l : nat) (x : tensor) (n hh ww : Z) :
  as_built net = built cfg →
  h !! l = Some x → size x = [n; 3; hh; ww] → 29 ≤ hh → 29 ≤ ww →
  frozen net = true ∨ (0 ≤ n ∧ n * res5_extent hh * res5_extent ww ≠ 1) →
  builder load_state_dict_from_url load_state_dict cfg false progress = Ok (built cfg) ∧
  ∃ l2 l3 l4 l5 t2 t3 t4 t5 net' ext,
    VoVNet_forward (H := heap_memory) net l h
    = Ok (([("res2", l2); ("res3", l3); ("res4", l4); ("res5", l5)], net'), h ++ ext) ∧
    (h ++ ext) !! l2 = Some t2 ∧ (h ++ ext) !! l3 = Some t3 ∧
    (h ++ ext) !! l4 = Some t4 ∧ (h ++ ext) !! l5 = Some t5 ∧
    staged net x t2 t3 t4 t5 ∧
    [channels t2; channels t3; channels t4; channels t5]
    = match cfg with
      | V27_slim => [Some 128; Some 256; Some 384; Some 512]
      | V39 | V57 => [Some 256; Some 512; Some 768; Some 1024]
      end.
Proof.
  intros Hnet Hl Hsz Hh Hw Hbatch. split; [apply builder_ok|].
  destruct (backbone_forward cfg net h l x n hh ww Hnet Hl Hsz Hh Hw Hbatch)
    as (l2 & l3 & l4 & l5 & t2 & t3 & t4 & t5 & net' & ext & Hrun & P2 & P3 & P4 & P5
        & Hst & S2 & S3 & S4 & S5).
  exists l2, l3, l4, l5, t2, t3, t4, t5, net', ext.
  split_and!; try done.
  unfold channels. rewrite S2, S3, S4, S5. by destruct cfg.
Qed.

Lemma C4_forward_outputs_witness :
  (as_built (built V39) = built V39 ∧
   sample_heap !! 0%nat = Some sample_image ∧
   size sample_image = [2; 3; 224; 224] ∧ 29 ≤ 224 ∧
   (0 ≤ 2 ∧ 2 * res5_extent 224 * res5_extent 224 ≠ 1)) ∧
  ∃ l2 l3 l4 l5 t2 t3 t4 t5 net' ext,
    VoVNet_forward (H := heap_memory) (built V39) 0%nat sample_heap
    = Ok (([("res2", l2); ("res3", l3); ("res4", l4); ("res5", l5)], net'),
          sample_heap ++ ext) ∧
    (sample_heap ++ ext) !! l2 = Some t2 ∧ (sample_heap ++ ext) !! l3 = Some t3 ∧
    (sample_heap ++ ext) !! l4 = Some t4 ∧ (sample_heap ++ ext) !! l5 = Some t5 ∧
    staged (built V39) sample_image t2 t3 t4 t5 ∧
    [channels t2; channels t3; channels t4; channels t5]
    = [Some 256; Some 512; Some 768; Some 1024].
Proof.
  assert (0 ≤ 2 ∧ 2 * res5_extent 224 * res5_extent 224 ≠ 1) as Hbatch
    by (split; [lia|by vm_compute]).
  split.
  - split_and!; [apply as_built_built|reflexivity|reflexivity|lia|lia|apply Hbatch].
  - apply (C4_forward_outputs sample_loader sample_load_state_dict V39 true (built V39)
             sample_heap 0%nat sample_image 2 224 224);
      [apply as_built_built|reflexivity|reflexivity|lia|lia|right; apply Hbatch].
Defined.



(** The stem as it is laid out. *)
Definition stem_listing : Sequential :=
  [ ("stem_1/conv", L_Conv2d (mkConv2d 3 64 3 2 1 1));
    ("stem_1/norm", L_BatchNorm2d (mkBatchNorm2d 64 true []));
    ("stem_1/relu", L_ReLU true);
    ("stem_2/conv", L_Conv2d (mkConv2d 64 64 3 1 1 1));
    ("stem_2/norm", L_BatchNorm2d (mkBatchNorm2d 64 true []));
    ("stem_2/relu", L_ReLU true);
    ("stem_3/conv", L_Conv2d (mkConv2d 64 128 3 2 1 1));
    ("stem_3/norm", L_BatchNorm2d (mkBatchNorm2d 128 true []));
    ("stem_3/relu", L_ReLU true) ].

(** C6.  In every named network the child "stem" is a container of exactly
    three 3x3 Conv-Norm-Act units with strides 2, 1, 2 and channels
    3 -> 64 -> 64 -> 128, and stage 2 is built for 128 input channels.  In
    any state, on a batch of 3-channel images, the stem returns a
    128-channel feature map whose extents are those of three padded 3x3
    convolutions with strides 2, 1, 2: a quarter of every input extent
    that is a multiple of 4. *)
Theorem C6_stem
    (load_state_dict_from_url : string → bool → result state_dict)
    (load_state_dict : VoVNet_object → state_dict → result VoVNet_object)
    (cfg : configuration) (progress : bool) (stem : Sequential)
    (h : heap) (l : nat) (x : tensor) (n hh ww : Z) :
  as_built_seq stem = stem_listing →
  h !! l = Some x → size x = [n; 3; hh; ww] → 1 ≤ hh → 1 ≤ ww →
  frozen_seq stem = true ∨ (0 ≤ n ∧ 5 ≤ hh) →
  (∃ net0 st2,
     builder load_state_dict_from_url load_state_dict cfg false progress = Ok net0 ∧
     lookup_key "stem" (modules net0) = Some (C_Sequential stem_listing) ∧
     lookup_key "stage2" (modules net0) = Some (C_OSA_stage st2) ∧
     _OSA_stage 128 (stage_channels cfg !!! 0%nat) (concat_channels cfg !!! 0%nat)
                (blocks_per_stage cfg !!! 0%nat) 5 2 = Ok st2) ∧
  (∃ l1 t1 stem' ext,
     Sequential_forward (H := heap_memory) stem l h = Ok ((l1, stem'), h ++ ext) ∧
     (h ++ ext) !! l1 = Some t1 ∧
     size t1 = [n; 128; stem_extent hh; stem_extent ww]) ∧
  (∀ e, stem_extent e = conv_out (conv_out (conv_out e 3 2 1) 3 1 1) 3 2 1) ∧
  (∀ e, e `mod` 4 = 0 → e = 4 * stem_extent e).
Proof.
  intros Hstem Hl Hsz Hh Hw Hbatch. split_and!.
  - exists (built cfg),
      (osa_stage 128 (stage_channels cfg !!! 0%nat) (concat_channels cfg !!! 0%nat)
                 (blocks_per_stage cfg !!! 0%nat) 5 2).
    split_and!; [apply builder_ok|by destruct cfg|by destruct cfg|].
    destruct cfg; cbn [stage_channels concat_channels blocks_per_stage];
      simpl (_ !!! _); by rewrite _OSA_stage_ok by lia.
  - assert (inplace_safe false stem = true) as Hsafe.
    { by rewrite <- inplace_safe_as_built, Hstem. }
    destruct (stem_value stem x n hh ww Hstem Hsz Hh Hw) as (t1 & stem' & Hval & S1).
    { destruct Hbatch as [Hf|[Hn Hhh]]; [by left|right].
      pose proof (conv_out_3_2_1 hh). pose proof (conv_out_3_2_1 ww).
      destruct (extents hh) as [Eh _]. destruct (extents ww) as [Ew _].
      split; apply batch_ok; lia. }
    destruct (refines_ok same_tensor h _ _ (t1, stem')
                (Sequential_refines_top stem h l x Hsafe Hl) Hval)
      as ([l1 s] & ext & Hrun & Hl1 & Hs). cbn in Hl1, Hs. subst s.
    exists l1, t1, stem', ext. done.
  - done.
  - intros e He. destruct (extents e) as [E _]. rewrite E. lia.
Qed.

Lemma C6_stem_witness :
  (as_built_seq stem_listing = stem_listing ∧
   sample_heap !! 0%nat = Some sample_image ∧
   size sample_image = [2; 3; 224; 224] ∧ 1 ≤ 224 ∧ (0 ≤ 2 ∧ 5 ≤ 224)) ∧
  ∃ l1 t1 stem' ext,
    Sequential_forward (H := heap_memory) stem_listing 0%nat sample_heap
    = Ok ((l1, stem'), sample_heap ++ ext) ∧
    (sample_heap ++ ext) !! l1 = Some t1 ∧
    size t1 = [2; 128; stem_extent 224; stem_extent 224].
Proof.
  split.
  - split_and!; [reflexivity|reflexivity|reflexivity|lia|lia|lia].
  - apply (C6_stem sample_loader sample_load_state_dict V39 true stem_listing
             sample_heap 0%nat sample_image 2 224 224);
      [reflexivity|reflexivity|reflexivity|lia|lia|right; lia].
Defined.

Section dictionaries_related.
Lemma same_entry_keys (h : heap) (refs : list (string * nat)) (outs : list (string * tensor)) :
  Forall2 (same_entry h) refs outs → refs.*1 = outs.*1.
Proof.
  induction 1 as [|[k l] [k' t] refs outs [Hk _] _ IH]; [done|].
  cbn in Hk. subst k'. cbn [fmap list_fmap fst]. by f_equal.
Qed.

Lemma same_entry_lookup (h : heap) (refs : list (string * nat))
    (outs : list (string * tensor)) (key : string) (l : nat) :
  Forall2 (same_entry h) refs outs → lookup_key key refs = Some l →
  ∃ t, lookup_key key outs = Some t ∧ h !! l = Some t.
Proof.
  induction 1 as [|[k l0] [k' t] refs outs [Hk Hp] _ IH]; [done|].
  cbn in Hk, Hp. subst k'. cbn [lookup_key].
  destruct (decide (k = key)); [|done]. intros [= ->]. eauto.
Qed.

Lemma same_entry_lookup_r (h : heap) (refs : list (string * nat))
    (outs : list (string * tensor)) (key : string) (t : tensor) :
  Forall2 (same_entry h) refs outs → lookup_key key outs = Some t →
  ∃ l, lookup_key key refs = Some l ∧ h !! l = Some t.
Proof.
  induction 1 as [|[k l0] [k' t'] refs outs [Hk Hp] _ IH]; [done|].
  cbn in Hk, Hp. subst k'. cbn [lookup_key].
  destruct (decide (k = key)); [|done]. intros [= ->]. eauto.
Qed.
End dictionaries_related.

(** C9.  In any state of a named network, when a forward pass on a stored
    input returns, the input is still what it was, and a second forward
    pass on the same input, on the object and the store the first pass
    left behind, returns a dictionary with the same keys whose tensors are
    equal, key by key, to those of the first pass (which are still
    intact). *)
Theorem C9_forward_deterministic (cfg : configuration) (net : VoVNet_object)
    (h : heap) (l : nat) (x : tensor)
    (refs1 : list (string * nat)) (net1 : VoVNet_object) (h1 : heap) :
  as_built net = built cfg →
  h !! l = Some x →
  VoVNet_forward (H := heap_memory) net l h = Ok ((refs1, net1), h1) →
  ∃ refs2 net2 h2,
    VoVNet_forward (H := heap_memory) net1 l h1 = Ok ((refs2, net2), h2) ∧
    h1 !! l = Some x ∧
    refs2.*1 = refs1.*1 ∧
    ∀ key l1, lookup_key key refs1 = Some l1 →
      ∃ l2 t, lookup_key key refs2 = Some l2 ∧
              h1 !! l1 = Some t ∧ h2 !! l1 = Some t ∧ h2 !! l2 = Some t.
Proof.
  intros Hnet Hl Hrun.
  pose proof (built_safe cfg net Hnet) as Hsafe.
  destruct (refines_ok_inv same_outputs h _ _ _ _ (VoVNet_refines net h l x Hsafe Hl) Hrun)
    as ([outs net1'] & ext & Hval & -> & Hrefs1 & Hn). cbn in Hrefs1, Hn. subst net1'.
  fold (VoVNet_value net x) in Hval.
  destruct (VoVNet_value_again net x outs net1 Hval) as [net2 Hval2].
  apply VoVNet_value_state in Hval as [Hstate _].
  assert (safe_net net1 = true) as Hsafe1.
  { apply (built_safe cfg). by rewrite Hstate. }
  pose proof (points_to_extend h ext l x Hl) as Hl1.
  destruct (VoVNet_forward_heap net1 (h ++ ext) l x outs net2 Hsafe1 Hl1 Hval2)
    as (refs2 & ext2 & Hrun2 & Hrefs2).
  exists refs2, net2, ((h ++ ext) ++ ext2). split_and!; [done|done| |].
  - transitivity (outs.*1); [exact (same_entry_keys _ _ _ Hrefs2)|].
    symmetry. exact (same_entry_keys _ _ _ Hrefs1).
  - intros key l1 Hk.
    destruct (same_entry_lookup _ _ _ _ _ Hrefs1 Hk) as (t & Hout & Ht).
    destruct (same_entry_lookup_r _ _ _ _ _ Hrefs2 Hout) as (l2 & Hk2 & Ht2).
    exists l2, t. split_and!; [done|done| |done]. by apply points_to_extend.
Qed.

Lemma C9_forward_deterministic_witness :
  ∃ refs1 net1 h1,
    (as_built (built V27_slim) = built V27_slim ∧
     sample_heap !! 0%nat = Some sample_image ∧
     VoVNet_forward (H := heap_memory) (built V27_slim) 0%nat sample_heap
     = Ok ((refs1, net1), h1)) ∧
    ∃ refs2 net2 h2,
      VoVNet_forward (H := heap_memory) net1 0%nat h1 = Ok ((refs2, net2), h2) ∧
      h1 !! 0%nat = Some sample_image ∧
      refs2.*1 = refs1.*1 ∧
      ∀ key l1, lookup_key key refs1 = Some l1 →
        ∃ l2 t, lookup_key key refs2 = Some l2 ∧
                h1 !! l1 = Some t ∧ h2 !! l1 = Some t ∧ h2 !! l2 = Some t.
Proof.
  assert (0 ≤ 2 ∧ 2 * res5_extent 224 * res5_extent 224 ≠ 1) as Hbatch
    by (split; [lia|by vm_compute]).
  destruct (backbone_forward V27_slim (built V27_slim) sample_heap 0%nat sample_image
              2 224 224 (as_built_built V27_slim) eq_refl eq_refl
              ltac:(lia) ltac:(lia) (or_intror Hbatch))
    as (l2 & l3 & l4 & l5 & t2 & t3 & t4 & t5 & net' & ext & Hrun & _).
  eexists _, net', _. split.
  - split_and!; [apply as_built_built|reflexivity|exact Hrun].
  - apply (C9_forward_deterministic V27_slim (built V27_slim) sample_heap 0%nat
             sample_image _ net' _ (as_built_built V27_slim) eq_refl Hrun).
Defined.

(** C1.  [VoVNet.output_shape] answers with 256, 512, 768, 1024 channels
    and strides 4, 8, 16, 32 whatever the tables of the network are; on the
    slim network the forward pass produces 128, 256, 384 and 512 channels
    under the same keys (extents 56, 28, 14, 7 for a 224x224 input). *)
Theorem C1_output_shape_slim
    (load_state_dict_from_url : string → bool → result state_dict)
    (load_state_dict : VoVNet_object → state_dict → result VoVNet_object) :
  ∃ net l2 l3 l4 l5 t2 t3 t4 t5 net' ext,
    vovnet27_slim module_names model_urls load_state_dict_from_url load_state_dict
                  false true = Ok net ∧
    VoVNet_output_shape net
    = [ ("res2", ShapeSpec.mk 256 4); ("res3", ShapeSpec.mk 512 8);
        ("res4", ShapeSpec.mk 768 16); ("res5", ShapeSpec.mk 1024 32) ] ∧
    VoVNet_forward (H := heap_memory) net 0%nat sample_heap
    = Ok (([("res2", l2); ("res3", l3); ("res4", l4); ("res5", l5)], net'),
          sample_heap ++ ext) ∧
    (sample_heap ++ ext) !! l2 = Some t2 ∧ (sample_heap ++ ext) !! l3 = Some t3 ∧
    (sample_heap ++ ext) !! l4 = Some t4 ∧ (sample_heap ++ ext) !! l5 = Some t5 ∧
    size t2 = [2; 128; 56; 56] ∧ size t3 = [2; 256; 28; 28] ∧
    size t4 = [2; 384; 14; 14] ∧ size t5 = [2; 512; 7; 7].
Proof.
  assert (0 ≤ 2 ∧ 2 * res5_extent 224 * res5_extent 224 ≠ 1) as Hbatch
    by (split; [lia|by vm_compute]).
  destruct (backbone_forward V27_slim (built V27_slim) sample_heap 0%nat sample_image
              2 224 224 (as_built_built V27_slim) eq_refl eq_refl
              ltac:(lia) ltac:(lia) (or_intror Hbatch))
    as (l2 & l3 & l4 & l5 & t2 & t3 & t4 & t5 & net' & ext & Hrun & P2 & P3 & P4 & P5
        & _ & S2 & S3 & S4 & S5).
  exists (built V27_slim), l2, l3, l4, l5, t2, t3, t4, t5, net', ext.
  split_and!; [|done..].
  apply (builder_ok load_state_dict_from_url load_state_dict V27_slim true).
Qed.


(** C8.  With the flag set, every builder of the module raises [NameError]:
    the name [load_state_dict_from_url] is bound nowhere in the module, and
    Python evaluates it before it evaluates [model_urls[arch]].  With the
    flag unset, the builder returns the network whatever the namespace and
    the weight-URL table hold. *)
Theorem C8_pretrained_builder
    (load_state_dict_from_url : string → bool → result state_dict)
    (load_state_dict : VoVNet_object → state_dict → result VoVNet_object)
    (cfg : configuration) (progress : bool) :
  builder load_state_dict_from_url load_state_dict cfg true progress
  = Raise (NameError "load_state_dict_from_url") ∧
  lookup_key "vovnet27_slim" model_urls = None ∧
  ∀ names urls,
    builder_in load_state_dict_from_url load_state_dict names urls cfg false progress
    = Ok (built cfg).
Proof.
  split_and!.
  - unfold builder. by rewrite builder_in_pretrained.
  - reflexivity.
  - intros names urls. apply builder_in_ok.
Qed.

(** Had the loader been imported, an architecture name without an entry
    in the table would raise [KeyError]. *)
Lemma unknown_arch_KeyError
    (load_state_dict_from_url : string → bool → result state_dict)
    (load_state_dict : VoVNet_object → state_dict → result VoVNet_object)
    (names : list string) (urls : list (string * string)) (arch : string)
    (config_stage_ch config_concat_ch block_per_stage : list Z) (lpb : Z)
    (progress : bool) (net : VoVNet_object) :
  "load_state_dict_from_url" ∈ names →
  lookup_key arch urls = None →
  VoVNet config_stage_ch config_concat_ch block_per_stage lpb 1000 = Ok net →
  _vovnet names urls load_state_dict_from_url load_state_dict arch
          config_stage_ch config_concat_ch block_per_stage lpb true progress
  = Raise (KeyError arch).
Proof.
  intros Hname Harch Hnet. unfold _vovnet. rewrite Hnet. cbn [rbind].
  unfold load_global. rewrite bool_decide_eq_true_2 by done. cbn [rbind].
  unfold dict_getitem. by rewrite Harch.
Qed.

(** ** The identity addition *)

(** The module without its residual connection: what [forward] computes
    before [if self.identity]. *)
Definition pre_add (m : OSA_module) : OSA_module :=
  mkOSA_module false (layers m) (concat m).

(** The exception of a failed [xt + identity_feat]. *)
Definition add_mismatch (e : exn) : Prop :=
  ∃ a b, e = RuntimeError (AddNotBroadcastable a b).

(** [reaches st x c xk]: in a forward pass of the stage [st] on [x], the
    child [c] is called, and it is called on [xk]. *)
Inductive reaches : OSA_stage → tensor → stage_child → tensor → Prop :=
  | reaches_here name c rest x :
      reaches ((name, c) :: rest) x c x
  | reaches_later name c rest x y c' d xk :
      stage_child_value c x = Ok (y, c') →
      reaches rest y d xk →
      reaches ((name, c) :: rest) x d xk.

(** A child of a stage, in any state, whose identity addition cannot fail:
    a pooling, or a module that is not in identity mode unless its input
    and output channel counts are equal. *)
Definition sound_child (kc : string * stage_child) : Prop :=
  match kc.2 with
  | SC_MaxPool2d _ => True
  | SC_OSA_module m =>
      ∃ in_ch stage_ch concat_ch lpb name id,
        as_built_module m = osa_module in_ch stage_ch concat_ch lpb name id ∧
        0 ≤ lpb ∧ (id = true → in_ch = concat_ch)
  end.

Section identity_addition.
Lemma OSA_module_value_pre_add m x :
  OSA_module_value m x
  = let? '(xt, m') := OSA_module_value (pre_add m) x in
    if identity m
    then let? sz := add_size (size xt) (size x) in
         Ok (TAdd sz xt x, mkOSA_module true (layers m') (concat m'))
    else Ok (xt, m').
Proof.
  rewrite !OSA_module_value_eq. cbn [pre_add identity layers concat].
  destruct (layers_loop_value _ _ _) as [[[z out] ls]|e]; [|done]. cbn [rbind].
  destruct (cat_size _) as [sz|e]; [|done]. cbn [rbind].
  destruct (Sequential_value _ _) as [[xt c']|e]; [|done]. cbn [rbind].
  destruct (identity m); [|done].
  by destruct (add_size _ _).
Qed.

Lemma cna_value_inv s i o k st p m pf v y s' :
  as_built_seq s = cna i o k st p m pf →
  Sequential_value s v = Ok (y, s') →
  ∃ n h w, size v = [n; i; h; w] ∧
           size y = [n; o; conv_out h k st p; conv_out w k st p].
Proof.
  intros (b & -> & Hnf)%as_built_cna_inv.
  rewrite Sequential_value_cons, Layer_value_conv.
  destruct (conv2d_size _ (size v)) as [r|] eqn:Hconv; [|done]. cbn [rbind].
  rewrite Sequential_value_cons, Layer_value_norm. unfold batch_norm_size. cbn [size].
  apply conv2d_size_inv in Hconv as [(n & h & w & Hv & ->)|(h & w & _ & ->)];
    cbn [in_channels out_channels kernel_size stride padding] in *; [|done].
  destruct (training b && _); [done|].
  destruct (decide _); [done|]. cbn [rbind].
  rewrite Sequential_value_cons, Layer_value_relu. cbn [rbind].
  rewrite Sequential_value_nil. cbn [rbind]. intros [= <- <-].
  by exists n, h, w.
Qed.

Lemma cat_size_inv (s : shape) (rest : list shape) (r : shape) :
  cat_size (s :: rest) = Ok r →
  (s = [0] ∧ (rest = [] → r = [0]))
  ∨ ∃ n c c' t, s = n :: c :: t ∧ r = n :: c' :: t ∧ (rest = [] → c' = c).
Proof.
  unfold cat_size. rewrite decide_False by done.
  destruct (decide _) as [|Hin]; [done|].
  destruct (decide (s = [0])) as [->|Hs].
  - rewrite filter_cons_False by (intros Hne; by apply Hne).
    intros Hr. left. split; [done|]. intros ->. cbn in Hr. by injection Hr.
  - rewrite filter_cons_True by done.
    destruct s as [|n [|c t]]; try done. cbn [rbind].
    destruct (cat_channels n t c _) as [c'|e] eqn:E; [|done]. cbn [rbind].
    intros [= <-]. right. exists n, c, c', t. split_and!; [done..|].
    intros ->. cbn in E. by injection E.
Qed.

Lemma layers_loop_value_inv ls : ∀ x out z out' ls',
  layers_loop_value ls x out = Ok (z, out', ls') →
  ∃ ys, out' = out ++ ys ∧ length ys = length ls ∧
        match ls with
        | [] => True
        | l :: _ => ∃ y l', Sequential_value l x = Ok (y, l')
        end.
Proof.
  induction ls as [|l ls IH]; intros x out z out' ls'.
  - rewrite layers_loop_value_nil. intros [= <- <- <-]. exists []. by rewrite app_nil_r.
  - rewrite layers_loop_value_cons.
    destruct (Sequential_value l x) as [[y l1]|e] eqn:E1; [|done]. cbn [rbind].
    destruct (layers_loop_value ls y (out ++ [y])) as [[[z2 o2] ls2]|e] eqn:E2; [|done].
    cbn [rbind]. intros [= <- <- <-].
    apply IH in E2 as (ys & -> & Hlen & _).
    exists (y :: ys). rewrite <- app_assoc. split_and!; [done|by cbn; rewrite Hlen|eauto].
Qed.

(** When the part of an OSA module before the addition returns, its input
    has the module's input channel count and its result has the same
    batch and spatial extents, with [concat_ch] channels. *)
Lemma pre_add_sizes m in_ch stage_ch concat_ch lpb name id x xt m' :
  as_built_module m = osa_module in_ch stage_ch concat_ch lpb name id →
  0 ≤ lpb →
  OSA_module_value (pre_add m) x = Ok (xt, m') →
  ∃ n h w, size x = [n; in_ch; h; w] ∧ size xt = [n; concat_ch; h; w].
Proof.
  intros Hm Hl. unfold as_built_module, osa_module in Hm.
  injection Hm as _ Hlayers Hconcat.
  unfold osa_layers, range in Hlayers. rewrite <- (Z2Nat.id lpb) in Hlayers by done.
  apply osa_layers_chain_units in Hlayers as [Hunits Hlen].
  rewrite OSA_module_value_eq. cbn [pre_add identity layers concat].
  destruct (layers_loop_value _ _ _) as [[[z out] ls]|e] eqn:E1; [|done]. cbn [rbind].
  destruct (cat_size _) as [sz|e] eqn:E2; [|done]. cbn [rbind].
  destruct (Sequential_value _ _) as [[xt' c']|e] eqn:E3; [|done]. cbn [rbind].
  intros [= <- <-].
  apply layers_loop_value_inv in E1 as (ys & -> & Hys & Hfirst).
  apply (cna_value_inv _ _ _ _ _ _ _ _ _ _ _ Hconcat) in E3 as (n & h & w & Hcat & Hxt).
  cbn [size] in Hcat. subst sz. rewrite !conv_out_1_1_0 in Hxt.
  cbn [app fmap list_fmap] in E2.
  apply cat_size_inv in E2 as [[Hx Hnil]|(n' & c & c1 & t & Hx & [= <- <- <-] & Hnil)].
  { exfalso. destruct (layers m) as [|l ls'].
    - cbn in Hlen. destruct ys; [|done]. by specialize (Hnil eq_refl).
    - destruct Hunits as [(m0 & pf & Hunit) _]. destruct Hfirst as (y & l' & Hy).
      apply (cna_value_inv _ _ _ _ _ _ _ _ _ _ _ Hunit) in Hy as (n0 & h0 & w0 & Hx0 & _).
      rewrite Hx in Hx0. done. }
  exists n, h, w. split; [|done]. rewrite Hx. do 2 f_equal.
  destruct (layers m) as [|l ls'].
  - cbn in Hlen. destruct ys; [|done]. rewrite <- Hnil by done.
    rewrite <- (Z2Nat.id lpb) by done. rewrite <- Hlen. cbn. lia.
  - destruct Hunits as [(m0 & pf & Hunit) _]. destruct Hfirst as (y & l' & Hy).
    apply (cna_value_inv _ _ _ _ _ _ _ _ _ _ _ Hunit) in Hy as (n0 & h0 & w0 & Hx0 & _).
    rewrite Hx in Hx0. by injection Hx0.
Qed.

(** In a module that is in identity mode only with equal channel counts,
    the two operands of the addition have the same size. *)
Lemma identity_operands m in_ch stage_ch concat_ch lpb name x xt m' :
  as_built_module m = osa_module in_ch stage_ch concat_ch lpb name true →
  0 ≤ lpb → in_ch = concat_ch →
  OSA_module_value (pre_add m) x = Ok (xt, m') →
  size xt = size x.
Proof.
  intros Hm Hl -> Hpre.
  destruct (pre_add_sizes m _ _ _ _ _ _ x xt m' Hm Hl Hpre) as (n & h & w & -> & ->).
  done.
Qed.
End identity_addition.

Section no_mismatch.
Lemma Layer_value_no_mismatch key l v e :
  Layer_value key l v = Raise e → ¬ add_mismatch e.
Proof.
  intros Hl (a & b & ->). destruct l as [c|bn|ip].
  - rewrite Layer_value_conv in Hl.
    assert (∀ n ch h w, conv2d_batched c n ch h w
                        ≠ Raise (RuntimeError (AddNotBroadcastable a b))) as Hb.
    { intros n ch h w. unfold conv2d_batched. by repeat case_decide. }
    unfold conv2d_size in Hl.
    destruct (size v) as [|x0 [|x1 [|x2 [|x3 [|]]]]]; try done; cbn [rbind] in Hl.
    + destruct (conv2d_batched c 1 x0 x1 x2) eqn:E; [done|].
      cbn [rbind] in Hl. injection Hl as ->. by apply Hb in E.
    + destruct (conv2d_batched c x0 x1 x2 x3) eqn:E; [done|].
      cbn [rbind] in Hl. injection Hl as ->. by apply Hb in E.
  - rewrite Layer_value_norm in Hl. unfold batch_norm_size in Hl.
    repeat case_match; simplify_eq/=.
  - by rewrite Layer_value_relu in Hl.
Qed.

Lemma Sequential_value_no_mismatch s : ∀ v e,
  Sequential_value s v = Raise e → ¬ add_mismatch e.
Proof.
  induction s as [|[key l] s IH]; intros v e; [done|].
  rewrite Sequential_value_cons.
  destruct (Layer_value key l v) as [[y l']|e'] eqn:E1.
  - cbn [rbind]. destruct (Sequential_value s y) as [[z s']|e''] eqn:E2; [done|].
    cbn [rbind]. intros [= <-]. by eapply IH.
  - cbn [rbind]. intros [= <-]. by eapply Layer_value_no_mismatch.
Qed.

Lemma layers_loop_value_no_mismatch ls : ∀ v out e,
  layers_loop_value ls v out = Raise e → ¬ add_mismatch e.
Proof.
  induction ls as [|l ls IH]; intros v out e; [done|].
  rewrite layers_loop_value_cons.
  destruct (Sequential_value l v) as [[y l']|e'] eqn:E1.
  - cbn [rbind].
    destruct (layers_loop_value ls y (out ++ [y])) as [[[z o] ls']|e''] eqn:E2; [done|].
    cbn [rbind]. intros [= <-]. by eapply IH.
  - cbn [rbind]. intros [= <-]. by eapply Sequential_value_no_mismatch.
Qed.

Lemma cat_channels_no_mismatch n t rest : ∀ c e,
  cat_channels n t c rest = Raise e → ¬ add_mismatch e.
Proof.
  induction rest as [|s rest IH]; intros c e; [done|].
  cbn [cat_channels]. repeat case_match; try (intros [= <-] (? & ? & [=])).
  apply IH.
Qed.

Lemma cat_size_no_mismatch szs : ∀ e, cat_size szs = Raise e → ¬ add_mismatch e.
Proof.
  intros e. unfold cat_size.
  repeat case_match; try done; try (intros [= <-] (? & ? & [=])).
  destruct (cat_channels _ _ _ _) as [c'|e'] eqn:E; [done|].
  cbn [rbind]. intros [= <-]. by eapply cat_channels_no_mismatch.
Qed.

(** A failed addition in an OSA module: the module is in identity mode,
    the part before the addition has returned, and the sizes of its result
    and of the module's input do not broadcast. *)
Lemma OSA_module_value_mismatch m x e :
  OSA_module_value m x = Raise e → add_mismatch e →
  identity m = true ∧
  ∃ xt m', OSA_module_value (pre_add m) x = Ok (xt, m') ∧
           add_size (size xt) (size x) = Raise e.
Proof.
  rewrite OSA_module_value_pre_add.
  destruct (OSA_module_value (pre_add m) x) as [[xt m']|e'] eqn:Epre.
  - cbn [rbind]. destruct (identity m); [|done].
    destruct (add_size (size xt) (size x)) as [sz|e'] eqn:Eadd; [done|].
    cbn [rbind]. intros [= <-] _. eauto.
  - cbn [rbind]. intros [= <-] Hm. exfalso.
    rewrite OSA_module_value_eq in Epre. cbn [pre_add identity layers concat] in Epre.
    destruct (layers_loop_value _ _ _) as [[[z out] ls]|e0] eqn:E1.
    2:{ cbn [rbind] in Epre. injection Epre as <-.
        by eapply layers_loop_value_no_mismatch. }
    cbn [rbind] in Epre. destruct (cat_size _) as [sz|e0] eqn:E2.
    2:{ cbn [rbind] in Epre. injection Epre as <-. by eapply cat_size_no_mismatch. }
    cbn [rbind] in Epre. destruct (Sequential_value _ _) as [[xt c']|e0] eqn:E3; [done|].
    cbn [rbind] in Epre. injection Epre as <-. by eapply Sequential_value_no_mismatch.
Qed.

(** For a module that [_OSA_module] builds with [layer_per_block >= 0], the
    addition can fail only in identity mode with unequal channel counts. *)
Lemma osa_module_mismatch m in_ch stage_ch concat_ch lpb name id x e :
  as_built_module m = osa_module in_ch stage_ch concat_ch lpb name id →
  0 ≤ lpb →
  OSA_module_value m x = Raise e → add_mismatch e →
  id = true ∧ in_ch ≠ concat_ch.
Proof.
  intros Hm Hl Hval He.
  destruct (OSA_module_value_mismatch m x e Hval He) as (Hid & xt & m' & Hpre & Hadd).
  assert (identity m = id) as Hid' by (by injection Hm).
  split; [congruence|]. intros ->.
  destruct (pre_add_sizes m _ _ _ _ _ _ x xt m' Hm Hl Hpre) as (n & h & w & Hx & Hxt).
  rewrite Hx, Hxt, add_size_same in Hadd. done.
Qed.

Lemma sound_stage_no_mismatch st : ∀ x e,
  Forall sound_child st →
  OSA_stage_value st x = Raise e → ¬ add_mismatch e.
Proof.
  induction st as [|[name c] st IH]; intros x e Hall; [done|].
  apply Forall_cons in Hall as [Hc Hall].
  rewrite OSA_stage_value_cons.
  destruct (stage_child_value c x) as [[y c']|e'] eqn:E1.
  - cbn [rbind]. destruct (OSA_stage_value st y) as [[z st']|e''] eqn:E2; [done|].
    cbn [rbind]. intros [= <-]. by eapply IH.
  - cbn [rbind]. intros [= <-] He. destruct c as [p|m].
    + rewrite stage_child_value_pool in E1.
      unfold max_pool2d_size, max_pool2d_planes, rbind in E1.
      destruct He as (a & b & ->). repeat case_match; simplify_eq/=.
    + rewrite stage_child_value_osa in E1.
      destruct (OSA_module_value m x) as [[y m']|e0] eqn:Em; [done|].
      injection E1 as <-.
      destruct Hc as (i & s & c & lpb & nm & id & Hm & Hl & Hid).
      destruct (osa_module_mismatch m i s c lpb nm id x e0 Hm Hl Em He) as [-> Hne].
      by apply Hne, Hid.
Qed.

Lemma reaches_elem st x c xk : reaches st x c xk → ∃ name, (name, c) ∈ st.
Proof.
  induction 1 as [name c rest x|name c rest x y c' d xk _ _ [name' IH]].
  - exists name. apply elem_of_cons. auto.
  - exists name'. apply elem_of_cons. auto.
Qed.

(** Every child of a stage that [_OSA_stage] builds is sound, in any
    state; the modules in identity mode are those built with [concat_ch]
    as input and output channel count. *)
Lemma osa_stage_sound st in_ch stage_ch concat_ch bps lpb s :
  as_built_stage st = osa_stage in_ch stage_ch concat_ch bps lpb s →
  0 ≤ lpb →
  Forall sound_child st ∧
  ∀ name m, (name, SC_OSA_module m) ∈ st → identity m = true →
    ∃ name', as_built_module m = osa_module concat_ch stage_ch concat_ch lpb name' true.
Proof.
  intros (m1 & ids & -> & Hm1 & Hids & _)%as_built_stage_inv Hl.
  assert (Forall sound_child ids) as Hsound.
  { eapply Forall_impl; [exact Hids|]. intros [k c] (m & nm & Hc & Hm). cbn in Hc.
    subst c. unfold sound_child. cbn [snd].
    exists concat_ch, stage_ch, concat_ch, lpb, nm, true. done. }
  split.
  - apply Forall_app. split.
    + unfold pooling. destruct (decide (s = 2)); repeat constructor.
    + constructor; [|done]. unfold sound_child. cbn [snd].
      exists in_ch, stage_ch, concat_ch, lpb, (osa_name s 1), false. done.
  - intros name m Hin Hid. apply elem_of_app in Hin as [Hin|Hin].
    { unfold pooling in Hin. destruct (decide (s = 2)).
      - by apply elem_of_nil in Hin.
      - apply list_elem_of_singleton in Hin. discriminate Hin. }
    apply elem_of_cons in Hin as [Heq|Hin].
    { injection Heq as -> ->.
      assert (identity m1 = false) by (by injection Hm1). congruence. }
    rewrite Forall_forall in Hids. destruct (Hids _ Hin) as (m' & nm & Hc & Hm').
    cbn in Hc. injection Hc as <-. eauto.
Qed.
End no_mismatch.

Section modules_on_the_heap.

Lemma osa_module_state_safe m in_ch stage_ch concat_ch lpb name id :
  as_built_module m = osa_module in_ch stage_ch concat_ch lpb name id →
  safe_module m = true.
Proof. intros H. by rewrite <- safe_module_as_built, H, safe_osa_module. Qed.

Lemma osa_stage_state_safe st in_ch stage_ch concat_ch bps lpb s :
  as_built_stage st = osa_stage in_ch stage_ch concat_ch bps lpb s →
  safe_stage st = true.
Proof. intros H. by rewrite <- safe_stage_as_built, H, safe_osa_stage. Qed.

Lemma OSA_module_forward_ok m (h : heap) (l : nat) (x y : tensor) m' :
  safe_module m = true → h !! l = Some x →
  OSA_module_value m x = Ok (y, m') →
  ∃ l' ext, _OSA_module_forward (H := heap_memory) m l h = Ok ((l', m'), h ++ ext) ∧
            (h ++ ext) !! l' = Some y.
Proof.
  intros Hsafe Hl Hval.
  destruct (refines_ok same_tensor h _ _ (y, m') (OSA_module_refines m h l x Hsafe Hl) Hval)
    as ([l' m1] & ext & Hrun & Hl' & Hm). cbn in Hl', Hm. subst m1. eauto.
Qed.

Lemma OSA_module_forward_raise m (h : heap) (l : nat) (x : tensor) e :
  safe_module m = true → h !! l = Some x →
  OSA_module_value m x = Raise e →
  _OSA_module_forward (H := heap_memory) m l h = Raise e.
Proof.
  intros Hsafe Hl Hval.
  exact (refines_raise same_tensor h _ _ e (OSA_module_refines m h l x Hsafe Hl) Hval).
Qed.

Lemma OSA_stage_forward_raise_inv st (h : heap) (l : nat) (x : tensor) e :
  safe_stage st = true → h !! l = Some x →
  _OSA_stage_forward (H := heap_memory) st l h = Raise e →
  OSA_stage_value st x = Raise e.
Proof.
  intros Hsafe Hl Hrun.
  exact (refines_raise_inv same_tensor h _ _ e (OSA_stage_refines st h l x Hsafe Hl) Hrun).
Qed.
End modules_on_the_heap.

(** C2.  [_OSA_module] builds L = layer_per_block 3x3 Conv-Norm-Act units
    (stride 1, padding 1), the first on [in_ch] channels and the others on
    [stage_ch], all producing [stage_ch] channels, and one 1x1
    Conv-Norm-Act unit from [in_ch + L * stage_ch] to [concat_ch] channels.
    In any state of the module, on a feature map with [in_ch] channels,
    the forward pass lets every unit read the output of the unit before
    it, concatenates the input and the L intermediate maps, in this order,
    into a map of [in_ch + L * stage_ch] channels, applies the 1x1 unit to
    it, which gives [concat_ch] channels, and returns the result (plus the
    input, in identity mode). *)
Theorem C2_osa_module (in_ch stage_ch concat_ch lpb : Z) (name : string) (id : bool)
    (m : OSA_module) (h : heap) (l : nat) (x : tensor) (n hh ww : Z) :
  1 ≤ in_ch → 1 ≤ stage_ch → 1 ≤ concat_ch → 0 ≤ lpb → has_dot name = false →
  (id = true → in_ch = concat_ch) →
  as_built_module m = osa_module in_ch stage_ch concat_ch lpb name id →
  h !! l = Some x → size x = [n; in_ch; hh; ww] → 1 ≤ hh → 1 ≤ ww →
  frozen_module m = true ∨ n * hh * ww ≠ 1 →
  _OSA_module in_ch stage_ch concat_ch lpb name id
  = Ok (osa_module in_ch stage_ch concat_ch lpb name id) ∧
  layers (osa_module in_ch stage_ch concat_ch lpb name id)
  = (λ i, cna (if decide (i = 0) then in_ch else stage_ch) stage_ch 3 1 1 name (pretty i))
      <$> range lpb ∧
  concat (osa_module in_ch stage_ch concat_ch lpb name id)
  = cna (in_ch + lpb * stage_ch) concat_ch 1 1 0 name "concat" ∧
  Z.of_nat (length (layers m)) = lpb ∧
  ∃ ys xt concat' l' m' ext,
    chained (layers m) x ys ∧
    Z.of_nat (length ys) = lpb ∧
    Forall (λ y, size y = [n; stage_ch; hh; ww]) ys ∧
    Sequential_value (concat m) (TCat [n; in_ch + lpb * stage_ch; hh; ww] (x :: ys))
    = Ok (xt, concat') ∧
    size xt = [n; concat_ch; hh; ww] ∧
    _OSA_module_forward (H := heap_memory) m l h = Ok ((l', m'), h ++ ext) ∧
    (h ++ ext) !! l' = Some (if id then TAdd [n; concat_ch; hh; ww] xt x else xt).
Proof.
  intros Hi Hs Hc Hlpb Hname Hid Hm Hl Hsz Hh Hw Hbatch.
  split_and!; [apply _OSA_module_ok; (done || lia)|done|done| |].
  - assert (length (as_built_seq <$> layers m) = Z.to_nat lpb) as Hlen.
    { unfold as_built_module, osa_module in Hm. injection Hm as _ -> _.
      unfold osa_layers. by rewrite length_fmap, range_length. }
    rewrite length_fmap in Hlen. lia.
  - destruct (osa_module_value m in_ch stage_ch concat_ch lpb name id x n hh ww
                Hm Hlpb Hi Hs Hc Hsz Hh Hw Hbatch)
      as (ys & xt & c' & m' & Hchain & Hlen & Hsizes & Hxt & Hxtsz & Hval).
    assert (OSA_module_value m x
            = Ok (if id then TAdd [n; concat_ch; hh; ww] xt x else xt, m')) as Hval'.
    { rewrite Hval. destruct id; [|done].
      rewrite Hid by done. by rewrite add_size_same. }
    destruct (OSA_module_forward_ok m h l x _ m' (osa_module_state_safe _ _ _ _ _ _ _ Hm)
                Hl Hval') as (l' & ext & Hrun & Hl').
    exists ys, xt, c', l', m', ext. done.
Qed.

Lemma C2_osa_module_witness :
  let m := osa_module 128 128 256 5 "OSA2_1" false in
  let x := TData [2; 128; 56; 56] "x" in
  (1 ≤ 128 ∧ 1 ≤ 256 ∧ 0 ≤ 5 ∧ has_dot "OSA2_1" = false ∧
   as_built_module m = m ∧ [x] !! 0%nat = Some x ∧
   size x = [2; 128; 56; 56] ∧ 1 ≤ 56 ∧ 2 * 56 * 56 ≠ 1) ∧
  ∃ ys xt concat' l' m' ext,
    chained (layers m) x ys ∧
    Z.of_nat (length ys) = 5 ∧
    Forall (λ y, size y = [2; 128; 56; 56]) ys ∧
    Sequential_value (concat m) (TCat [2; 128 + 5 * 128; 56; 56] (x :: ys))
    = Ok (xt, concat') ∧
    size xt = [2; 256; 56; 56] ∧
    _OSA_module_forward (H := heap_memory) m 0%nat [x] = Ok ((l', m'), [x] ++ ext) ∧
    ([x] ++ ext) !! l' = Some xt.
Proof.
  intros m x. split.
  - split_and!; try lia; reflexivity.
  - apply (C2_osa_module 128 128 256 5 "OSA2_1" false m [x] 0%nat x 2 56 56);
      try lia; try reflexivity; try done; right; lia.
Defined.

(** The OSA modules of a stage, in order. *)
Definition stage_modules (st : OSA_stage) : list OSA_module :=
  omap (λ kc, match kc.2 with
              | SC_OSA_module m => Some m
              | SC_MaxPool2d _ => None
              end) st.

(** C3.  For every stage index s, [_OSA_stage] with block_per_stage >= 1
    builds a container whose first child is a 3x3 stride-2 ceil-mode
    max-pool exactly when s is not 2, followed by exactly block_per_stage
    OSA modules and nothing else; the first module is built on the stage's
    input channel count, not in identity mode; every later module is built
    with [concat_ch] as input and output channel count, in identity
    mode. *)
Theorem C3_osa_stage (in_ch stage_ch concat_ch bps lpb s : Z) :
  0 ≤ in_ch → 0 ≤ stage_ch → 0 ≤ concat_ch → 0 ≤ lpb → 1 ≤ bps →
  ∃ st first others,
    _OSA_stage in_ch stage_ch concat_ch bps lpb s = Ok st ∧
    ((∃ name rest, st = (name, SC_MaxPool2d (mkMaxPool2d 3 2 true)) :: rest) ↔ s ≠ 2) ∧
    st.*2 = (if decide (s = 2) then [] else [SC_MaxPool2d (mkMaxPool2d 3 2 true)])
            ++ (SC_OSA_module <$> first :: others) ∧
    stage_modules st = first :: others ∧
    Z.of_nat (length (first :: others)) = bps ∧
    identity first = false ∧
    (∃ name, _OSA_module in_ch stage_ch concat_ch lpb name false = Ok first) ∧
    Forall (λ m, identity m = true ∧
                 ∃ name, _OSA_module concat_ch stage_ch concat_ch lpb name true = Ok m)
           others.
Proof.
  intros Hi Hs Hc Hl Hb.
  exists (osa_stage in_ch stage_ch concat_ch bps lpb s),
         (osa_module in_ch stage_ch concat_ch lpb (osa_name s 1) false),
         ((λ i, osa_module concat_ch stage_ch concat_ch lpb (osa_name s (i + 2)) true)
            <$> range (bps - 1)).
  split_and!.
  - by apply _OSA_stage_ok.
  - unfold osa_stage. destruct (decide (s = 2)) as [->|Hne]; cbn [app].
    + split; [|done]. by intros (name & rest & [=]).
    + split; [done|]. intros _. eauto.
  - unfold osa_stage. rewrite fmap_app. f_equal; [by destruct (decide (s = 2))|].
    cbn [fmap list_fmap snd]. f_equal. rewrite <- !list_fmap_compose.
    by apply list_fmap_ext.
  - unfold osa_stage, stage_modules. rewrite omap_app.
    assert (∀ (l0 : list Z),
      omap (λ kc : string * stage_child,
              match kc.2 with SC_OSA_module m => Some m | SC_MaxPool2d _ => None end)
           ((λ i, (osa_name s (i + 2),
                   SC_OSA_module (osa_module concat_ch stage_ch concat_ch lpb
                                             (osa_name s (i + 2)) true))) <$> l0)
      = (λ i, osa_module concat_ch stage_ch concat_ch lpb (osa_name s (i + 2)) true)
          <$> l0) as Hrest.
    { induction l0 as [|i l0 IH]; [done|]. cbn. by rewrite <- IH. }
    destruct (decide (s = 2)); cbn; by rewrite Hrest.
  - cbn [length]. rewrite length_fmap, range_length. lia.
  - done.
  - exists (osa_name s 1). by apply _OSA_module_ok; auto using osa_name_has_dot.
  - apply Forall_fmap, Forall_forall. intros i _. split; [done|].
    exists (osa_name s (i + 2)). by apply _OSA_module_ok; auto using osa_name_has_dot.
Qed.

Lemma C3_osa_stage_witness :
  (0 ≤ 512 ∧ 0 ≤ 192 ∧ 0 ≤ 768 ∧ 0 ≤ 5 ∧ 1 ≤ 2) ∧
  ∃ st first others,
    _OSA_stage 512 192 768 2 5 4 = Ok st ∧
    ((∃ name rest, st = (name, SC_MaxPool2d (mkMaxPool2d 3 2 true)) :: rest) ↔ 4 ≠ 2) ∧
    st.*2 = (if decide (4 = 2) then [] else [SC_MaxPool2d (mkMaxPool2d 3 2 true)])
            ++ (SC_OSA_module <$> first :: others) ∧
    stage_modules st = first :: others ∧
    Z.of_nat (length (first :: others)) = 2 ∧
    identity first = false ∧
    (∃ name, _OSA_module 512 192 768 5 name false = Ok first) ∧
    Forall (λ m, identity m = true ∧ ∃ name, _OSA_module 768 192 768 5 name true = Ok m)
           others.
Proof.
  split; [lia|]. apply (C3_osa_stage 512 192 768 2 5 4); lia.
Defined.




(** C10.  In a stage that [_OSA_stage] constructs, every module in
    identity mode is the one [_OSA_module] builds with [concat_ch] as input
    and as output channel count.  Hence, in any state of such a stage and
    on any input: whenever the forward pass reaches a module in identity
    mode and gets as far as the addition, the two operands have the same
    size and the addition returns; and the forward pass of the stage never
    raises the addition's error.  For a module built by [_OSA_module]
    directly, that error implies identity mode with [in_ch <> concat_ch],
    and such a module exists. *)
Theorem C10_identity_addition_safe (in_ch stage_ch concat_ch bps lpb s : Z)
    (st0 st : OSA_stage) (h : heap) (l : nat) (x : tensor) :
  0 ≤ in_ch → 0 ≤ stage_ch → 0 ≤ concat_ch → 0 ≤ lpb →
  _OSA_stage in_ch stage_ch concat_ch bps lpb s = Ok st0 →
  as_built_stage st = st0 →
  h !! l = Some x →
  (∀ name m, (name, SC_OSA_module m) ∈ st0 → identity m = true →
     _OSA_module concat_ch stage_ch concat_ch lpb name true = Ok m) ∧
  (∀ m xk xt m', reaches st x (SC_OSA_module m) xk → identity m = true →
     OSA_module_value (pre_add m) xk = Ok (xt, m') →
     size xt = size xk ∧ add_size (size xt) (size xk) = Ok (size xk)) ∧
  (∀ e, _OSA_stage_forward (H := heap_memory) st l h = Raise e → ¬ add_mismatch e) ∧
  (∀ i sc c lpb' name id m0 m x' e,
     0 ≤ i → 0 ≤ sc → 0 ≤ c → 0 ≤ lpb' → has_dot name = false →
     _OSA_module i sc c lpb' name id = Ok m0 → as_built_module m = m0 →
     OSA_module_value m x' = Raise e → add_mismatch e →
     id = true ∧ i ≠ c) ∧
  (∃ m e, _OSA_module 64 32 128 5 "OSA3_2" true = Ok m ∧
          OSA_module_value m (TData [2; 64; 28; 28] "x") = Raise e ∧ add_mismatch e).
Proof.
  intros Hi Hs Hc Hl Hbuild Hst Hx.
  rewrite _OSA_stage_ok in Hbuild by done. injection Hbuild as <-.
  destruct (osa_stage_sound st _ _ _ _ _ _ Hst Hl) as [Hsound Hids].
  split_and!.
  - intros name m Hin Hid. unfold osa_stage in Hin.
    apply elem_of_app in Hin as [Hin|Hin].
    { destruct (decide (s = 2)).
      - by apply elem_of_nil in Hin.
      - apply list_elem_of_singleton in Hin. discriminate Hin. }
    apply elem_of_cons in Hin as [Heq|Hin].
    { injection Heq as -> ->. discriminate Hid. }
    apply list_elem_of_fmap in Hin as (k & [= -> ->] & _).
    by apply _OSA_module_ok; auto using osa_name_has_dot.
  - intros m xk xt m' Hreach Hid Hpre.
    destruct (reaches_elem _ _ _ _ Hreach) as [name Hin].
    destruct (Hids name m Hin Hid) as [name' Hm].
    assert (size xt = size xk) as Heq
      by exact (identity_operands m _ _ _ _ _ xk xt m' Hm Hl eq_refl Hpre).
    split; [done|]. by rewrite Heq, add_size_same.
  - intros e Hrun.
    apply (sound_stage_no_mismatch st x e Hsound).
    exact (OSA_stage_forward_raise_inv st h l x e
             (osa_stage_state_safe _ _ _ _ _ _ _ Hst) Hx Hrun).
  - intros i sc c lpb' name id m0 m x' e Hi' Hs' Hc' Hl' Hname Hm0 Hm Hval He.
    rewrite _OSA_module_ok in Hm0 by done. injection Hm0 as <-.
    exact (osa_module_mismatch m i sc c lpb' name id x' e Hm Hl' Hval He).
  - eexists _, _. split; [by apply _OSA_module_ok|]. split.
    + vm_compute. reflexivity.
    + by eexists _, _.
Qed.

Lemma C10_identity_addition_safe_witness :
  let st := osa_stage 256 160 512 2 5 3 in
  let x := TData [2; 256; 56; 56] "x" in
  (0 ≤ 256 ∧ 0 ≤ 160 ∧ 0 ≤ 512 ∧ 0 ≤ 5 ∧
   _OSA_stage 256 160 512 2 5 3 = Ok st ∧ as_built_stage st = st ∧
   [x] !! 0%nat = Some x) ∧
  (∀ name m, (name, SC_OSA_module m) ∈ st → identity m = true →
     _OSA_module 512 160 512 5 name true = Ok m) ∧
  (∀ e, _OSA_stage_forward (H := heap_memory) st 0%nat [x] = Raise e → ¬ add_mismatch e).
Proof.
  intros st x.
  assert (_OSA_stage 256 160 512 2 5 3 = Ok st) as Hbuild by (apply _OSA_stage_ok; lia).
  assert (as_built_stage st = st) as Hst by (vm_compute; reflexivity).
  destruct (C10_identity_addition_safe 256 160 512 2 5 3 st st [x] 0%nat x
              ltac:(lia) ltac:(lia) ltac:(lia) ltac:(lia) Hbuild Hst eq_refl)
    as (Hids & _ & Hsafe & _).
  split; [split_and!; try lia; done|]. by split.
Defined.

(** * Further properties of the code *)

(** ** Edge cases of the constructors *)

Section stage_census.
Lemma stage_modules_app (s1 s2 : OSA_stage) :
  stage_modules (s1 ++ s2) = stage_modules s1 ++ stage_modules s2.
Proof. apply omap_app. Qed.

Lemma stage_modules_identity_blocks concat_ch stage_ch lpb s (ks : list Z) :
  stage_modules
    ((λ i, (osa_name s (i + 2),
            SC_OSA_module (osa_module concat_ch stage_ch concat_ch lpb
                                      (osa_name s (i + 2)) true))) <$> ks)
  = (λ i, osa_module concat_ch stage_ch concat_ch lpb (osa_name s (i + 2)) true) <$> ks.
Proof.
  induction ks as [|i ks IH]; [done|].
  cbn [fmap list_fmap]. unfold stage_modules in *. cbn [omap list_omap snd].
  f_equal. exact IH.
Qed.

Lemma stage_modules_osa_stage in_ch stage_ch concat_ch bps lpb s :
  stage_modules (osa_stage in_ch stage_ch concat_ch bps lpb s)
  = osa_module in_ch stage_ch concat_ch lpb (osa_name s 1) false
    :: ((λ i, osa_module concat_ch stage_ch concat_ch lpb (osa_name s (i + 2)) true)
          <$> range (bps - 1)).
Proof.
  unfold osa_stage. rewrite stage_modules_app.
  change (stage_modules (?a :: ?l)) with (stage_modules ([a] ++ l)).
  rewrite stage_modules_app, stage_modules_identity_blocks.
  by destruct (decide (s = 2)).
Qed.
End stage_census.

(** X1.  [_OSA_stage] always builds the first module, and the loop
    [for i in range(block_per_stage - 1)] adds nothing when
    [block_per_stage <= 1]: the stage holds max(1, block_per_stage) OSA
    modules, plus the pooling when the stage number is not 2.  With
    [block_per_stage] zero or negative the stage is the one built for 1: a
    single module, not in identity mode. *)
Theorem OSA_stage_module_count (in_ch stage_ch concat_ch bps lpb s : Z) (st : OSA_stage) :
  0 ≤ in_ch → 0 ≤ stage_ch → 0 ≤ concat_ch → 0 ≤ lpb →
  _OSA_stage in_ch stage_ch concat_ch bps lpb s = Ok st →
  Z.of_nat (length (stage_modules st)) = Z.max 1 bps ∧
  Z.of_nat (length st) = Z.max 1 bps + (if decide (s = 2) then 0 else 1) ∧
  (bps ≤ 1 →
   _OSA_stage in_ch stage_ch concat_ch 1 lpb s = Ok st ∧
   ∃ m, stage_modules st = [m] ∧ identity m = false).
Proof.
  intros Hi Hs Hc Hl Hst.
  rewrite _OSA_stage_ok in Hst by done. injection Hst as <-.
  split_and!.
  - rewrite stage_modules_osa_stage. cbn [length].
    rewrite length_fmap, range_length. lia.
  - unfold osa_stage. rewrite length_app. cbn [length].
    rewrite length_fmap, range_length. destruct (decide (s = 2)); cbn [length]; lia.
  - intros Hb. split.
    + rewrite _OSA_stage_ok by done. unfold osa_stage.
      by rewrite !range_nonpos by lia.
    + eexists. rewrite stage_modules_osa_stage, range_nonpos by lia. done.
Qed.

Lemma OSA_stage_module_count_witness :
  ∃ st, _OSA_stage 128 128 256 0 5 2 = Ok st ∧
        Z.of_nat (length (stage_modules st)) = 1 ∧
        Z.of_nat (length st) = 1 ∧
        _OSA_stage 128 128 256 1 5 2 = Ok st.
Proof.
  exists (osa_stage 128 128 256 0 5 2).
  assert (_OSA_stage 128 128 256 0 5 2 = Ok (osa_stage 128 128 256 0 5 2)) as Hst
    by (apply _OSA_stage_ok; lia).
  destruct (OSA_stage_module_count 128 128 256 0 5 2 _
              ltac:(lia) ltac:(lia) ltac:(lia) ltac:(lia) Hst) as (Hn & Hlen & Hone).
  split_and!; [done|exact Hn|exact Hlen|]. apply Hone. lia.
Defined.

Section rejected_inputs.
(** A Conv-Norm-Act unit with at least one output channel, in any state,
    rejects a feature map with another channel count than its convolution
    expects. *)
Lemma cna_value_wrong_channels s i o k st p m pf v n c h w :
  as_built_seq s = cna i o k st p m pf →
  1 ≤ o → 1 ≤ st → 0 ≤ p →
  size v = [n; c; h; w] → c ≠ i →
  Sequential_value s v = Raise (RuntimeError (InputChannelMismatch i c)).
Proof.
  intros (b & -> & _)%as_built_cna_inv Ho Hst Hp Hsz Hc.
  rewrite Sequential_value_cons, Layer_value_conv.
  by rewrite Hsz, conv2d_size_mismatch by done.
Qed.


End rejected_inputs.

(** X2.  With a negative [layer_per_block] the loop of [_OSA_module] builds
    no 3x3 unit, but the 1x1 unit is still sized for
    [in_ch + layer_per_block * stage_ch] input channels.  When that number,
    [in_ch] and [concat_ch] are positive, the constructor returns such a
    module without an error, and the forward pass of the module it
    returns, which concatenates the input alone, fails at the convolution
    of the 1x1 unit on every input with [in_ch] channels. *)
Theorem OSA_module_negative_layers (in_ch stage_ch concat_ch lpb : Z) (name : string)
    (id : bool) (h : heap) (l : nat) (x : tensor) (n hh ww : Z) :
  lpb < 0 → stage_ch ≠ 0 → 1 ≤ in_ch → 1 ≤ in_ch + lpb * stage_ch → 1 ≤ concat_ch →
  has_dot name = false →
  h !! l = Some x → size x = [n; in_ch; hh; ww] →
  ∃ m, _OSA_module in_ch stage_ch concat_ch lpb name id = Ok m ∧
       layers m = [] ∧
       concat m = cna (in_ch + lpb * stage_ch) concat_ch 1 1 0 name "concat" ∧
       _OSA_module_forward (H := heap_memory) m l h
       = Raise (RuntimeError (InputChannelMismatch (in_ch + lpb * stage_ch) in_ch)).
Proof.
  intros Hlpb Hs Hi Hsum Hc Hname Hl Hsz.
  exists (mkOSA_module id [] (cna (in_ch + lpb * stage_ch) concat_ch 1 1 0 name "concat")).
  split_and!; [|done..|].
  - unfold _OSA_module. rewrite range_nonpos by lia.
    cbn [for_in rbind]. rewrite conv1x1_ok by lia. cbn [rbind].
    by rewrite Sequential_of_cna by done.
  - apply (OSA_module_forward_raise _ h l x); [done|done|].
    rewrite OSA_module_value_eq. cbn [layers concat identity].
    rewrite layers_loop_value_nil. cbn [rbind fmap list_fmap].
    rewrite Hsz, cat_size_single. cbn [rbind].
    rewrite (cna_value_wrong_channels _ (in_ch + lpb * stage_ch) concat_ch 1 1 0
               name "concat" _ n in_ch hh ww); [done| |done..|nia].
    unfold as_built_seq, cna. done.
Qed.

Lemma OSA_module_negative_layers_witness :
  let x := TData [2; 128; 56; 56] "x" in
  ∃ m, _OSA_module 128 64 256 (-1) "OSA2_1" false = Ok m ∧
       layers m = [] ∧
       _OSA_module_forward (H := heap_memory) m 0%nat [x]
       = Raise (RuntimeError (InputChannelMismatch 64 128)).
Proof.
  intros x.
  destruct (OSA_module_negative_layers 128 64 256 (-1) "OSA2_1" false [x] 0%nat x 2 56 56
              ltac:(lia) ltac:(lia) ltac:(lia) ltac:(lia) ltac:(lia) eq_refl eq_refl eq_refl)
    as (m & Hm & Hlayers & _ & Hrun).
  exists m. split_and!; [exact Hm|exact Hlayers|exact Hrun].
Defined.





(** ** The tables of [VoVNet.__init__] *)

Section tables.



End tables.



(** [self.classifier = c]: the child registered as "classifier" is
    replaced (or added, if there is none). *)
Definition with_classifier (c : VoVNet_child) (net : VoVNet_object) : VoVNet_object :=
  mkVoVNet (setitem "classifier" c (modules net)) (stage_names net).

Ltac key_is_fresh :=
  cbn [fmap list_fmap fst app]; rewrite ?elem_of_cons, ?elem_of_nil;
  intros Hin; repeat destruct Hin as [Hin|Hin]; try done; discriminate Hin.

(** X6.  Tables with more than four entries are accepted.  The stages are
    built from the first four entries of each table, so that the network
    is the one built from the truncated tables, with one difference: the
    classifier takes its input width from [config_concat_ch[-1]], the last
    entry of the table as given, not from the width of res5. *)
Theorem VoVNet_long_tables (config_stage_ch config_concat_ch block_per_stage : list Z)
    (layer_per_block num_classes last_ch : Z) :
  (4 ≤ length config_stage_ch)%nat → (4 ≤ length config_concat_ch)%nat →
  (4 ≤ length block_per_stage)%nat →
  Forall (λ c, 0 ≤ c) config_stage_ch → Forall (λ c, 0 ≤ c) config_concat_ch →
  0 ≤ layer_per_block → 0 ≤ num_classes →
  last config_concat_ch = Some last_ch →
  VoVNet config_stage_ch config_concat_ch block_per_stage layer_per_block num_classes
  = Ok (with_classifier (C_Linear (mkLinear last_ch num_classes))
          (vovnet (take 4 config_stage_ch) (take 4 config_concat_ch)
                  (take 4 block_per_stage) layer_per_block num_classes)).
Proof.
  intros Hls Hlc Hlb Hs Hc Hl Hn Hlast.
  assert (0 ≤ last_ch) as Hlast0.
  { apply last_Some in Hlast as [front ->].
    apply Forall_app in Hc as [_ Hc]. by apply Forall_cons in Hc as [? _]. }
  destruct config_stage_ch as [|s0 [|s1 [|s2 [|s3 srest]]]]; try (cbn in Hls; lia).
  destruct config_concat_ch as [|c0 [|c1 [|c2 [|c3 crest]]]]; try (cbn in Hlc; lia).
  destruct block_per_stage as [|b0 [|b1 [|b2 [|b3 brest]]]]; try (cbn in Hlb; lia).
  rewrite !Forall_cons in Hs, Hc.
  destruct Hs as (Hs0 & Hs1 & Hs2 & Hs3 & _).
  destruct Hc as (Hc0 & Hc1 & Hc2 & Hc3 & _).
  unfold VoVNet, vovnet, with_classifier.
  rewrite !conv3x3_ok by lia. cbn [rbind].
  change (cna 3 64 3 2 1 "stem" "1" ++ cna 64 64 3 1 1 "stem" "2"
          ++ cna 64 128 3 2 1 "stem" "3") with stem_layers.
  rewrite Sequential_of_stem. cbn [rbind].
  rewrite add_module_fresh; [|done|apply not_elem_of_nil].
  rewrite range_4.
  cbn [rbind app for_in droplast removelast take]. unfold getitem.
  simpl (_ !! _). cbn [rbind].
  change ("stage" +:+ pretty (0 + 2)) with "stage2".
  change ("stage" +:+ pretty (1 + 2)) with "stage3".
  change ("stage" +:+ pretty (2 + 2)) with "stage4".
  change ("stage" +:+ pretty (3 + 2)) with "stage5".
  rewrite _OSA_stage_ok by lia. cbn [rbind].
  rewrite add_module_fresh; [|done|key_is_fresh]. cbn [rbind app].
  rewrite _OSA_stage_ok by lia. cbn [rbind].
  rewrite add_module_fresh; [|done|key_is_fresh]. cbn [rbind app].
  rewrite _OSA_stage_ok by lia. cbn [rbind].
  rewrite add_module_fresh; [|done|key_is_fresh]. cbn [rbind app].
  rewrite _OSA_stage_ok by lia. cbn [rbind].
  rewrite add_module_fresh; [|done|key_is_fresh]. cbn [rbind app].
  unfold getlast. rewrite Hlast. cbn [rbind]. unfold nn_Linear.
  rewrite decide_False by lia. cbn [rbind].
  rewrite add_module_fresh; [|done|key_is_fresh]. cbn [rbind app]. done.
Qed.

Lemma VoVNet_long_tables_witness :
  VoVNet [128; 160; 192; 224; 256] [256; 512; 768; 1024; 2048] [1; 1; 2; 2; 3] 5 1000
  = Ok (with_classifier (C_Linear (mkLinear 2048 1000))
          (vovnet [128; 160; 192; 224] [256; 512; 768; 1024] [1; 1; 2; 2] 5 1000)).
Proof.
  apply (VoVNet_long_tables [128; 160; 192; 224; 256] [256; 512; 768; 1024; 2048]
           [1; 1; 2; 2; 3] 5 1000 2048);
    try (cbn [length]; lia); try reflexivity; repeat constructor; lia.
Defined.

(** ** What [VoVNet.forward] leaves alone *)

Section classifier_unused.
Context `{Memory}.

Lemma setitem_comm {A : Type} (k k' : string) (v v' a : A) (d : list (string * A)) :
  k ≠ k' → lookup_key k d = Some a →
  setitem k v (setitem k' v' d) = setitem k' v' (setitem k v d).
Proof.
  intros Hne. induction d as [|[k0 v0] d IH]; [done|]. cbn [lookup_key setitem].
  destruct (decide (k0 = k)) as [->|Hk].
  - intros _. rewrite (decide_False (P := k = k')) by done. cbn [setitem].
    by rewrite (decide_True (P := k = k)), (decide_False (P := k = k')) by done.
  - intros Hd. destruct (decide (k0 = k')) as [->|Hk']; cbn [setitem].
    + by rewrite (decide_False (P := k' = k)), (decide_True (P := k' = k')) by done.
    + rewrite (decide_False (P := k0 = k)), (decide_False (P := k0 = k')) by done.
      by rewrite IH.
Qed.

(** Calling another child than the classifier commutes with replacing the
    classifier. *)
Lemma call_with_classifier (c : VoVNet_child) (net : VoVNet_object) (name : string)
    (x : ref) (s : mem) :
  name ≠ "classifier" →
  call (with_classifier c net) name x s
  = match call net name x s with
    | Ok ((y, net'), s') => Ok ((y, with_classifier c net'), s')
    | Raise e => Raise e
    end.
Proof.
  intros Hne. unfold call, with_classifier. cbn [modules stage_names].
  rewrite lookup_key_setitem_ne by done.
  destruct (lookup_key name (modules net)) as [ch|] eqn:Hch; [|done].
  unfold ebind. destruct (VoVNet_child_forward name ch x s) as [[[y ch'] s']|e]; [|done].
  unfold eret. cbn [modules stage_names]. do 4 f_equal.
  by eapply setitem_comm.
Qed.
End classifier_unused.

(** X7.  [VoVNet.forward] never calls [self.classifier]: whatever is
    registered under that name, the pass ends the same way, with the same
    exception or with the same outputs, the same store and the same state
    of all other children, and the classifier itself is as it was. *)
Theorem forward_ignores_classifier (c : VoVNet_child) (net : VoVNet_object)
    (l : nat) (h : heap) :
  VoVNet_forward (H := heap_memory) (with_classifier c net) l h
  = match VoVNet_forward (H := heap_memory) net l h with
    | Ok ((outputs, net'), h') => Ok ((outputs, with_classifier c net'), h')
    | Raise e => Raise e
    end.
Proof.
  unfold VoVNet_forward, ebind.
  rewrite (call_with_classifier (H := heap_memory)) by done.
  destruct (call (H := heap_memory) net "stem" l h) as [[[x1 net1] h1]|e]; [|done].
  rewrite (call_with_classifier (H := heap_memory)) by done.
  destruct (call (H := heap_memory) net1 "stage2" x1 h1) as [[[x2 net2] h2]|e]; [|done].
  rewrite (call_with_classifier (H := heap_memory)) by done.
  destruct (call (H := heap_memory) net2 "stage3" x2 h2) as [[[x3 net3] h3]|e]; [|done].
  rewrite (call_with_classifier (H := heap_memory)) by done.
  destruct (call (H := heap_memory) net3 "stage4" x3 h3) as [[[x4 net4] h4]|e]; [|done].
  rewrite (call_with_classifier (H := heap_memory)) by done.
  destruct (call (H := heap_memory) net4 "stage5" x4 h4) as [[[x5 net5] h5]|e]; [|done].
  done.
Qed.

(** X8.  Every [nn.ReLU] of the network works in place, yet a forward pass
    that returns overwrites no tensor of the caller's store of
    activations, that is, the input and any other tensor held outside the
    network: the store it leaves is the store it found, followed by the
    tensors it allocated, and every returned reference points into it.
    The tensors that the network owns are not in this store, and they are
    not all left alone: the buffers of the [BatchNorm2d] layers exist
    before the call and a pass in training mode overwrites them.  Nothing
    else of the network changes: with the state of its [BatchNorm2d]
    layers set aside, the network after the pass is the network before
    it. *)
Theorem forward_preserves_store
    (config_stage_ch config_concat_ch block_per_stage : list Z)
    (layer_per_block num_classes : Z) (net0 net : VoVNet_object)
    (h : heap) (l : nat) (x : tensor)
    (refs : list (string * nat)) (net' : VoVNet_object) (h' : heap) :
  length config_stage_ch = 4%nat → length config_concat_ch = 4%nat →
  length block_per_stage = 4%nat →
  Forall (λ c, 0 ≤ c) config_stage_ch → Forall (λ c, 0 ≤ c) config_concat_ch →
  0 ≤ layer_per_block → 0 ≤ num_classes →
  VoVNet config_stage_ch config_concat_ch block_per_stage layer_per_block num_classes
  = Ok net0 →
  as_built net = net0 →
  h !! l = Some x →
  VoVNet_forward (H := heap_memory) net l h = Ok ((refs, net'), h') →
  (∃ ext, h' = h ++ ext) ∧
  (∀ i t, h !! i = Some t → h' !! i = Some t) ∧
  Forall (λ kr, is_Some (h' !! kr.2)) refs ∧
  as_built net' = as_built net.
Proof.
  intros Hls Hlc Hlb Hs Hc Hlpb Hnc Hnet0 Hnet Hl Hrun.
  rewrite VoVNet_ok in Hnet0 by done. injection Hnet0 as <-.
  assert (safe_net net = true) as Hsafe
    by (eapply as_built_safe; [exact Hnet|apply safe_vovnet]).
  destruct (refines_ok_inv same_outputs h _ _ _ _ (VoVNet_refines net h l x Hsafe Hl) Hrun)
    as ([outs net1] & ext & Hval & -> & Hrefs & Hn). cbn [fst] in Hrefs.
  cbn [snd] in Hn. subst net1.
  change (VoVNet_value net x = Ok (outs, net')) in Hval.
  split_and!.
  - by exists ext.
  - intros i t Hi. by apply points_to_extend.
  - clear Hrun Hval. induction Hrefs as [|[k r] [k' t] refs outs [_ Hr] _ IH];
      [constructor|]. constructor; [|done]. cbn [snd] in *. by exists t.
  - by destruct (VoVNet_value_state net x outs net' Hval).
Qed.

Lemma forward_preserves_store_witness :
  ∃ refs net' h',
    VoVNet_forward (H := heap_memory) (built V27_slim) 0%nat sample_heap
    = Ok ((refs, net'), h') ∧
    (∃ ext, h' = sample_heap ++ ext) ∧
    (∀ i t, sample_heap !! i = Some t → h' !! i = Some t) ∧
    Forall (λ kr, is_Some (h' !! kr.2)) refs ∧
    as_built net' = as_built (built V27_slim).
Proof.
  assert (0 ≤ 2 ∧ 2 * res5_extent 224 * res5_extent 224 ≠ 1) as Hbatch
    by (split; [lia|by vm_compute]).
  destruct (backbone_forward V27_slim (built V27_slim) sample_heap 0%nat sample_image
              2 224 224 (as_built_built V27_slim) eq_refl eq_refl
              ltac:(lia) ltac:(lia) (or_intror Hbatch))
    as (l2 & l3 & l4 & l5 & t2 & t3 & t4 & t5 & net' & ext & Hrun & _).
  eexists _, net', _. split; [exact Hrun|].
  apply (forward_preserves_store [64; 80; 96; 112] [128; 256; 384; 512] [1; 1; 1; 1]
           5 1000 (built V27_slim) (built V27_slim) sample_heap 0%nat sample_image
           _ net' _ eq_refl eq_refl eq_refl);
    [repeat constructor; lia|repeat constructor; lia|lia|lia| | |reflexivity|exact Hrun].
  - apply VoVNet_ok; try reflexivity; try lia; repeat constructor; lia.
  - apply as_built_built.
Defined.

(** ** Evaluation mode *)

Section evaluation_mode.
Lemma setitem_same {A : Type} (k : string) (v : A) (d : list (string * A)) :
  lookup_key k d = Some v → setitem k v d = d.
Proof.
  induction d as [|[k' v'] d IH]; [done|]. cbn [lookup_key setitem].
  destruct (decide (k' = k)) as [->|Hne]; [by intros [= ->]|].
  intros Hd. by rewrite IH.
Qed.

Lemma Layer_value_frozen key l v y l' :
  frozen_layer l = true → Layer_value key l v = Ok (y, l') → l' = l.
Proof.
  destruct l as [c|b|ip]; cbn [frozen_layer].
  - intros _. rewrite Layer_value_conv. destruct (conv2d_size _ _); [|done].
    by intros [= _ <-].
  - intros Hb. rewrite Layer_value_norm. destruct (batch_norm_size _ _); [|done].
    destruct (training b); [done|]. by intros [= _ <-].
  - intros _. rewrite Layer_value_relu. by intros [= _ <-].
Qed.

Lemma Sequential_value_frozen s : ∀ v y s',
  frozen_seq s = true → Sequential_value s v = Ok (y, s') → s' = s.
Proof.
  induction s as [|[key l] s IH]; intros v y s'.
  - rewrite Sequential_value_nil. by intros _ [= _ <-].
  - unfold frozen_seq. cbn [forallb snd]. intros [Hl Hs]%andb_prop.
    rewrite Sequential_value_cons.
    destruct (Layer_value key l v) as [[y1 l1]|e] eqn:E1; [|done]. cbn [rbind].
    destruct (Sequential_value s y1) as [[y2 s2]|e] eqn:E2; [|done]. cbn [rbind].
    intros [= _ <-].
    by rewrite (Layer_value_frozen _ _ _ _ _ Hl E1), (IH _ _ _ Hs E2).
Qed.

Lemma layers_loop_value_frozen ls : ∀ v out y out' ls',
  forallb frozen_seq ls = true →
  layers_loop_value ls v out = Ok (y, out', ls') → ls' = ls.
Proof.
  induction ls as [|s ls IH]; intros v out y out' ls'.
  - rewrite layers_loop_value_nil. by intros _ [= _ _ <-].
  - cbn [forallb]. intros [Hs Hls]%andb_prop. rewrite layers_loop_value_cons.
    destruct (Sequential_value s v) as [[y1 s1]|e] eqn:E1; [|done]. cbn [rbind].
    destruct (layers_loop_value ls y1 _) as [[[y2 o2] ls2]|e] eqn:E2; [|done].
    cbn [rbind]. intros [= _ _ <-].
    by rewrite (Sequential_value_frozen _ _ _ _ Hs E1), (IH _ _ _ _ _ Hls E2).
Qed.

Lemma OSA_module_value_frozen m v y m' :
  frozen_module m = true → OSA_module_value m v = Ok (y, m') → m' = m.
Proof.
  unfold frozen_module. intros [Hls Hc]%andb_prop. rewrite OSA_module_value_eq.
  destruct (layers_loop_value _ _ _) as [[[z out] ls']|e] eqn:E1; [|done]. cbn [rbind].
  destruct (cat_size _) as [sz|e]; [|done]. cbn [rbind].
  destruct (Sequential_value _ _) as [[xt c']|e] eqn:E2; [|done]. cbn [rbind].
  rewrite (layers_loop_value_frozen _ _ _ _ _ _ Hls E1),
          (Sequential_value_frozen _ _ _ _ Hc E2).
  destruct (identity m) eqn:Hid.
  - destruct (add_size _ _); [|done]. cbn [rbind]. intros [= _ <-].
    destruct m. by cbn in *; subst.
  - cbn [rbind]. intros [= _ <-]. destruct m. by cbn in *; subst.
Qed.
End evaluation_mode.

Section evaluation_mode_net.
Lemma OSA_stage_value_frozen st : ∀ v y st',
  frozen_stage st = true → OSA_stage_value st v = Ok (y, st') → st' = st.
Proof.
  induction st as [|[name c] st IH]; intros v y st'.
  - rewrite OSA_stage_value_nil. by intros _ [= _ <-].
  - unfold frozen_stage. cbn [forallb snd]. intros [Hc Hst]%andb_prop.
    rewrite OSA_stage_value_cons.
    destruct (stage_child_value c v) as [[y1 c1]|e] eqn:E1; [|done]. cbn [rbind].
    destruct (OSA_stage_value st y1) as [[y2 st2]|e] eqn:E2; [|done]. cbn [rbind].
    intros [= _ <-]. rewrite (IH _ _ _ Hst E2). do 2 f_equal.
    destruct c as [p|m].
    + rewrite stage_child_value_pool in E1.
      destruct (max_pool2d_size _ _); [|done]. by injection E1 as _ <-.
    + rewrite stage_child_value_osa in E1.
      destruct (OSA_module_value m v) as [[y' m']|e] eqn:Em; [|done].
      injection E1 as _ <-. by rewrite (OSA_module_value_frozen _ _ _ _ Hc Em).
Qed.

Lemma child_value_frozen name c v y c' :
  match c with
  | C_Sequential s => frozen_seq s | C_OSA_stage s => frozen_stage s | C_Linear _ => true
  end = true →
  child_value name c v = Ok (y, c') → c' = c.
Proof.
  destruct c as [s|s|lin]; cbn [child_value]; intros Hf.
  - destruct (Sequential_value s v) as [[y1 s1]|e] eqn:E; [|done].
    intros [= _ <-]. by rewrite (Sequential_value_frozen _ _ _ _ Hf E).
  - destruct (OSA_stage_value s v) as [[y1 s1]|e] eqn:E; [|done].
    intros [= _ <-]. by rewrite (OSA_stage_value_frozen _ _ _ _ Hf E).
  - destruct (linear_size _ _); [|done]. by intros [= _ <-].
Qed.

Lemma call_value_frozen net name v y net' :
  frozen net = true → call_value net name v = Ok (y, net') → net' = net.
Proof.
  intros Hf. rewrite call_value_eq.
  destruct (lookup_key name (modules net)) as [c|] eqn:Hc; [|done].
  destruct (child_value name c v) as [[y1 c1]|e] eqn:E; [|done]. cbn [rbind].
  intros [= _ <-].
  assert (c1 = c) as ->.
  { eapply child_value_frozen; [|exact E].
    unfold frozen in Hf. rewrite forallb_forall in Hf.
    apply lookup_key_Some_elem, list_elem_of_In in Hc. exact (Hf _ Hc). }
  rewrite setitem_same by done. by destruct net.
Qed.

Lemma VoVNet_value_frozen net v outs net' :
  frozen net = true → VoVNet_value net v = Ok (outs, net') → net' = net.
Proof.
  intros Hf. rewrite VoVNet_value_eq.
  destruct (call_value net "stem" v) as [[x1 n1]|e] eqn:E1; [|done]. cbn [rbind].
  apply (call_value_frozen _ _ _ _ _ Hf) in E1 as ->.
  destruct (call_value net "stage2" x1) as [[x2 n2]|e] eqn:E2; [|done]. cbn [rbind].
  apply (call_value_frozen _ _ _ _ _ Hf) in E2 as ->.
  destruct (call_value net "stage3" x2) as [[x3 n3]|e] eqn:E3; [|done]. cbn [rbind].
  apply (call_value_frozen _ _ _ _ _ Hf) in E3 as ->.
  destruct (call_value net "stage4" x3) as [[x4 n4]|e] eqn:E4; [|done]. cbn [rbind].
  apply (call_value_frozen _ _ _ _ _ Hf) in E4 as ->.
  destruct (call_value net "stage5" x4) as [[x5 n5]|e] eqn:E5; [|done]. cbn [rbind].
  apply (call_value_frozen _ _ _ _ _ Hf) in E5 as ->.
  by intros [= _ <-].
Qed.
End evaluation_mode_net.

(** X9.  In evaluation mode (no [BatchNorm2d] in training mode) a forward
    pass has no effect on the network: the object it leaves behind is the
    object it was called on, running statistics included.  This holds in
    any state of a network built by [VoVNet]. *)
Theorem forward_eval_mode_pure
    (config_stage_ch config_concat_ch block_per_stage : list Z)
    (layer_per_block num_classes : Z) (net0 net : VoVNet_object)
    (h : heap) (l : nat) (x : tensor)
    (refs : list (string * nat)) (net' : VoVNet_object) (h' : heap) :
  length config_stage_ch = 4%nat → length config_concat_ch = 4%nat →
  length block_per_stage = 4%nat →
  Forall (λ c, 0 ≤ c) config_stage_ch → Forall (λ c, 0 ≤ c) config_concat_ch →
  0 ≤ layer_per_block → 0 ≤ num_classes →
  VoVNet config_stage_ch config_concat_ch block_per_stage layer_per_block num_classes
  = Ok net0 →
  as_built net = net0 →
  frozen net = true →
  h !! l = Some x →
  VoVNet_forward (H := heap_memory) net l h = Ok ((refs, net'), h') →
  net' = net.
Proof.
  intros Hls Hlc Hlb Hs Hc Hlpb Hnc Hnet0 Hnet Hf Hl Hrun.
  rewrite VoVNet_ok in Hnet0 by done. injection Hnet0 as <-.
  assert (safe_net net = true) as Hsafe
    by (eapply as_built_safe; [exact Hnet|apply safe_vovnet]).
  destruct (refines_ok_inv same_outputs h _ _ _ _ (VoVNet_refines net h l x Hsafe Hl) Hrun)
    as ([outs net1] & ext & Hval & _ & _ & Hn). cbn [snd] in Hn. subst net1.
  exact (VoVNet_value_frozen net x outs net' Hf Hval).
Qed.

Lemma forward_eval_mode_pure_witness :
  let net := train false (built V27_slim) in
  ∃ refs net' h',
    frozen net = true ∧
    VoVNet_forward (H := heap_memory) net 0%nat sample_heap = Ok ((refs, net'), h') ∧
    net' = net.
Proof.
  intros net.
  assert (as_built net = built V27_slim) as Hnet by (vm_compute; reflexivity).
  assert (frozen net = true) as Hf by (vm_compute; reflexivity).
  destruct (backbone_forward V27_slim net sample_heap 0%nat sample_image
              2 224 224 Hnet eq_refl eq_refl ltac:(lia) ltac:(lia) (or_introl Hf))
    as (l2 & l3 & l4 & l5 & t2 & t3 & t4 & t5 & net' & ext & Hrun & _).
  eexists _, net', _. split; [exact Hf|]. split; [exact Hrun|].
  apply (forward_eval_mode_pure [64; 80; 96; 112] [128; 256; 384; 512] [1; 1; 1; 1]
           5 1000 (built V27_slim) net sample_heap 0%nat sample_image
           [("res2", l2); ("res3", l3); ("res4", l4); ("res5", l5)] net'
           (sample_heap ++ ext) eq_refl eq_refl eq_refl);
    [repeat constructor; lia|repeat constructor; lia|lia|lia| |exact Hnet|exact Hf
    |reflexivity|exact Hrun].
  apply VoVNet_ok; try reflexivity; try lia; repeat constructor; lia.
Defined.

(** ** Sizes for arbitrary tables *)

Section stages_on_the_heap.
Lemma OSA_stage_forward_ok st (h : heap) (l : nat) (x y : tensor) st' :
  safe_stage st = true → h !! l = Some x →
  OSA_stage_value st x = Ok (y, st') →
  ∃ l' ext, _OSA_stage_forward (H := heap_memory) st l h = Ok ((l', st'), h ++ ext) ∧
            (h ++ ext) !! l' = Some y.
Proof.
  intros Hsafe Hl Hval.
  destruct (refines_ok same_tensor h _ _ (y, st') (OSA_stage_refines st h l x Hsafe Hl) Hval)
    as ([l' st1] & ext & Hrun & Hl' & Hst). cbn in Hl', Hst. subst st1. eauto.
Qed.

Lemma OSA_stage_forward_raise st (h : heap) (l : nat) (x : tensor) e :
  safe_stage st = true → h !! l = Some x →
  OSA_stage_value st x = Raise e →
  _OSA_stage_forward (H := heap_memory) st l h = Raise e.
Proof.
  intros Hsafe Hl Hval.
  exact (refines_raise same_tensor h _ _ e (OSA_stage_refines st h l x Hsafe Hl) Hval).
Qed.
End stages_on_the_heap.

(** X10.  A stage built by [_OSA_stage] with positive channel counts
    [in_ch], [stage_ch] and [concat_ch], in any state, maps a feature map
    with [in_ch] channels to one with [concat_ch] channels, whatever the
    value of [stage_ch], the number of blocks and the number of layers
    are.  Stage 2 keeps the spatial extents; every other stage halves them
    rounding down: for the 3x3 stride-2 pooling without padding, ceil mode
    gives floor(h / 2).  The halved extents must be at least 1. *)
Theorem OSA_stage_output_size (in_ch stage_ch concat_ch bps lpb s : Z)
    (st0 st : OSA_stage) (h : heap) (l : nat) (x : tensor) (n hh ww : Z) :
  1 ≤ in_ch → 1 ≤ stage_ch → 1 ≤ concat_ch → 0 ≤ lpb →
  _OSA_stage in_ch stage_ch concat_ch bps lpb s = Ok st0 →
  as_built_stage st = st0 →
  h !! l = Some x → size x = [n; in_ch; hh; ww] →
  let oh := if decide (s = 2) then hh else hh `div` 2 in
  let ow := if decide (s = 2) then ww else ww `div` 2 in
  1 ≤ oh → 1 ≤ ow →
  frozen_stage st = true ∨ n * oh * ow ≠ 1 →
  ∃ l' st' ext y,
    _OSA_stage_forward (H := heap_memory) st l h = Ok ((l', st'), h ++ ext) ∧
    (h ++ ext) !! l' = Some y ∧
    size y = [n; concat_ch; oh; ow].
Proof.
  intros Hi Hs Hc Hl Hst0 Hst Hx Hsz oh ow Hoh How Hbatch.
  rewrite _OSA_stage_ok in Hst0 by (done || lia). injection Hst0 as <-.
  destruct (osa_stage_value st in_ch stage_ch concat_ch bps lpb s x n hh ww
              Hst Hl Hi Hs Hc Hsz Hoh How Hbatch) as (y & st' & Hval & Hy).
  destruct (OSA_stage_forward_ok st h l x y st'
              (osa_stage_state_safe _ _ _ _ _ _ _ Hst) Hx Hval) as (l' & ext & Hrun & Hl').
  by exists l', st', ext, y.
Qed.

Lemma OSA_stage_output_size_witness :
  let st := osa_stage 256 160 512 1 5 3 in
  let x := TData [2; 256; 57; 56] "x" in
  _OSA_stage 256 160 512 1 5 3 = Ok st ∧
  ∃ l' st' ext y,
    _OSA_stage_forward (H := heap_memory) st 0%nat [x] = Ok ((l', st'), [x] ++ ext) ∧
    ([x] ++ ext) !! l' = Some y ∧
    size y = [2; 512; 28; 28].
Proof.
  intros st x.
  assert (_OSA_stage 256 160 512 1 5 3 = Ok st) as Hst by (apply _OSA_stage_ok; lia).
  assert (as_built_stage st = st) as Hb by (vm_compute; reflexivity).
  split; [exact Hst|].
  apply (OSA_stage_output_size 256 160 512 1 5 3 st st [x] 0%nat x 2 57 56
           ltac:(lia) ltac:(lia) ltac:(lia) ltac:(lia) Hst Hb eq_refl eq_refl).
  - vm_compute. discriminate.
  - vm_compute. discriminate.
  - right. vm_compute. discriminate.
Defined.



(** ** Inputs that the backbone rejects *)

Section rejected_by_the_backbone.
(** The forward pass of a network with the children that [VoVNet]
    registers, written over its children. *)
Lemma VoVNet_value_children net stem st2 st3 st4 st5 lin x :
  modules net = [ ("stem", C_Sequential stem); ("stage2", C_OSA_stage st2);
                  ("stage3", C_OSA_stage st3); ("stage4", C_OSA_stage st4);
                  ("stage5", C_OSA_stage st5); ("classifier", C_Linear lin) ] →
  VoVNet_value net x
  = let? '(t1, stem') := Sequential_value stem x in
    let? '(t2, st2') := OSA_stage_value st2 t1 in
    let? '(t3, st3') := OSA_stage_value st3 t2 in
    let? '(t4, st4') := OSA_stage_value st4 t3 in
    let? '(t5, st5') := OSA_stage_value st5 t4 in
    Ok ([("res2", t2); ("res3", t3); ("res4", t4); ("res5", t5)],
        mkVoVNet [ ("stem", C_Sequential stem'); ("stage2", C_OSA_stage st2');
                   ("stage3", C_OSA_stage st3'); ("stage4", C_OSA_stage st4');
                   ("stage5", C_OSA_stage st5'); ("classifier", C_Linear lin) ]
                 (stage_names net)).
Proof.
  intros Hmods. rewrite VoVNet_value_eq.
  rewrite call_value_eq, Hmods. cbn [lookup_key]. rewrite decide_True by done.
  cbn [child_value].
  destruct (Sequential_value stem x) as [[t1 stem']|e]; [|done]. cbn [rbind].
  rewrite call_value_eq. cbn [modules stage_names setitem].
  rewrite decide_True by done. cbn [lookup_key].
  rewrite decide_False by done. rewrite decide_True by done. cbn [child_value].
  destruct (OSA_stage_value st2 t1) as [[t2 st2']|e]; [|done]. cbn [rbind].
  rewrite call_value_eq. cbn [modules stage_names setitem].
  rewrite decide_False by done. rewrite decide_True by done. cbn [lookup_key].
  rewrite !decide_False by done. rewrite decide_True by done. cbn [child_value].
  destruct (OSA_stage_value st3 t2) as [[t3 st3']|e]; [|done]. cbn [rbind].
  rewrite call_value_eq. cbn [modules stage_names setitem].
  rewrite !decide_False by done. rewrite decide_True by done. cbn [lookup_key].
  rewrite !decide_False by done. rewrite decide_True by done. cbn [child_value].
  destruct (OSA_stage_value st4 t3) as [[t4 st4']|e]; [|done]. cbn [rbind].
  rewrite call_value_eq. cbn [modules stage_names setitem].
  rewrite !decide_False by done. rewrite decide_True by done. cbn [lookup_key].
  rewrite !decide_False by done. rewrite decide_True by done. cbn [child_value].
  destruct (OSA_stage_value st5 t4) as [[t5 st5']|e]; [|done]. cbn [rbind].
  cbn [modules stage_names setitem].
  rewrite !decide_False by done. by rewrite decide_True by done.
Qed.
End rejected_by_the_backbone.

Section small_inputs.




End small_inputs.

(** X12.  The stem is built for 3-channel images.  On a batch with any
    other channel count the forward pass raises the channel mismatch of
    the first stem convolution, in any state of the network. *)
Theorem VoVNet_wrong_channels (s0 s1 s2 s3 c0 c1 c2 c3 b0 b1 b2 b3 lpb nc : Z)
    (net0 net : VoVNet_object) (h : heap) (l : nat) (x : tensor) (n c hh ww : Z) :
  0 ≤ s0 → 0 ≤ s1 → 0 ≤ s2 → 0 ≤ s3 → 0 ≤ c0 → 0 ≤ c1 → 0 ≤ c2 → 0 ≤ c3 →
  0 ≤ lpb → 0 ≤ nc →
  VoVNet [s0; s1; s2; s3] [c0; c1; c2; c3] [b0; b1; b2; b3] lpb nc = Ok net0 →
  as_built net = net0 →
  h !! l = Some x → size x = [n; c; hh; ww] → c ≠ 3 →
  VoVNet_forward (H := heap_memory) net l h
  = Raise (RuntimeError (InputChannelMismatch 3 c)).
Proof.
  intros Hs0 Hs1 Hs2 Hs3 Hc0 Hc1 Hc2 Hc3 Hlpb Hnc Hnet0 Hnet Hl Hsz Hc.
  rewrite VoVNet_ok in Hnet0 by (try done; repeat constructor; done).
  injection Hnet0 as <-.
  assert (safe_net net = true) as Hsafe
    by (eapply as_built_safe; [exact Hnet|apply safe_vovnet]).
  apply (VoVNet_forward_heap_raise net h l x _ Hsafe Hl).
  apply as_built_vovnet_inv in Hnet
    as (stem & st2 & st3 & st4 & st5 & lin & Hmods & Hstem & _).
  rewrite (VoVNet_value_children _ _ _ _ _ _ _ _ Hmods).
  unfold stem_layers, as_built_seq in Hstem.
  apply fmap_app_inv in Hstem as (u1 & r & H1 & _ & ->). symmetry in H1.
  rewrite Sequential_value_app.
  by rewrite (cna_value_wrong_channels u1 3 64 3 2 1 "stem" "1" x n c hh ww H1
                ltac:(lia) ltac:(lia) ltac:(lia) Hsz Hc).
Qed.

Lemma VoVNet_wrong_channels_witness :
  let x := TData [2; 1; 224; 224] "grey" in
  VoVNet [64; 80; 96; 112] [128; 256; 384; 512] [1; 1; 1; 1] 5 1000
  = Ok (built V27_slim) ∧
  VoVNet_forward (H := heap_memory) (built V27_slim) 0%nat [x]
  = Raise (RuntimeError (InputChannelMismatch 3 1)).
Proof.
  intros x.
  assert (VoVNet [64; 80; 96; 112] [128; 256; 384; 512] [1; 1; 1; 1] 5 1000
          = Ok (built V27_slim)) as Hnet
    by (apply VoVNet_ok; try reflexivity; try lia; repeat constructor; lia).
  split; [exact Hnet|].
  apply (VoVNet_wrong_channels 64 80 96 112 128 256 384 512 1 1 1 1 5 1000
           (built V27_slim) (built V27_slim) [x] 0%nat x 2 1 224 224
           ltac:(lia) ltac:(lia) ltac:(lia) ltac:(lia) ltac:(lia) ltac:(lia)
           ltac:(lia) ltac:(lia) ltac:(lia) ltac:(lia) Hnet (as_built_built V27_slim)
           eq_refl eq_refl ltac:(lia)).
Defined.



(** ** Training mode on a single small image *)

Section training_mode.





End training_mode.

Section training_mode_net.





End training_mode_net.



(** ** The initialisation loop of [VoVNet.__init__] *)

(** What [isinstance] can tell about a module met by [self.modules()]. *)
Inductive module_kind : Type :=
  | K_Conv2d | K_BatchNorm2d | K_ReLU | K_MaxPool2d | K_Linear
  | K_container.   (* Sequential, ModuleList, _OSA_module, _OSA_stage, VoVNet *)

#[global] Instance module_kind_eq_dec : EqDecision module_kind.
Proof. solve_decision. Defined.

Inductive init_call : Type :=
  | kaiming_normal_weight          (* nn.init.kaiming_normal_(m.weight) *)
  | constant_weight (v : Z)        (* nn.init.constant_(m.weight, v) *)
  | constant_bias (v : Z).         (* nn.init.constant_(m.bias, v) *)

#[global] Instance init_call_eq_dec : EqDecision init_call.
Proof. solve_decision. Defined.











Section counting.
Context {A : Type} `{EqDecision A}.
Implicit Types (a : A) (l : list A).



End counting.

Section census.




End census.

Section census_net.

End census_net.



(** ** The registered builder *)



(** ** Batches tracked *)

(** The buffer [num_batches_tracked] of a [BatchNorm2d]. *)
Definition num_batches_tracked (b : BatchNorm2d) : nat := length (running b).

(** A number read off every [BatchNorm2d] of a network, in the order of
    [self.modules()]. *)
Section per_norm.
Variable f : BatchNorm2d → nat.

Definition per_norm_layer (l : Layer) : list nat :=
  match l with
  | L_BatchNorm2d b => [f b]
  | L_Conv2d _ | L_ReLU _ => []
  end.

Definition per_norm_seq (s : Sequential) : list nat :=
  mjoin ((λ kl, per_norm_layer kl.2) <$> s).

Definition per_norm_module (m : OSA_module) : list nat :=
  mjoin (per_norm_seq <$> layers m) ++ per_norm_seq (concat m).

Definition per_norm_stage_child (c : stage_child) : list nat :=
  match c with
  | SC_MaxPool2d _ => []
  | SC_OSA_module m => per_norm_module m
  end.

Definition per_norm_stage (st : OSA_stage) : list nat :=
  mjoin ((λ kc, per_norm_stage_child kc.2) <$> st).

Definition per_norm_child (c : VoVNet_child) : list nat :=
  match c with
  | C_Sequential s => per_norm_seq s
  | C_OSA_stage st => per_norm_stage st
  | C_Linear _ => []
  end.

Definition per_norm (net : VoVNet_object) : list nat :=
  mjoin ((λ kc, per_norm_child kc.2) <$> modules net).
End per_norm.

(** What [num_batches_tracked] must be after one more forward pass. *)
Definition after_one_pass (b : BatchNorm2d) : nat :=
  if training b then S (num_batches_tracked b) else num_batches_tracked b.

Section batches_tracked.
Lemma Layer_value_tracked key l v y l' :
  Layer_value key l v = Ok (y, l') →
  per_norm_layer num_batches_tracked l' = per_norm_layer after_one_pass l.
Proof.
  destruct l as [c|b|ip].
  - rewrite Layer_value_conv. destruct (conv2d_size _ _); [|done]. by intros [= _ <-].
  - rewrite Layer_value_norm. destruct (batch_norm_size _ _); [|done].
    intros [= _ <-]. cbn [per_norm_layer]. unfold after_one_pass, num_batches_tracked.
    destruct (training b); [|done]. cbn [running]. rewrite length_app. cbn [length].
    f_equal. lia.
  - rewrite Layer_value_relu. by intros [= _ <-].
Qed.

Lemma Sequential_value_tracked s : ∀ v y s',
  Sequential_value s v = Ok (y, s') →
  per_norm_seq num_batches_tracked s' = per_norm_seq after_one_pass s.
Proof.
  induction s as [|[key l] s IH]; intros v y s'.
  - rewrite Sequential_value_nil. by intros [= _ <-].
  - rewrite Sequential_value_cons.
    destruct (Layer_value key l v) as [[y1 l1]|e] eqn:E1; [|done]. cbn [rbind].
    destruct (Sequential_value s y1) as [[y2 s2]|e] eqn:E2; [|done]. cbn [rbind].
    intros [= _ <-]. unfold per_norm_seq in *. rewrite !fmap_cons. cbn [snd].
    change (mjoin (?a :: ?r)) with (a ++ mjoin r).
    by rewrite (Layer_value_tracked _ _ _ _ _ E1), (IH _ _ _ E2).
Qed.

Lemma layers_loop_value_tracked ls : ∀ v out y out' ls',
  layers_loop_value ls v out = Ok (y, out', ls') →
  mjoin (per_norm_seq num_batches_tracked <$> ls')
  = mjoin (per_norm_seq after_one_pass <$> ls).
Proof.
  induction ls as [|s ls IH]; intros v out y out' ls'.
  - rewrite layers_loop_value_nil. by intros [= _ _ <-].
  - rewrite layers_loop_value_cons.
    destruct (Sequential_value s v) as [[y1 s1]|e] eqn:E1; [|done]. cbn [rbind].
    destruct (layers_loop_value ls y1 _) as [[[y2 o2] ls2]|e] eqn:E2; [|done].
    cbn [rbind]. intros [= _ _ <-]. rewrite !fmap_cons.
    change (mjoin (?a :: ?r)) with (a ++ mjoin r).
    by rewrite (Sequential_value_tracked _ _ _ _ E1), (IH _ _ _ _ _ E2).
Qed.

Lemma OSA_module_value_tracked m v y m' :
  OSA_module_value m v = Ok (y, m') →
  per_norm_module num_batches_tracked m' = per_norm_module after_one_pass m.
Proof.
  rewrite OSA_module_value_eq.
  destruct (layers_loop_value _ _ _) as [[[z out] ls']|e] eqn:E1; [|done]. cbn [rbind].
  destruct (cat_size _) as [sz|e]; [|done]. cbn [rbind].
  destruct (Sequential_value _ _) as [[xt c']|e] eqn:E2; [|done]. cbn [rbind].
  assert (per_norm_module num_batches_tracked (mkOSA_module (identity m) ls' c')
          = per_norm_module after_one_pass m) as Hgoal.
  { unfold per_norm_module. cbn [layers concat].
    by rewrite (layers_loop_value_tracked _ _ _ _ _ _ E1),
               (Sequential_value_tracked _ _ _ _ E2). }
  destruct (identity m).
  - destruct (add_size _ _); [|done]. cbn [rbind]. by intros [= _ <-].
  - cbn [rbind]. by intros [= _ <-].
Qed.

Lemma OSA_stage_value_tracked st : ∀ v y st',
  OSA_stage_value st v = Ok (y, st') →
  per_norm_stage num_batches_tracked st' = per_norm_stage after_one_pass st.
Proof.
  induction st as [|[name c] st IH]; intros v y st'.
  - rewrite OSA_stage_value_nil. by intros [= _ <-].
  - rewrite OSA_stage_value_cons.
    destruct (stage_child_value c v) as [[y1 c1]|e] eqn:E1; [|done]. cbn [rbind].
    destruct (OSA_stage_value st y1) as [[y2 st2]|e] eqn:E2; [|done]. cbn [rbind].
    intros [= _ <-]. unfold per_norm_stage in *. rewrite !fmap_cons. cbn [snd].
    change (mjoin (?a :: ?r)) with (a ++ mjoin r).
    rewrite (IH _ _ _ E2). f_equal.
    destruct c as [p|m].
    + rewrite stage_child_value_pool in E1.
      destruct (max_pool2d_size _ _); [|done]. by injection E1 as _ <-.
    + rewrite stage_child_value_osa in E1.
      destruct (OSA_module_value m v) as [[y' m']|e] eqn:Em; [|done].
      injection E1 as _ <-. cbn [per_norm_stage_child].
      exact (OSA_module_value_tracked _ _ _ _ Em).
Qed.
End batches_tracked.

(** X17.  A forward pass that returns has sent exactly one batch through
    every [BatchNorm2d] of the network: afterwards [num_batches_tracked]
    of every layer in training mode is one more than before, and that of
    every layer in evaluation mode is what it was.  No layer is skipped
    and none is used twice. *)
Theorem forward_tracks_one_batch (s0 s1 s2 s3 c0 c1 c2 c3 b0 b1 b2 b3 lpb nc : Z)
    (net0 net : VoVNet_object) (h : heap) (l : nat) (x : tensor)
    (refs : list (string * nat)) (net' : VoVNet_object) (h' : heap) :
  0 ≤ s0 → 0 ≤ s1 → 0 ≤ s2 → 0 ≤ s3 → 0 ≤ c0 → 0 ≤ c1 → 0 ≤ c2 → 0 ≤ c3 →
  0 ≤ lpb → 0 ≤ nc →
  VoVNet [s0; s1; s2; s3] [c0; c1; c2; c3] [b0; b1; b2; b3] lpb nc = Ok net0 →
  as_built net = net0 →
  h !! l = Some x →
  VoVNet_forward (H := heap_memory) net l h = Ok ((refs, net'), h') →
  per_norm num_batches_tracked net' = per_norm after_one_pass net.
Proof.
  intros Hs0 Hs1 Hs2 Hs3 Hc0 Hc1 Hc2 Hc3 Hlpb Hnc Hnet0 Hnet Hl Hrun.
  rewrite VoVNet_ok in Hnet0 by (try done; repeat constructor; done).
  injection Hnet0 as <-.
  assert (safe_net net = true) as Hsafe
    by (eapply as_built_safe; [exact Hnet|apply safe_vovnet]).
  destruct (refines_ok_inv same_outputs h _ _ _ _ (VoVNet_refines net h l x Hsafe Hl) Hrun)
    as ([outs net1] & ext & Hval & _ & _ & Hn). cbn [snd] in Hn. subst net1.
  change (VoVNet_value net x = Ok (outs, net')) in Hval.
  apply as_built_vovnet_inv in Hnet
    as (stem & st2 & st3 & st4 & st5 & lin & Hmods & _).
  rewrite (VoVNet_value_children _ _ _ _ _ _ _ _ Hmods) in Hval.
  destruct (Sequential_value stem x) as [[t1 stem']|e] eqn:E1; [|done].
  cbn [rbind] in Hval.
  destruct (OSA_stage_value st2 t1) as [[t2 st2']|e] eqn:E2; [|done].
  cbn [rbind] in Hval.
  destruct (OSA_stage_value st3 t2) as [[t3 st3']|e] eqn:E3; [|done].
  cbn [rbind] in Hval.
  destruct (OSA_stage_value st4 t3) as [[t4 st4']|e] eqn:E4; [|done].
  cbn [rbind] in Hval.
  destruct (OSA_stage_value st5 t4) as [[t5 st5']|e] eqn:E5; [|done].
  cbn [rbind] in Hval. injection Hval as _ <-.
  unfold per_norm. rewrite Hmods. cbn [modules fmap list_fmap snd per_norm_child].
  by rewrite (Sequential_value_tracked _ _ _ _ E1), (OSA_stage_value_tracked _ _ _ _ E2),
             (OSA_stage_value_tracked _ _ _ _ E3), (OSA_stage_value_tracked _ _ _ _ E4),
             (OSA_stage_value_tracked _ _ _ _ E5).
Qed.

Lemma forward_tracks_one_batch_witness :
  ∃ refs net' h',
    VoVNet_forward (H := heap_memory) (built V27_slim) 0%nat sample_heap
    = Ok ((refs, net'), h') ∧
    per_norm num_batches_tracked (built V27_slim) = replicate 27 0%nat ∧
    per_norm num_batches_tracked net' = replicate 27 1%nat.
Proof.
  assert (0 ≤ 2 ∧ 2 * res5_extent 224 * res5_extent 224 ≠ 1) as Hbatch
    by (split; [lia|by vm_compute]).
  destruct (backbone_forward V27_slim (built V27_slim) sample_heap 0%nat sample_image
              2 224 224 (as_built_built V27_slim) eq_refl eq_refl
              ltac:(lia) ltac:(lia) (or_intror Hbatch))
    as (l2 & l3 & l4 & l5 & t2 & t3 & t4 & t5 & net' & ext & Hrun & _).
  assert (VoVNet [64; 80; 96; 112] [128; 256; 384; 512] [1; 1; 1; 1] 5 1000
          = Ok (built V27_slim)) as Hnet
    by (apply VoVNet_ok; try reflexivity; try lia; repeat constructor; lia).
  eexists _, net', _. split; [exact Hrun|]. split; [vm_compute; reflexivity|].
  rewrite (forward_tracks_one_batch 64 80 96 112 128 256 384 512 1 1 1 1 5 1000
             (built V27_slim) (built V27_slim) sample_heap 0%nat sample_image
             _ net' _
             ltac:(lia) ltac:(lia) ltac:(lia) ltac:(lia) ltac:(lia) ltac:(lia)
             ltac:(lia) ltac:(lia) ltac:(lia) ltac:(lia) Hnet (as_built_built V27_slim)
             eq_refl Hrun).
  vm_compute. reflexivity.
Defined.

(** ** The Conv-Norm-Act units in the store *)

Section units_in_the_store.
(** A freshly built unit run on the heap: the convolution and the
    normalisation allocate one tensor each, the ReLU overwrites the
    second. *)
Lemma cna_forward_heap (i o k s p : Z) (m pf : string) (h : heap) (l : nat) (x : tensor)
    (n hh ww : Z) :
  1 ≤ i → 1 ≤ o → 1 ≤ s → 0 ≤ p →
  h !! l = Some x → size x = [n; i; hh; ww] → 1 ≤ hh → 1 ≤ ww →
  k ≤ hh + 2 * p → k ≤ ww + 2 * p →
  n * conv_out hh k s p * conv_out ww k s p ≠ 1 →
  let sz := [n; o; conv_out hh k s p; conv_out ww k s p] in
  let conv := TConv2d sz (layer_key m pf "conv") (mkConv2d i o k s p 1) x in
  Sequential_forward (H := heap_memory) (cna i o k s p m pf) l h
  = Ok ((S (length h),
         [ (layer_key m pf "conv", L_Conv2d (mkConv2d i o k s p 1));
           (layer_key m pf "norm", L_BatchNorm2d (mkBatchNorm2d o true [conv]));
           (layer_key m pf "relu", L_ReLU true) ]),
        h ++ [conv; TReLU (TBatchNorm sz (layer_key m pf "norm") o None conv)]).
Proof.
  intros Hi Ho Hs Hp Hl Hsz Hh1 Hw1 Hh Hw Hne sz conv. unfold cna.
  rewrite heap_Sequential_cons, (heap_Layer_conv h l x) by done.
  rewrite Hsz, conv2d_size_ok by done.
  fold sz. fold conv.
  rewrite heap_Sequential_cons, (heap_Layer_norm (h ++ [conv]) (length h) conv).
  2:{ exact (list_lookup_middle h [] conv (length h) eq_refl). }
  unfold batch_norm_size. cbn [training num_features running].
  change (size conv) with [n; o; conv_out hh k s p; conv_out ww k s p].
  cbv iota beta. rewrite bool_decide_eq_false_2 by done. cbn [andb].
  rewrite decide_False by (intros Hc; by apply Hc). fold sz.
  rewrite heap_Sequential_cons.
  rewrite (heap_Layer_relu _ (length (h ++ [conv])) (TBatchNorm sz (layer_key m pf "norm")
                                                       o None conv)).
  2:{ exact (list_lookup_middle (h ++ [conv]) [] _ _ eq_refl). }
  cbn [Sequential_forward]. unfold eret.
  rewrite length_app. cbn [length app]. rewrite Nat.add_1_r.
  do 2 f_equal.
  rewrite <- (app_assoc h [conv]). cbn [app].
  replace (S (length h)) with (length h + 1)%nat by lia.
  rewrite (insert_app_r h _ 1). done.
Qed.
End units_in_the_store.

(** X18.  The container built from [conv3x3(...)] (kernel 3, padding 1)
    or from [conv1x1(...)] (kernel 1, padding 0) with positive channel
    counts and a positive stride, freshly built and run on a feature map
    with [in_channels] channels, returns a map with [out_channels]
    channels and extents ceil(h / stride).  It allocates
    exactly two tensors: the output of the convolution and the output of
    the normalisation, which the in-place ReLU then overwrites and
    returns.  Its input is left as it was. *)
Theorem conv_unit_forward (three : bool) (in_ch out_ch stride : Z) (name postfix : string)
    (unit : Sequential) (h : heap) (l : nat) (x : tensor) (n hh ww : Z) :
  1 ≤ in_ch → 1 ≤ out_ch → 1 ≤ stride →
  has_dot name = false → has_dot postfix = false →
  (let? pairs := if three then conv3x3 in_ch out_ch name postfix stride 1 3 1
                 else conv1x1 in_ch out_ch name postfix stride 1 1 0 in
   Sequential_of pairs) = Ok unit →
  h !! l = Some x → size x = [n; in_ch; hh; ww] → 1 ≤ hh → 1 ≤ ww →
  let oh := (hh - 1) `div` stride + 1 in
  let ow := (ww - 1) `div` stride + 1 in
  n * oh * ow ≠ 1 →
  ∃ conv unit',
    Sequential_forward (H := heap_memory) unit l h
    = Ok ((S (length h), unit'),
          h ++ [conv; TReLU (TBatchNorm [n; out_ch; oh; ow]
                                        (layer_key name postfix "norm") out_ch None conv)]) ∧
    size conv = [n; out_ch; oh; ow] ∧
    as_built_seq unit' = unit.
Proof.
  intros Hi Ho Hs Hname Hpf Hunit Hl Hsz Hh Hw oh ow Hne.
  destruct three.
  - rewrite conv3x3_ok in Hunit by lia. cbn [rbind] in Hunit.
    rewrite Sequential_of_cna in Hunit by done. injection Hunit as <-.
    assert (conv_out hh 3 stride 1 = oh ∧ conv_out ww 3 stride 1 = ow) as [Eh Ew].
    { unfold conv_out, oh, ow. split; do 2 f_equal; lia. }
    pose proof (cna_forward_heap in_ch out_ch 3 stride 1 name postfix h l x n hh ww
                  Hi Ho Hs ltac:(lia) Hl Hsz Hh Hw ltac:(lia) ltac:(lia)) as Hrun.
    rewrite Eh, Ew in Hrun. cbv zeta in Hrun. rewrite Hrun by done.
    eexists _, _. split_and!; [reflexivity|done|done].
  - rewrite conv1x1_ok in Hunit by lia. cbn [rbind] in Hunit.
    rewrite Sequential_of_cna in Hunit by done. injection Hunit as <-.
    assert (conv_out hh 1 stride 0 = oh ∧ conv_out ww 1 stride 0 = ow) as [Eh Ew].
    { unfold conv_out, oh, ow. split; do 2 f_equal; lia. }
    pose proof (cna_forward_heap in_ch out_ch 1 stride 0 name postfix h l x n hh ww
                  Hi Ho Hs ltac:(lia) Hl Hsz Hh Hw ltac:(lia) ltac:(lia)) as Hrun.
    rewrite Eh, Ew in Hrun. cbv zeta in Hrun. rewrite Hrun by done.
    eexists _, _. split_and!; [reflexivity|done|done].
Qed.

Lemma conv_unit_forward_witness :
  let x := TData [2; 3; 224; 224] "images" in
  ∃ unit conv unit',
    (let? pairs := conv3x3 3 64 "stem" "1" 2 1 3 1 in Sequential_of pairs) = Ok unit ∧
    Sequential_forward (H := heap_memory) unit 0%nat [x]
    = Ok ((2%nat, unit'),
          [x; conv; TReLU (TBatchNorm [2; 64; 112; 112] "stem_1/norm" 64 None conv)]) ∧
    size conv = [2; 64; 112; 112].
Proof.
  intros x.
  assert ((let? pairs := conv3x3 3 64 "stem" "1" 2 1 3 1 in Sequential_of pairs)
          = Ok (cna 3 64 3 2 1 "stem" "1")) as Hunit by reflexivity.
  destruct (conv_unit_forward true 3 64 2 "stem" "1" _ [x] 0%nat x 2 224 224
              ltac:(lia) ltac:(lia) ltac:(lia) eq_refl eq_refl Hunit eq_refl eq_refl
              ltac:(lia) ltac:(lia)) as (conv & unit' & Hrun & Hconv & _).
  { vm_compute. discriminate. }
  exists (cna 3 64 3 2 1 "stem" "1"), conv, unit'. split; [exact Hunit|].
  split; [exact Hrun|exact Hconv].
Defined.
